(** * Camera-chain sensor of the robot calibration estimator

    A shallow embedding of
    [cob_robot_calibration_est/sensors/camera_chain_sensor.py]:
    the bundler that turns a calibration sample into sensor blocks, and
    the sensor block itself (residual, covariance, whitening, sparsity).

    - Python floats and numpy float64 entries are IEEE binary64 values:
      Rocq's primitive floats.
    - A numpy 2-d array or matrix is a column count and a list of rows.
    - A Python exception is the [Raise] outcome of the error monad.
    - Dictionaries are finite maps of stdpp.
    - Code that lives outside this module (kinematics, projection,
      numpy/scipy linear algebra) is a parameter of the development. *)

From Stdlib Require Import Floats ZArith Lia.
From stdpp Require Import base strings gmap list.

(** ** Exceptions and the error monad *)

Inductive exn : Type :=
  | AssertionError
  | AttributeError
  | KeyError
  | ValueError
  | IndexError
  | LinAlgError.

Inductive outcome (A : Type) : Type :=
  | Ok (a : A)
  | Raise (e : exn).

Arguments Ok {A} a.
Arguments Raise {A} e.

Global Instance outcome_ret : MRet outcome := fun A a => Ok a.

Global Instance outcome_bind : MBind outcome :=
  fun A B f m => match m with Ok a => f a | Raise e => Raise e end.

(** [assert(b)] *)
Definition py_assert (b : bool) : outcome unit :=
  if b then Ok tt else Raise AssertionError.

(** [for i in range(n): st = body(i, st)], stopping at the first exception. *)
Fixpoint for_range_from {St : Type} (start n : nat)
    (body : nat → St → outcome St) (st : St) : outcome St :=
  match n with
  | O => Ok st
  | S n' => st' ← body start st; for_range_from (S start) n' body st'
  end.

Definition for_range {St : Type} (n : nat)
    (body : nat → St → outcome St) (st : St) : outcome St :=
  for_range_from 0 n body st.

(** ** numpy arrays *)

(** A 1-d array is a list of floats.  A 2-d array (or [numpy.matrix])
    carries its column count, so that the shapes (0, 2) and (1, 0) are
    told apart. *)
Record ndarray : Type := mk_ndarray {
  ncols : nat;
  rows : list (list float)
}.

Definition shape0 (m : ndarray) : nat := length (rows m).
Definition shape1 (m : ndarray) : nat := ncols m.

Definition item (m : ndarray) (i j : nat) : float :=
  nth j (nth i (rows m) []) 0%float.

Definition tabulate (nr nc : nat) (f : nat → nat → float) : ndarray :=
  {| ncols := nc;
     rows := (λ i, f i <$> seq 0 nc) <$> seq 0 nr |}.

(** [numpy.zeros([nr, nc])] *)
Definition zeros (nr nc : nat) : ndarray :=
  {| ncols := nc; rows := replicate nr (replicate nc 0%float) |}.

(** [numpy.matrix(l)] for a list of equally long rows; [numpy.matrix([])]
    has shape (1, 0). *)
Definition numpy_matrix (l : list (list float)) : ndarray :=
  match l with
  | [] => {| ncols := 0; rows := [[]] |}
  | r :: _ => {| ncols := length r; rows := l |}
  end.

(** [numpy.matrix(v)] for a 1-d array: one row. *)
Definition matrix_of_vector (v : list float) : ndarray :=
  {| ncols := length v; rows := [v] |}.

(** [m.T] *)
Definition transpose (m : ndarray) : ndarray :=
  tabulate (shape1 m) (shape0 m) (λ i j, item m j i).

(** [numpy.diag(v)] for a 1-d [v] *)
Definition diag (v : list float) : ndarray :=
  tabulate (length v) (length v)
    (λ i j, if i =? j then nth i v 0%float else 0%float).

(** [reshape(m, [-1])]: the entries in row-major order. *)
Definition flatten (m : ndarray) : list float := concat (rows m).

(** numpy broadcasting of one dimension. *)
Definition broadcast_dim (a b : nat) : outcome nat :=
  if a =? b then Ok a
  else if a =? 1 then Ok b
  else if b =? 1 then Ok a
  else Raise ValueError.

Definition bidx (dim i : nat) : nat := if dim =? 1 then 0 else i.

(** Elementwise binary operation on 2-d arrays, with broadcasting. *)
Definition broadcast2 (op : float → float → float) (a b : ndarray)
    : outcome ndarray :=
  nr ← broadcast_dim (shape0 a) (shape0 b);
  nc ← broadcast_dim (shape1 a) (shape1 b);
  mret (tabulate nr nc (λ i j,
          op (item a (bidx (shape0 a) i) (bidx (shape1 a) j))
             (item b (bidx (shape0 b) i) (bidx (shape1 b) j)))).

(** Elementwise binary operation on 1-d arrays, with broadcasting. *)
Definition broadcast1 (op : float → float → float) (a b : list float)
    : outcome (list float) :=
  n ← broadcast_dim (length a) (length b);
  mret ((λ i, op (nth (bidx (length a) i) a 0%float)
                 (nth (bidx (length b) i) b 0%float)) <$> seq 0 n).

(** [m[i] = v] for a 1-d [v] *)
Definition set_row (m : ndarray) (i : nat) (v : list float)
    : outcome ndarray :=
  if negb (i <? shape0 m) then Raise IndexError
  else if length v =? shape1 m then
    Ok {| ncols := ncols m; rows := <[i := v]> (rows m) |}
  else if length v =? 1 then
    Ok {| ncols := ncols m;
          rows := <[i := replicate (ncols m) (nth 0 v 0%float)]> (rows m) |}
  else Raise ValueError.

(** [m[i, j] = v] *)
Definition set_item (m : ndarray) (i j : nat) (v : float)
    : outcome ndarray :=
  if (i <? shape0 m) && (j <? shape1 m) then
    Ok {| ncols := ncols m; rows := alter (<[j := v]>) i (rows m) |}
  else Raise IndexError.

(** [m[r0:r1, c0:c1]]; slices are clipped to the array. *)
Definition slice2 (m : ndarray) (r0 r1 c0 c1 : nat) : ndarray :=
  {| ncols := Nat.min (c1 - c0) (ncols m - c0);
     rows := (λ r, take (c1 - c0) (drop c0 r))
               <$> take (r1 - r0) (drop r0 (rows m)) |}.

(** [m[r0:r1, c0:c1] = v] *)
Definition set_block (m : ndarray) (r0 r1 c0 c1 : nat) (v : ndarray)
    : outcome ndarray :=
  let h := Nat.min (r1 - r0) (shape0 m - r0) in
  let w := Nat.min (c1 - c0) (shape1 m - c0) in
  if ((shape0 v =? h) || (shape0 v =? 1))
     && ((shape1 v =? w) || (shape1 v =? 1)) then
    Ok (tabulate (shape0 m) (shape1 m) (λ i j,
          if (r0 <=? i) && (i <? r0 + h) && (c0 <=? j) && (j <? c0 + w)
          then item v (bidx (shape0 v) (i - r0)) (bidx (shape1 v) (j - c0))
          else item m i j))
  else Raise ValueError.

(** A complex array, as returned by [scipy.linalg.sqrtm]. *)
Record cndarray : Type := mk_cndarray {
  re : ndarray;
  im : ndarray
}.

(** [c - r] for a complex [c] and a real [r] *)
Definition csub_real (c : cndarray) (r : ndarray) : outcome cndarray :=
  d ← broadcast2 PrimFloat.sub (re c) r;
  mret {| re := d; im := im c |}.

(** ** Python lists *)

(** [v in l] *)
Definition py_in {A : Type} `{EqDecision A} (v : A) (l : list A) : bool :=
  bool_decide (v ∈ l).

(** [l.index(v)] *)
Fixpoint py_index {A : Type} `{EqDecision A} (v : A) (l : list A)
    : outcome nat :=
  match l with
  | [] => Raise ValueError
  | a :: l' =>
      if decide (a = v) then Ok 0 else i ← py_index v l'; mret (S i)
  end.

(** [l[i]] *)
Definition py_getitem {A : Type} (l : list A) (i : nat) : outcome A :=
  match l !! i with
  | Some a => Ok a
  | None => Raise IndexError
  end.

(** ** Messages, configuration and parameters *)

(** An image point of a camera measurement. *)
Record ImagePoint : Type := mk_pt {
  pt_x : float;
  pt_y : float
}.

(** [calibration_msgs/CameraMeasurement] *)
Record CameraMeasurement : Type := mk_cam_meas {
  camera_id : string;
  image_points : list ImagePoint;
  cam_info_P : ndarray
}.

(** [sensor_msgs/JointState] *)
Record JointState : Type := mk_joint_state {
  position : list float
}.

(** [calibration_msgs/ChainMeasurement] *)
Record ChainMeasurement : Type := mk_chain_meas {
  chain_id : string;
  chain_state : JointState
}.

(** [calibration_msgs/RobotMeasurement] *)
Record RobotMeasurement : Type := mk_robot_meas {
  M_cam : list CameraMeasurement;
  M_chain : list ChainMeasurement
}.

(** The ["chain"] entry of a configuration; [chain_id] may be [None]. *)
Record ChainConfig : Type := mk_chain_config {
  before_chain : list string;
  cfg_chain_id : option string;
  after_chain : list string;
  dh_link_num : nat
}.

(** One element of [valid_configs]. *)
Record Config : Type := mk_config {
  cfg_camera_id : string;
  cfg_chain : ChainConfig
}.

(** Modelled from the spec: the class of the rectified cameras of the
    parameter set is not among the sources.  A camera holds its noise
    standard deviations [_cov_dict['u']], [_cov_dict['v']], the names
    returned by [get_param_names()] and its intrinsic shifts. *)
Record RectifiedCamera : Type := mk_camera {
  cov_dict_u : float;
  cov_dict_v : float;
  get_param_names : list string;
  cam_values : list float
}.

(** Modelled from the spec: the class of the joint chains of the
    parameter set is not among the sources.  A chain holds its link
    count [_M], the per-joint standard deviations
    [_cov_dict['joint_angles']], and per link a geometry row and a
    gearing scalar. *)
Record JointChain : Type := mk_joint_chain {
  _M : nat;
  cov_dict_joint_angles : list float;
  dh_values : list (list float);
  gearing_values : list float
}.

(** Modelled from the spec: [full_chain.py] is not among the sources.
    The calculation block of a full chain, once it has been configured
    from a parameter set, holds the transforms before and after the
    chain and the chain itself, if the configuration names one. *)
Record FullChainCalcBlock : Type := mk_calc_block {
  before_chain_Ts : list (list float);
  cb_chain : option JointChain;
  cb_dh_link_num : nat;
  after_chain_Ts : list (list float)
}.

(** Modelled from the spec: [full_chain.py] is not among the sources.
    [FullChainRobotParams] holds the chain configuration and the
    calculation block; evaluation is valid only after a rebind, so the
    block is unusable ([None]) until [update_config] has run. *)
Record FullChainRobotParams : Type := mk_full_chain {
  fc_config_dict : ChainConfig;
  calc_block : option FullChainCalcBlock
}.

(** Modelled from the spec: the class of the system parameters is not
    among the sources.  The parameters of one optimisation cycle are
    looked up by identifier: transforms, chains and cameras. *)
Record RobotParams : Type := mk_robot_params {
  transforms : gmap string (list float);
  dh_chains : gmap string JointChain;
  rectified_cams : gmap string RectifiedCamera
}.

(** ** CameraChainSensor: construction *)

(** The attributes of a sensor block.  [_camera] does not exist until
    [update_config] has run.  [_chain] is always a
    [FullChainRobotParams], never [None]. *)
Record CameraChainSensor : Type := mk_sensor {
  sensor_type : string;
  sensor_id : string;
  _config_dict : Config;
  _M_cam : CameraMeasurement;
  _M_chain : option ChainMeasurement;
  _chain : FullChainRobotParams;
  terms_per_sample : nat;
  _camera : option RectifiedCamera
}.

(** [CameraChainSensor.__init__] *)
Definition CameraChainSensor_init (config_dict : Config)
    (M_cam : CameraMeasurement) (M_chain : option ChainMeasurement)
    : CameraChainSensor :=
  {| sensor_type := "camera";
     sensor_id := cfg_camera_id config_dict;
     _config_dict := config_dict;
     _M_cam := M_cam;
     _M_chain := M_chain;
     _chain := {| fc_config_dict := cfg_chain config_dict;
                  calc_block := None |};
     terms_per_sample := 2;
     _camera := None |}.

(** ** CameraChainBundler *)

(** The loop of [build_blocks]; [sensors] is the list built so far.  The
    chain identifier of a configuration is a string or [None], those of
    the message are strings: the former is looked up among the latter by
    [==], which no string satisfies for [None].  The [else] arm of the
    chain test leaves the loop ([break]). *)
Fixpoint build_blocks_loop (valid_configs : list Config)
    (M_robot : RobotMeasurement) (sensors : list CameraChainSensor)
    : outcome (list CameraChainSensor) :=
  match valid_configs with
  | [] => Ok sensors
  | cur_config :: rest =>
      let cam_ids := camera_id <$> M_cam M_robot in
      let chain_ids := (λ x, Some (chain_id x)) <$> M_chain M_robot in
      if py_in (cfg_camera_id cur_config) cam_ids then
        if py_in (cfg_chain_id (cfg_chain cur_config)) chain_ids then
          i ← py_index (cfg_camera_id cur_config) cam_ids;
          m_cam ← py_getitem (M_cam M_robot) i;
          j ← py_index (cfg_chain_id (cfg_chain cur_config)) chain_ids;
          m_chain ← py_getitem (M_chain M_robot) j;
          build_blocks_loop rest M_robot
            (sensors ++ [CameraChainSensor_init cur_config m_cam
                           (Some m_chain)])
        else if bool_decide (cfg_chain_id (cfg_chain cur_config) = None) then
          i ← py_index (cfg_camera_id cur_config) cam_ids;
          m_cam ← py_getitem (M_cam M_robot) i;
          build_blocks_loop rest M_robot
            (sensors ++ [CameraChainSensor_init cur_config m_cam None])
        else Ok sensors
      else build_blocks_loop rest M_robot sensors
  end.

(** [CameraChainBundler(valid_configs).build_blocks(M_robot)] *)
Definition build_blocks (valid_configs : list Config)
    (M_robot : RobotMeasurement) : outcome (list CameraChainSensor) :=
  build_blocks_loop valid_configs M_robot [].

(** ** CameraChainSensor: methods *)

(** Reading an attribute that may not exist. *)
Definition getattr {A : Type} (o : option A) : outcome A :=
  match o with
  | Some a => Ok a
  | None => Raise AttributeError
  end.

(** [epsilon = 1e-8], as the binary64 value the literal denotes. *)
Definition epsilon : float := 0x1.5798ee2308c3ap-27%float.

(** [1e-6], as the binary64 value the literal denotes. *)
Definition sqrt_tolerance : float := 0x1.0c6f7a0b5ed8dp-20%float.

(** [get_residual_length] *)
Definition get_residual_length (self : CameraChainSensor) : nat :=
  length (image_points (_M_cam self)) * 2.

(** [get_measurement] *)
Definition get_measurement (self : CameraChainSensor) : ndarray :=
  numpy_matrix ((λ pt, [pt_x pt; pt_y pt]) <$> image_points (_M_cam self)).

(** The chain entry of the sparsity dictionary. *)
Record ChainSparsity : Type := mk_chain_sparsity {
  sp_dh : list (list Z);
  sp_gearing : list Z
}.

(** The dictionary returned by [build_sparsity_dict]. *)
Record Sparsity : Type := mk_sparsity {
  sp_transforms : gmap string (list Z);
  sp_dh_chains : gmap (option string) ChainSparsity;
  sp_rectified_cams : gmap string (gmap string Z)
}.

Section Sensor.

(** Code outside this module. *)

(** [FullChainCalcBlock.fk(chain_state)]: the camera pose in the root
    frame. *)
Variable fk : FullChainCalcBlock → option JointState → outcome ndarray.

(** [RectifiedCamera.project(P, pts)] *)
Variable project : RectifiedCamera → ndarray → ndarray → outcome ndarray.

(** [FullChainRobotParams.update_config(robot_params)]: the calculation
    block configured from the parameters, or an exception. *)
Variable full_chain_update_config :
  ChainConfig → RobotParams → outcome FullChainCalcBlock.

(** The product of two [numpy.matrix] values. *)
Variable matmul : ndarray → ndarray → outcome ndarray.

(** [m.I] *)
Variable mat_inv : ndarray → outcome ndarray.

(** [scipy.linalg.sqrtm] *)
Variable sqrtm : ndarray → outcome cndarray.

(** [scipy.linalg.norm] *)
Variable norm : cndarray → outcome float.

(** [update_config]: the new attributes of the sensor, and whether the
    call returned or raised.  The camera is stored before the chain is
    updated, and stays stored when that update raises.  The test
    [self._chain is not None] always holds. *)
Definition update_config (self : CameraChainSensor)
    (robot_params : RobotParams) : CameraChainSensor * outcome unit :=
  match rectified_cams robot_params !! cfg_camera_id (_config_dict self) with
  | None => (self, Raise KeyError)
  | Some cam =>
      let self1 :=
        {| sensor_type := sensor_type self;
           sensor_id := sensor_id self;
           _config_dict := _config_dict self;
           _M_cam := _M_cam self;
           _M_chain := _M_chain self;
           _chain := _chain self;
           terms_per_sample := terms_per_sample self;
           _camera := Some cam |} in
      match full_chain_update_config (fc_config_dict (_chain self))
              robot_params with
      | Raise e => (self1, Raise e)
      | Ok cb =>
          ({| sensor_type := sensor_type self;
              sensor_id := sensor_id self;
              _config_dict := _config_dict self;
              _M_cam := _M_cam self;
              _M_chain := _M_chain self;
              _chain := {| fc_config_dict := fc_config_dict (_chain self);
                           calc_block := Some cb |};
              terms_per_sample := terms_per_sample self;
              _camera := Some cam |}, Ok tt)
      end
  end.

(** The states of a sensor on which [update_config] has never returned:
    the sensor as constructed, and what calls that raised have made of
    it. *)
Inductive never_bound : CameraChainSensor → Prop :=
  | never_bound_init (config_dict : Config) (M_cam : CameraMeasurement)
      (M_chain : option ChainMeasurement) :
      never_bound (CameraChainSensor_init config_dict M_cam M_chain)
  | never_bound_raise (self self' : CameraChainSensor)
      (robot_params : RobotParams) (e : exn) :
      never_bound self →
      update_config self robot_params = (self', Raise e) →
      never_bound self'.

(** The sensor after the [update_config] calls of a sequence of
    optimisation cycles. *)
Definition update_config_all (self : CameraChainSensor)
    (cycles : list RobotParams) : CameraChainSensor :=
  foldl (λ s robot_params, fst (update_config s robot_params)) self cycles.

(** A parameter set from which [self] can be bound. *)
Definition bindable (self : CameraChainSensor) (robot_params : RobotParams)
    : Prop :=
  is_Some (rectified_cams robot_params !! cfg_camera_id (_config_dict self))
  ∧ ∃ cb, full_chain_update_config (fc_config_dict (_chain self)) robot_params
          = Ok cb.

(** [_compute_expected] *)
Definition _compute_expected (self : CameraChainSensor)
    (chain_state : option JointState) (target_pts : ndarray)
    : outcome ndarray :=
  cb ← getattr (calc_block (_chain self));
  camera_pose_root ← fk cb chain_state;
  pose_inv ← mat_inv camera_pose_root;
  cam_frame_pts ← matmul pose_inv target_pts;
  cam ← getattr (_camera self);
  pixel_pts ← project cam (cam_info_P (_M_cam self)) cam_frame_pts;
  mret (transpose pixel_pts).

(** [compute_expected] *)
Definition compute_expected (self : CameraChainSensor)
    (target_pts : ndarray) : outcome ndarray :=
  match _M_chain self with
  | Some m_chain =>
      _compute_expected self (Some (chain_state m_chain)) target_pts
  | None => _compute_expected self None target_pts
  end.

(** [compute_residual] *)
Definition compute_residual (self : CameraChainSensor)
    (target_pts : ndarray) : outcome (list float) :=
  let z_mat := get_measurement self in
  h_mat ← compute_expected self target_pts;
  py_assert (shape1 z_mat =? 2);;
  py_assert (shape1 h_mat =? 2);;
  py_assert (shape0 z_mat =? shape0 z_mat);;
  d ← broadcast2 PrimFloat.sub h_mat z_mat;
  mret (flatten d).

(** The joint state of iteration [i] of the Jacobian loop: a copy of the
    measured positions with [epsilon] added to entry [i]. *)
Definition perturbed (m_chain : ChainMeasurement) (i : nat) : JointState :=
  {| position :=
       alter (λ p, (p + epsilon)%float) i (position (chain_state m_chain)) |}.

(** The body of the Jacobian loop of [compute_cov]. *)
Definition jacobian_step (self : CameraChainSensor)
    (m_chain : ChainMeasurement) (target_pts : ndarray) (f0 : list float)
    (i : nat) (Jt : ndarray) : outcome ndarray :=
  e_test ← _compute_expected self (Some (perturbed m_chain i)) target_pts;
  let fTest := flatten e_test in
  d ← broadcast1 PrimFloat.sub fTest f0;
  set_row Jt i ((λ v, (v / epsilon)%float) <$> d).

(** The Jacobian [Jt] of [compute_cov]. *)
Definition compute_Jt (self : CameraChainSensor)
    (m_chain : ChainMeasurement) (target_pts : ndarray) : outcome ndarray :=
  let num_joints := length (position (chain_state m_chain)) in
  let Jt := zeros num_joints (get_residual_length self) in
  let x := {| position := position (chain_state m_chain) |} in
  e0 ← _compute_expected self (Some x) target_pts;
  let f0 := flatten e0 in
  for_range num_joints (jacobian_step self m_chain target_pts f0) Jt.

(** The first branch of [compute_cov]: the covariance of the chain in
    pixel space. *)
Definition compute_chain_cov (self : CameraChainSensor)
    (m_chain : ChainMeasurement) (target_pts : ndarray) : outcome ndarray :=
  Jt ← compute_Jt self m_chain target_pts;
  cb ← getattr (calc_block (_chain self));
  chain ← getattr (cb_chain cb);
  let cov_angles := (λ x, (x * x)%float) <$> cov_dict_joint_angles chain in
  a ← matmul (transpose Jt) (diag cov_angles);
  matmul a Jt.

(** The camera part of [compute_cov]. *)
Definition compute_cam_cov (self : CameraChainSensor) : outcome ndarray :=
  let cam_cov :=
    zeros (get_residual_length self) (get_residual_length self) in
  cam ← getattr (_camera self);
  let var_u := (cov_dict_u cam * cov_dict_u cam)%float in
  let var_v := (cov_dict_v cam * cov_dict_v cam)%float in
  for_range (shape0 cam_cov / 2)
    (λ k cam_cov,
       cam_cov ← set_item cam_cov (2 * k) (2 * k) var_u;
       set_item cam_cov (2 * k + 1) (2 * k + 1) var_v)
    cam_cov.

(** [compute_cov] *)
Definition compute_cov (self : CameraChainSensor) (target_pts : ndarray)
    : outcome ndarray :=
  match _M_chain self with
  | Some m_chain =>
      chain_cov ← compute_chain_cov self m_chain target_pts;
      cam_cov ← compute_cam_cov self;
      broadcast2 PrimFloat.add chain_cov cam_cov
  | None =>
      cam_cov ← compute_cam_cov self;
      mret cam_cov
  end.

(** The body of the loop of [compute_marginal_gamma_sqrt]. *)
Definition gamma_step (cov : ndarray) (k : nat) (gamma : ndarray)
    : outcome ndarray :=
  let first := 2 * k in
  let last := 2 * k + 2 in
  let sub_cov := slice2 cov first last first last in
  sub_gamma ← mat_inv sub_cov;
  sub_gamma_sqrt_full ← sqrtm sub_gamma;
  let sub_gamma_sqrt := re sub_gamma_sqrt_full in
  d ← csub_real sub_gamma_sqrt_full sub_gamma_sqrt;
  n ← norm d;
  py_assert (n <? sqrt_tolerance)%float;;
  set_block gamma first last first last sub_gamma_sqrt.

(** The [k]-th 2×2 diagonal block of a covariance. *)
Definition diag_block (cov : ndarray) (k : nat) : ndarray :=
  slice2 cov (2 * k) (2 * k + 2) (2 * k) (2 * k + 2).

(** Block [k] of [cov] passes the check of the loop, with real square
    root [s]: the inverse and its square root are computed, the norm of
    what [real] discards is below the tolerance. *)
Definition block_passes (cov : ndarray) (k : nat) (s : ndarray) : Prop :=
  ∃ sub_gamma full d n,
    mat_inv (diag_block cov k) = Ok sub_gamma
    ∧ sqrtm sub_gamma = Ok full
    ∧ s = re full
    ∧ csub_real full (re full) = Ok d
    ∧ norm d = Ok n
    ∧ (n <? sqrt_tolerance)%float = true.

(** Block [k] of [cov] fails the check: the norm of what [real] discards
    is not below the tolerance. *)
Definition block_fails (cov : ndarray) (k : nat) : Prop :=
  ∃ sub_gamma full d n,
    mat_inv (diag_block cov k) = Ok sub_gamma
    ∧ sqrtm sub_gamma = Ok full
    ∧ csub_real full (re full) = Ok d
    ∧ norm d = Ok n
    ∧ (n <? sqrt_tolerance)%float = false.

(** [compute_marginal_gamma_sqrt] *)
Definition compute_marginal_gamma_sqrt (self : CameraChainSensor)
    (target_pts : ndarray) : outcome ndarray :=
  cov ← compute_cov self target_pts;
  let gamma := zeros (shape0 cov) (shape1 cov) in
  let num_pts := get_residual_length self / 2 in
  for_range num_pts (gamma_step cov) gamma.

(** [compute_residual_scaled] *)
Definition compute_residual_scaled (self : CameraChainSensor)
    (target_pts : ndarray) : outcome (list float) :=
  r ← compute_residual self target_pts;
  gamma_sqrt ← compute_marginal_gamma_sqrt self target_pts;
  r_scaled ← matmul gamma_sqrt (transpose (matrix_of_vector r));
  py_getitem (rows (transpose r_scaled)) 0.

(** The ['transforms'] entry of the sparsity dictionary. *)
Definition sparsity_transforms (names : list string) : gmap string (list Z) :=
  foldl (λ d cur_transform_name, <[cur_transform_name := [1; 1; 1; 1; 1; 1]%Z]> d)
    ∅ names.

(** [build_sparsity_dict] *)
Definition build_sparsity_dict (self : CameraChainSensor) : outcome Sparsity :=
  let chain_cfg := cfg_chain (_config_dict self) in
  let sp_t := sparsity_transforms (before_chain chain_cfg ++ after_chain chain_cfg) in
  sp_c ← match _M_chain self with
         | Some m_chain =>
             let chain_id := cfg_chain_id chain_cfg in
             cb ← getattr (calc_block (_chain self));
             chain ← getattr (cb_chain cb);
             let num_links := _M chain in
             py_assert (num_links =? length (position (chain_state m_chain)));;
             mret {[ chain_id := {| sp_dh := replicate num_links [1; 1; 1; 1]%Z;
                                    sp_gearing := replicate num_links 1%Z |} ]}
         | None => mret ∅
         end;
  cam ← getattr (_camera self);
  mret {| sp_transforms := sp_t;
          sp_dh_chains := sp_c;
          sp_rectified_cams :=
            {[ sensor_id self :=
                 list_to_map ((λ x, (x, 1%Z)) <$> get_param_names cam) ]} |}.

(** Column [k] of a matrix, as a matrix of one column. *)
Definition column_of (m : ndarray) (k : nat) : ndarray :=
  tabulate (shape0 m) 1 (λ i _, item m i k).

(** [m[:, k].copy()] for a [numpy.matrix] *)
Definition column (m : ndarray) (k : nat) : outcome ndarray :=
  if k <? shape1 m then Ok (column_of m k) else Raise IndexError.

(** [m / c] for a scalar [c] *)
Definition div_scalar (m : ndarray) (c : float) : ndarray :=
  tabulate (shape0 m) (shape1 m) (λ i j, (item m i j / c)%float).

(** [m[i, :] = v] for a 2-d [v], which numpy broadcasts to the row only
    when its leading dimension is 1. *)
Definition set_row_2d (m : ndarray) (i : nat) (v : ndarray)
    : outcome ndarray :=
  if shape0 v =? 1 then set_row m i (nth 0 (rows v) [])
  else Raise ValueError.

(** The body of the inner loop of [compute_expected_J], for coordinate
    [i]: the state is the point [x], which is perturbed in place and put
    back by subtraction, and the block [sub_Jt]. *)
Definition expected_J_coord (self : CameraChainSensor) (f0 : ndarray)
    (i : nat) (st : ndarray * ndarray) : outcome (ndarray * ndarray) :=
  let x := st.1 in
  let sub_Jt := st.2 in
  x ← set_item x i 0 (item x i 0 + epsilon)%float;
  fTest ← compute_expected self x;
  d ← broadcast2 PrimFloat.sub fTest f0;
  sub_Jt ← set_row_2d sub_Jt i (div_scalar d epsilon);
  x ← set_item x i 0 (item x i 0 - epsilon)%float;
  mret (x, sub_Jt).

(** The body of the outer loop of [compute_expected_J], for point
    [k]. *)
Definition expected_J_point (self : CameraChainSensor)
    (target_pts : ndarray) (k : nat) (Jt : ndarray) : outcome ndarray :=
  let sub_Jt := zeros 3 2 in
  x ← column target_pts k;
  f0 ← compute_expected self x;
  st ← for_range 3 (expected_J_coord self f0) (x, sub_Jt);
  set_block Jt (k * 3) ((k + 1) * 3) (k * 2) ((k + 1) * 2) st.2.

(** [compute_expected_J] *)
Definition compute_expected_J (self : CameraChainSensor)
    (target_pts : ndarray) : outcome ndarray :=
  let N := length (image_points (_M_cam self)) in
  let Jt := zeros (N * 3) (N * 2) in
  Jt ← for_range N (expected_J_point self target_pts) Jt;
  mret (transpose Jt).

End Sensor.

(** * Auxiliary notions of the properties *)

(** A configuration on which [build_blocks] leaves its loop: its camera
    is in the sample, its chain identifier is not and is not [None]. *)
Definition breaks (c : Config) (M_robot : RobotMeasurement) : bool :=
  py_in (cfg_camera_id c) (camera_id <$> M_cam M_robot)
  && negb (py_in (cfg_chain_id (cfg_chain c))
             ((λ x, Some (chain_id x)) <$> M_chain M_robot))
  && negb (bool_decide (cfg_chain_id (cfg_chain c) = None)).


(** The link count of the chain that a sensor is bound to, if any. *)
Definition bound_link_count (self : CameraChainSensor) : option nat :=
  cb ← calc_block (_chain self); chain ← cb_chain cb; Some (_M chain).

(** Two sensor states of the same shape: the same configuration and
    readings, cameras with the same parameter names, chains with the
    same link count.  The values held by the parameters are free. *)
Definition same_shape (s1 s2 : CameraChainSensor) : Prop :=
  _config_dict s1 = _config_dict s2
  ∧ sensor_id s1 = sensor_id s2
  ∧ _M_chain s1 = _M_chain s2
  ∧ get_param_names <$> _camera s1 = get_param_names <$> _camera s2
  ∧ bound_link_count s1 = bound_link_count s2.

(** The chain entry of the sparsity dictionary for [n] links. *)
Definition chain_sparsity (n : nat) : ChainSparsity :=
  {| sp_dh := replicate n [1; 1; 1; 1]%Z; sp_gearing := replicate n 1%Z |}.

(** The Bound state of a sensor: [update_config] has stored a camera and
    a configured calculation block. *)
Definition is_bound (self : CameraChainSensor) : Prop :=
  is_Some (_camera self) ∧ is_Some (calc_block (_chain self)).

(** The calculation block of a sensor with a chain reading holds the
    parameters of that chain. *)
Definition chain_resolved (self : CameraChainSensor) : Prop :=
  is_Some (_M_chain self) → is_Some (bound_link_count self).

(** An outcome that is not the exception of a missing attribute. *)
Definition no_attribute_error {A : Type} (o : outcome A) : Prop :=
  o ≠ Raise AttributeError.

(** The code outside this module never raises the exception of a missing
    attribute. *)
Definition external_no_attribute_error
    (fk : FullChainCalcBlock → option JointState → outcome ndarray)
    (project : RectifiedCamera → ndarray → ndarray → outcome ndarray)
    (matmul : ndarray → ndarray → outcome ndarray)
    (mat_inv : ndarray → outcome ndarray)
    (sqrtm : ndarray → outcome cndarray)
    (norm : cndarray → outcome float) : Prop :=
  (∀ cb st, no_attribute_error (fk cb st))
  ∧ (∀ cam P pts, no_attribute_error (project cam P pts))
  ∧ (∀ a b, no_attribute_error (matmul a b))
  ∧ (∀ m, no_attribute_error (mat_inv m))
  ∧ (∀ m, no_attribute_error (sqrtm m))
  ∧ (∀ c, no_attribute_error (norm c)).

(** The configuration of a sensor names a chain whenever the sensor has
    a chain reading. *)
Definition chain_configured (self : CameraChainSensor) : Prop :=
  is_Some (_M_chain self)
  → is_Some (cfg_chain_id (fc_config_dict (_chain self))).

(** Modelled from the spec: the update of the chain resolves the chain
    that its configuration names, so that a block it has configured
    holds a chain whenever the configuration has a chain identifier. *)
Definition resolves_chain
    (full_chain_update_config :
       ChainConfig → RobotParams → outcome FullChainCalcBlock) : Prop :=
  ∀ cfg robot_params cb,
    full_chain_update_config cfg robot_params = Ok cb →
    is_Some (cfg_chain_id cfg) → is_Some (cb_chain cb).

(** The camera-noise covariance of [n] observed points: the 2n×2n
    diagonal matrix whose diagonal alternates [var_u], [var_v]. *)
Definition cam_noise_cov (n : nat) (var_u var_v : float) : ndarray :=
  tabulate (2 * n) (2 * n) (λ i j,
    if i =? j then (if Nat.even i then var_u else var_v) else 0%float).

(** The block-diagonal matrix of [n] blocks of shape 2×2. *)
Definition block_diag2 (n : nat) (block : nat → ndarray) : ndarray :=
  tabulate (2 * n) (2 * n) (λ i j,
    if i / 2 =? j / 2 then item (block (i / 2)) (i mod 2) (j mod 2)
    else 0%float).

(** ** A sample and a configuration library *)

Definition sample_cam (id : string) : CameraMeasurement :=
  {| camera_id := id;
     image_points := [ {| pt_x := 320%float; pt_y := 240%float |} ];
     cam_info_P := zeros 3 4 |}.

Definition sample_arm : ChainMeasurement :=
  {| chain_id := "arm";
     chain_state := {| position := [0.5%float; 0.25%float] |} |}.

Definition sample_robot : RobotMeasurement :=
  {| M_cam := [sample_cam "cam_a"; sample_cam "cam_b"];
     M_chain := [sample_arm] |}.

Definition config_of (cam : string) (chain : option string) : Config :=
  {| cfg_camera_id := cam;
     cfg_chain := {| before_chain := ["base_T"];
                     cfg_chain_id := chain;
                     after_chain := ["mount_T"; "optical_T"];
                     dh_link_num := 2 |} |}.

Definition config_camera_only : Config := config_of "cam_a" None.
Definition config_unknown_chain : Config := config_of "cam_a" (Some "torso").
Definition config_arm : Config := config_of "cam_b" (Some "arm").

Definition sample_configs : list Config :=
  [config_camera_only; config_unknown_chain; config_arm].

(** ** Floats *)

(** A float that is neither a NaN nor an infinity. *)
Definition finite (x : float) : bool :=
  match Prim2SF x with
  | S754_zero _ | S754_finite _ _ _ => true
  | _ => false
  end.

Definition finite_point (pt : ImagePoint) : bool :=
  finite (pt_x pt) && finite (pt_y pt).

(** ** A stub kinematic and projection pair

    Stand-ins for the code outside this module, for evaluating the
    sensor on concrete inputs: the camera pose is a translation by the
    first joint positions, the projection is the pinhole division by the
    depth, matrices are multiplied by summing left to right, and the
    inverse and the square root are those of translations and of
    diagonal matrices. *)

Definition stub_fk (cb : FullChainCalcBlock) (chain_state : option JointState)
    : outcome ndarray :=
  let p := match chain_state with
           | Some st => position st
           | None => []
           end in
  Ok (tabulate 4 4 (λ i j,
        if i =? j then 1%float
        else if (j =? 3) && (i <? 2) then nth i p 0%float
        else 0%float)).

Definition stub_matmul (a b : ndarray) : outcome ndarray :=
  if shape1 a =? shape0 b then
    Ok (tabulate (shape0 a) (shape1 b) (λ i j,
          foldl (λ acc k, (acc + item a i k * item b k j)%float) 0%float
            (seq 0 (shape1 a))))
  else Raise ValueError.

Definition stub_inv (m : ndarray) : outcome ndarray :=
  if shape0 m =? 4 then
    Ok (tabulate 4 4 (λ i j,
          if i =? j then 1%float
          else if (j =? 3) && (i <? 2) then (- item m i 3)%float
          else 0%float))
  else if forallb (λ i, negb (item m i i =? 0)%float) (seq 0 (shape0 m)) then
    Ok (tabulate (shape0 m) (shape1 m) (λ i j,
          if i =? j then (1 / item m i i)%float else 0%float))
  else Raise LinAlgError.

Definition stub_project (cam : RectifiedCamera) (P pts : ndarray)
    : outcome ndarray :=
  Ok (tabulate 2 (shape1 pts) (λ i j, (item pts i j / item pts 2 j)%float)).

Definition stub_sqrtm (m : ndarray) : outcome cndarray :=
  Ok {| re := tabulate (shape0 m) (shape1 m) (λ i j,
                if (i =? j) && (0 <=? item m i i)%float
                then sqrt (item m i i) else 0%float);
        im := tabulate (shape0 m) (shape1 m) (λ i j,
                if (i =? j) && negb (0 <=? item m i i)%float
                then sqrt (- item m i i) else 0%float) |}.

Definition stub_norm (c : cndarray) : outcome float :=
  Ok (sqrt (foldl (λ acc v, (acc + v * v)%float) 0%float
              (flatten (re c) ++ flatten (im c)))).

(** Modelled from the spec: the transforms named by a chain
    configuration are looked up in the parameters, and a name that is
    missing raises. *)
Definition lookup_transforms (rp : RobotParams) (names : list string)
    : outcome (list (list float)) :=
  foldr (λ name acc,
           match transforms rp !! name with
           | Some t => l ← acc; mret (t :: l)
           | None => Raise KeyError
           end) (Ok []) names.

(** Modelled from the spec: the update of the chain resolves the
    transforms and the chain of its configuration from the parameter set
    by identifier, a missing identifier raises, and the calculation
    block is configured only when every one has been found. *)
Definition stub_update_config (cfg : ChainConfig) (rp : RobotParams)
    : outcome FullChainCalcBlock :=
  before ← lookup_transforms rp (before_chain cfg);
  chain ← match cfg_chain_id cfg with
          | None => Ok None
          | Some c => match dh_chains rp !! c with
                      | Some ch => Ok (Some ch)
                      | None => Raise KeyError
                      end
          end;
  after ← lookup_transforms rp (after_chain cfg);
  mret {| before_chain_Ts := before;
          cb_chain := chain;
          cb_dh_link_num := dh_link_num cfg;
          after_chain_Ts := after |}.

(** ** Sample parameters, sensors and targets *)

Definition sample_camera : RectifiedCamera :=
  {| cov_dict_u := 0.5%float;
     cov_dict_v := 0.5%float;
     get_param_names := ["baseline_shift"; "f_shift"; "cx_shift"; "cy_shift"];
     cam_values := [0%float; 0%float; 0%float; 0%float] |}.

Definition sample_chain : JointChain :=
  {| _M := 2;
     cov_dict_joint_angles := [0.125%float; 0.25%float];
     dh_values := [[0%float; 0%float; 0%float; 0%float];
                   [0%float; 0%float; 0%float; 0%float]];
     gearing_values := [1%float; 1%float] |}.

Definition zero_transform : list float :=
  [0%float; 0%float; 0%float; 0%float; 0%float; 0%float].

Definition sample_params : RobotParams :=
  {| transforms := {[ "base_T" := zero_transform;
                      "mount_T" := zero_transform;
                      "optical_T" := zero_transform ]};
     dh_chains := {[ "arm" := sample_chain ]};
     rectified_cams := {[ "cam_a" := sample_camera;
                          "cam_b" := sample_camera ]} |}.

(** Parameters whose chain [arm] has three links. *)
Definition params_three_links : RobotParams :=
  {| transforms := transforms sample_params;
     dh_chains :=
       {[ "arm" := {| _M := 3;
                      cov_dict_joint_angles := cov_dict_joint_angles sample_chain;
                      dh_values := dh_values sample_chain;
                      gearing_values := gearing_values sample_chain |} ]};
     rectified_cams := rectified_cams sample_params |}.

(** Parameters that hold the camera but none of the transforms. *)
Definition params_without_transforms : RobotParams :=
  {| transforms := ∅;
     dh_chains := ∅;
     rectified_cams := {[ "cam_a" := sample_camera ]} |}.

(** A sensor for camera [cam_a] seeing the given image points, as built
    by the bundler, and the same sensor after [update_config]. *)
Definition fresh_sensor (chain : option string)
    (pts : list ImagePoint) (m_chain : option ChainMeasurement)
    : CameraChainSensor :=
  CameraChainSensor_init (config_of "cam_a" chain)
    {| camera_id := "cam_a"; image_points := pts; cam_info_P := zeros 3 4 |}
    m_chain.

Definition bound_sensor (chain : option string)
    (pts : list ImagePoint) (m_chain : option ChainMeasurement)
    : CameraChainSensor :=
  fst (update_config stub_update_config (fresh_sensor chain pts m_chain)
         sample_params).

(** Target points, one per column, in homogeneous coordinates. *)
Definition target_of (pts : list (list float)) : ndarray :=
  tabulate 4 (length pts) (λ i j, nth i (nth j pts []) 0%float).

Definition sensor_one_point : CameraChainSensor :=
  bound_sensor None [ {| pt_x := 320%float; pt_y := 240%float |} ] None.

Definition target_one_point : ndarray :=
  target_of [[320%float; 240%float; 1%float; 1%float]].

Definition sensor_two_points : CameraChainSensor :=
  bound_sensor (Some "arm")
    [ {| pt_x := 320%float; pt_y := 240%float |};
      {| pt_x := 1%float; pt_y := 2%float |} ]
    (Some sample_arm).

(** A sensor with a chain reading whose configuration names no chain,
    bound to the sample parameters. *)
Definition sensor_unmatched_chain : CameraChainSensor :=
  bound_sensor None [ {| pt_x := 320%float; pt_y := 240%float |} ]
    (Some sample_arm).

Definition target_two_points : ndarray :=
  target_of [[320%float; 240%float; 1%float; 1%float];
             [4%float; 8%float; 2%float; 1%float]].

(** An image point at infinity, and a target point of depth zero, which
    the pinhole division sends to infinity. *)
Definition sensor_infinite_point : CameraChainSensor :=
  bound_sensor None [ {| pt_x := infinity; pt_y := infinity |} ] None.

Definition target_depth_zero : ndarray :=
  target_of [[1%float; 1%float; 0%float; 1%float]].

Definition sensor_no_points : CameraChainSensor := bound_sensor None [] None.

Definition target_no_points : ndarray := target_of [].

(** The value of an outcome that is known to be [Ok]. *)
Definition get_ok {A : Type} (d : A) (o : outcome A) : A :=
  match o with
  | Ok a => a
  | Raise _ => d
  end.

(** The expected pixels of the two-point sensor at a joint state, its
    Jacobian, and the two matrix products of its chain covariance. *)
Definition sample_expected_at (st : JointState) : ndarray :=
  get_ok (zeros 0 0)
    (_compute_expected stub_fk stub_project stub_matmul stub_inv
       sensor_two_points (Some st) target_two_points).

Definition sample_Jt : ndarray :=
  Eval vm_compute in
    get_ok (zeros 0 0)
      (compute_Jt stub_fk stub_project stub_matmul stub_inv
         sensor_two_points sample_arm target_two_points).

Definition sample_JtT_D : ndarray :=
  Eval vm_compute in
    get_ok (zeros 0 0)
      (stub_matmul (transpose sample_Jt)
         (diag ((λ x, (x * x)%float) <$> cov_dict_joint_angles sample_chain))).

Definition sample_chain_cov : ndarray :=
  Eval vm_compute in get_ok (zeros 0 0) (stub_matmul sample_JtT_D sample_Jt).

(** The covariance of the two-point sensor, and for each of its diagonal
    blocks the inverse, its square root, what [real] discards of it and
    the norm of that. *)
Definition sample_cov : ndarray :=
  Eval vm_compute in
    get_ok (zeros 0 0)
      (compute_cov stub_fk stub_project stub_matmul stub_inv
         sensor_two_points target_two_points).

Definition sample_inv (k : nat) : ndarray :=
  get_ok (zeros 0 0) (stub_inv (diag_block sample_cov k)).

Definition sample_full (k : nat) : cndarray :=
  get_ok {| re := zeros 0 0; im := zeros 0 0 |} (stub_sqrtm (sample_inv k)).

Definition sample_discarded (k : nat) : cndarray :=
  get_ok {| re := zeros 0 0; im := zeros 0 0 |}
    (csub_real (sample_full k) (re (sample_full k))).

Definition sample_norm (k : nat) : float :=
  get_ok nan (stub_norm (sample_discarded k)).

(** A 2×2 covariance block that is not positive definite. *)
Definition indefinite_block : ndarray :=
  numpy_matrix [[(-1)%float; 0%float]; [0%float; 1%float]].

(** ** Notions of the further properties *)

(** The first element of [l] whose key is [v]. *)
Fixpoint first_with {A B : Type} `{EqDecision B} (f : A → B) (v : B)
    (l : list A) : option A :=
  match l with
  | [] => None
  | a :: l' => if decide (f a = v) then Some a else first_with f v l'
  end.

(** The configurations that the loop of [build_blocks] looks at: those
    before the first one on which it leaves the loop. *)
Fixpoint configs_before_break (valid_configs : list Config)
    (M_robot : RobotMeasurement) : list Config :=
  match valid_configs with
  | [] => []
  | c :: rest =>
      if breaks c M_robot then []
      else c :: configs_before_break rest M_robot
  end.

(** The sensor of a configuration, from the first readings of the
    sample that carry its identifiers, if there are such. *)
Definition sensor_of (M_robot : RobotMeasurement) (c : Config)
    : option CameraChainSensor :=
  m_cam ← first_with camera_id (cfg_camera_id c) (M_cam M_robot);
  match cfg_chain_id (cfg_chain c) with
  | None => Some (CameraChainSensor_init c m_cam None)
  | Some ch =>
      m_chain ← first_with chain_id ch (M_chain M_robot);
      Some (CameraChainSensor_init c m_cam (Some m_chain))
  end.

(** A coordinate after [epsilon] has been added and subtracted. *)
Definition restored (v : float) : float := ((v + epsilon) - epsilon)%float.

(** The one-column point [x] after the coordinates before [i] have been
    perturbed and put back. *)
Definition restored_upto (x : ndarray) (i : nat) : ndarray :=
  tabulate (shape0 x) 1 (λ a _,
    if a <? i then restored (item x a 0) else item x a 0).

(** The point at which [compute_expected_J] evaluates the perturbation
    of coordinate [i] of the one-column point [x]: the coordinates
    before [i] have been perturbed and put back. *)
Definition perturbed_point (x : ndarray) (i : nat) : ndarray :=
  tabulate (shape0 x) 1 (λ a _,
    if a <? i then restored (item x a 0)
    else if a =? i then (item x a 0 + epsilon)%float
    else item x a 0).

(** Parameters that hold no camera at all. *)
Definition params_without_camera : RobotParams :=
  {| transforms := transforms sample_params;
     dh_chains := dh_chains sample_params;
     rectified_cams := ∅ |}.

(** The expected pixels of the two-point sensor at column [k] of the
    two-point target, and at its perturbations. *)
Definition sample_point_expected (k : nat) : ndarray :=
  get_ok (zeros 0 0)
    (compute_expected stub_fk stub_project stub_matmul stub_inv
       sensor_two_points (column_of target_two_points k)).

Definition sample_point_perturbed (k i : nat) : ndarray :=
  get_ok (zeros 0 0)
    (compute_expected stub_fk stub_project stub_matmul stub_inv
       sensor_two_points
       (perturbed_point (column_of target_two_points k) i)).

(** The Jacobian of the two-point sensor with respect to the two-point
    target. *)
Definition sample_expected_J : ndarray :=
  Eval vm_compute in
    get_ok (zeros 0 0)
      (compute_expected_J stub_fk stub_project stub_matmul stub_inv
         sensor_two_points target_two_points).

(** A target point whose first two coordinates are 1. *)
Definition target_unit_point : ndarray :=
  target_of [[1%float; 1%float; 2%float; 1%float]].

(** * Properties *)

(** ** The error monad and Python lists *)

Lemma bind_Ok {A B : Type} (m : outcome A) (f : A → outcome B) (b : B) :
  m ≫= f = Ok b ↔ ∃ a, m = Ok a ∧ f a = Ok b.
Proof.
  destruct m as [a|e]; simpl.
  - split; [intros H; exists a; done | intros (a' & [= <-] & H); done].
  - split; [done | intros (a' & [=] & _)].
Qed.

Lemma getattr_Ok {A : Type} (o : option A) (a : A) :
  getattr o = Ok a ↔ o = Some a.
Proof. destruct o; simpl; split; congruence. Qed.

Lemma py_in_true {A : Type} `{EqDecision A} (v : A) (l : list A) :
  py_in v l = true ↔ v ∈ l.
Proof. unfold py_in. apply bool_decide_eq_true. Qed.

Lemma py_index_elem {A : Type} `{EqDecision A} (v : A) (l : list A) :
  v ∈ l → ∃ i, py_index v l = Ok i ∧ l !! i = Some v.
Proof.
  induction l as [|a l IH]; intros Hin.
  - by apply elem_of_nil in Hin.
  - simpl. destruct (decide (a = v)) as [->|Hne].
    + by exists 0.
    + apply elem_of_cons in Hin as [->|Hin]; [done|].
      destruct (IH Hin) as (i & -> & Hi). by exists (S i).
Qed.

(** After a successful membership test, [l[ids.index(v)]] is defined. *)
Lemma py_index_getitem {A B : Type} `{EqDecision B} (f : A → B) (v : B)
    (l : list A) :
  py_in v (f <$> l) = true →
  ∃ i a, py_index v (f <$> l) = Ok i ∧ py_getitem l i = Ok a ∧ f a = v.
Proof.
  intros Hin%py_in_true.
  destruct (py_index_elem _ _ Hin) as (i & Hi & Hl).
  apply list_lookup_fmap_Some in Hl as (a & Ha & Hla).
  exists i, a. unfold py_getitem. by rewrite Hla.
Qed.

(** ** The bundler *)

Lemma build_blocks_loop_break (pre post : list Config) (bad : Config)
    (M_robot : RobotMeasurement) (sensors : list CameraChainSensor) :
  breaks bad M_robot = true →
  build_blocks_loop (pre ++ bad :: post) M_robot sensors
  = build_blocks_loop pre M_robot sensors.
Proof.
  intros Hbad. revert sensors.
  induction pre as [|c pre IH]; intros sensors.
  - unfold breaks in Hbad.
    apply andb_true_iff in Hbad as [[Hcam Hch]%andb_true_iff Hnone].
    apply negb_true_iff in Hch, Hnone.
    simpl. by rewrite Hcam, Hch, Hnone.
  - simpl.
    destruct (py_in (cfg_camera_id c) _); [|apply IH].
    destruct (py_in (cfg_chain_id (cfg_chain c)) _).
    + destruct (py_index (cfg_camera_id c) _) as [i|]; simpl; [|done].
      destruct (py_getitem (M_cam M_robot) i); simpl; [|done].
      destruct (py_index (cfg_chain_id (cfg_chain c)) _) as [j|]; simpl; [|done].
      destruct (py_getitem (M_chain M_robot) j); simpl; [|done].
      apply IH.
    + destruct (bool_decide _); [|done].
      destruct (py_index (cfg_camera_id c) _) as [i|]; simpl; [|done].
      destruct (py_getitem (M_cam M_robot) i); simpl; [|done].
      apply IH.
Qed.

(** [build_blocks] never raises, and every sensor it returns was built
    from a configuration that satisfies [P], if those of [sensors] and
    all configurations that do not break do. *)
Lemma build_blocks_loop_Ok (P : Config → Prop) (valid_configs : list Config)
    (M_robot : RobotMeasurement) (sensors : list CameraChainSensor) :
  (∀ c, c ∈ valid_configs → breaks c M_robot = false → P c) →
  Forall (λ sn, P (_config_dict sn)) sensors →
  ∃ sensors', build_blocks_loop valid_configs M_robot sensors = Ok sensors'
              ∧ Forall (λ sn, P (_config_dict sn)) sensors'.
Proof.
  revert sensors.
  induction valid_configs as [|c cfgs IH]; intros sensors HP Hacc.
  - by exists sensors.
  - assert (HPc : ∀ c', c' ∈ cfgs → breaks c' M_robot = false → P c').
    { intros c' Hc'. apply HP. by apply elem_of_cons; right. }
    assert (Hc : breaks c M_robot = false → P c).
    { apply HP. by apply elem_of_cons; left. }
    unfold breaks in Hc. simpl.
    destruct (py_in (cfg_camera_id c) _) eqn:Hcam; [|by apply IH].
    destruct (py_index_getitem camera_id _ _ Hcam) as (i & m_cam & Hi & Hg & _).
    rewrite Hi. simpl. rewrite Hg. simpl.
    destruct (py_in (cfg_chain_id (cfg_chain c)) _) eqn:Hch.
    + destruct (py_index_getitem (λ x, Some (chain_id x)) _ _ Hch)
        as (j & m_chain & Hj & Hgj & _).
      rewrite Hj. simpl. rewrite Hgj. simpl. apply IH; [done|].
      apply Forall_app; split; [done|].
      apply Forall_singleton. simpl. by apply Hc.
    + destruct (bool_decide _) eqn:Hnone.
      * simpl. apply IH; [done|].
        apply Forall_app; split; [done|].
        apply Forall_singleton. simpl. by apply Hc.
      * by exists sensors.
Qed.

Lemma build_blocks_loop_no_break (valid_configs : list Config)
    (M_robot : RobotMeasurement) (sensors : list CameraChainSensor) :
  (∀ c, c ∈ valid_configs → breaks c M_robot = false) →
  ∃ sensors', build_blocks_loop valid_configs M_robot sensors = Ok sensors'
    ∧ _config_dict <$> sensors'
      = (_config_dict <$> sensors)
        ++ filter (λ c, cfg_camera_id c ∈ camera_id <$> M_cam M_robot)
             valid_configs.
Proof.
  revert sensors.
  induction valid_configs as [|c cfgs IH]; intros sensors Hnb.
  - exists sensors. by rewrite filter_nil, app_nil_r.
  - assert (Hc : breaks c M_robot = false).
    { apply Hnb. by apply elem_of_cons; left. }
    assert (Hcfgs : ∀ c', c' ∈ cfgs → breaks c' M_robot = false).
    { intros c' Hc'. apply Hnb. by apply elem_of_cons; right. }
    unfold breaks in Hc. simpl.
    destruct (py_in (cfg_camera_id c) _) eqn:Hcam.
    + rewrite filter_cons_True by by apply py_in_true.
      destruct (py_index_getitem camera_id _ _ Hcam) as (i & m_cam & Hi & Hg & _).
      rewrite Hi. simpl. rewrite Hg. simpl.
      destruct (py_in (cfg_chain_id (cfg_chain c)) _) eqn:Hch.
      * destruct (py_index_getitem (λ x, Some (chain_id x)) _ _ Hch)
          as (j & m_chain & Hj & Hgj & _).
        rewrite Hj. simpl. rewrite Hgj. simpl.
        destruct (IH (sensors ++ [CameraChainSensor_init c m_cam (Some m_chain)])
                    Hcfgs) as (l & Hl & Hcf).
        exists l. split; [done|].
        rewrite Hcf, fmap_app. simpl. by rewrite <- app_assoc.
      * destruct (bool_decide _) eqn:Hnone; [|done]. simpl.
        destruct (IH (sensors ++ [CameraChainSensor_init c m_cam None]) Hcfgs)
          as (l & Hl & Hcf).
        exists l. split; [done|].
        rewrite Hcf, fmap_app. simpl. by rewrite <- app_assoc.
    + rewrite filter_cons_False.
      * by apply IH.
      * intros Hin%py_in_true. by rewrite Hin in Hcam.
Qed.

(** C1 (as amended).  When a descriptor's camera identifier is present in
    the sample but its declared, non-null chain identifier is absent
    from the sample's chain readings, building the model list does not
    fail: [build_blocks] returns a list of models without raising, and
    no model of that list is built from such a descriptor. *)
Theorem build_blocks_unknown_chain_returns (valid_configs : list Config)
    (M_robot : RobotMeasurement) (c : Config) :
  c ∈ valid_configs →
  breaks c M_robot = true →
  ∃ sensors, build_blocks valid_configs M_robot = Ok sensors
             ∧ ∀ sn, sn ∈ sensors → _config_dict sn ≠ c.
Proof.
  intros _ Hc.
  destruct (build_blocks_loop_Ok (λ c', breaks c' M_robot = false)
              valid_configs M_robot []) as (sensors & Hs & Hall); [done..|].
  exists sensors. split; [done|].
  intros sn Hsn Heq.
  rewrite Forall_forall in Hall. specialize (Hall sn Hsn). simpl in Hall.
  rewrite Heq in Hall. by rewrite Hall in Hc.
Qed.

Lemma build_blocks_unknown_chain_returns_witness :
  ∃ sensors, build_blocks sample_configs sample_robot = Ok sensors
             ∧ ∀ sn, sn ∈ sensors → _config_dict sn ≠ config_unknown_chain.
Proof.
  apply (build_blocks_unknown_chain_returns sample_configs sample_robot
           config_unknown_chain).
  - apply list_elem_of_lookup. exists 1. reflexivity.
  - vm_compute. reflexivity.
Defined.

(** On the sample, the second descriptor names a chain that the sample
    does not have: [build_blocks] raises nothing and returns the one
    sensor built before it. *)
Lemma build_blocks_unknown_chain_counterexample :
  config_unknown_chain ∈ sample_configs
  ∧ breaks config_unknown_chain sample_robot = true
  ∧ build_blocks sample_configs sample_robot
    = Ok [CameraChainSensor_init config_camera_only (sample_cam "cam_a") None]
  ∧ ∀ e, build_blocks sample_configs sample_robot ≠ Raise e.
Proof.
  assert (H : build_blocks sample_configs sample_robot
    = Ok [CameraChainSensor_init config_camera_only (sample_cam "cam_a") None])
    by (vm_compute; reflexivity).
  split; [|split; [|split]].
  - apply list_elem_of_lookup. exists 1. reflexivity.
  - vm_compute. reflexivity.
  - exact H.
  - intros e. rewrite H. discriminate.
Qed.

(** C9.  When the loop of [build_blocks] reaches a descriptor whose
    camera identifier is in the sample and whose chain identifier is
    neither in the sample nor [None], it leaves the loop: the remaining
    descriptors are not looked at, nothing is raised, and the result is
    the list of sensors built from the descriptors before that point: one
    for each of them whose camera is in the sample, in order. *)
Theorem build_blocks_break_returns_built (pre post : list Config)
    (bad : Config) (M_robot : RobotMeasurement) :
  (∀ c, c ∈ pre → breaks c M_robot = false) →
  breaks bad M_robot = true →
  ∃ sensors,
    build_blocks (pre ++ bad :: post) M_robot = Ok sensors
    ∧ build_blocks pre M_robot = Ok sensors
    ∧ _config_dict <$> sensors
      = filter (λ c, cfg_camera_id c ∈ camera_id <$> M_cam M_robot) pre.
Proof.
  intros Hpre Hbad.
  destruct (build_blocks_loop_no_break pre M_robot [] Hpre)
    as (sensors & Hs & Hcf).
  exists sensors. unfold build_blocks.
  by rewrite build_blocks_loop_break.
Qed.

Lemma build_blocks_break_returns_built_witness :
  ∃ sensors,
    build_blocks ([config_camera_only] ++ config_unknown_chain :: [config_arm])
      sample_robot = Ok sensors
    ∧ build_blocks [config_camera_only] sample_robot = Ok sensors
    ∧ _config_dict <$> sensors
      = filter (λ c, cfg_camera_id c ∈ camera_id <$> M_cam sample_robot)
          [config_camera_only].
Proof.
  apply (build_blocks_break_returns_built [config_camera_only] [config_arm]
           config_unknown_chain sample_robot).
  - intros c Hc. apply list_elem_of_singleton in Hc as ->.
    vm_compute. reflexivity.
  - vm_compute. reflexivity.
Defined.

(** ** Floats *)

Lemma sub_diag_finite (x : float) : finite x = true → (x - x)%float = 0%float.
Proof.
  intros Hfin. apply Prim2SF_inj. rewrite sub_spec.
  unfold finite in Hfin.
  destruct (Prim2SF x) as [s|s| |s m e]; try discriminate.
  - by destruct s.
  - unfold SF64sub, SFsub. rewrite Z.min_id.
    unfold shl_align. rewrite Z.sub_diag. simpl.
    destruct s; simpl; rewrite ?Z.pos_sub_diag; reflexivity.
Qed.

(** ** Arrays *)

Lemma bidx_lt (n i : nat) : i < n → bidx n i = i.
Proof.
  unfold bidx. intros Hi.
  destruct (Nat.eqb_spec n 1) as [->|]; lia.
Qed.

Lemma broadcast_dim_same (n : nat) : broadcast_dim n n = Ok n.
Proof. unfold broadcast_dim. by rewrite Nat.eqb_refl. Qed.

Lemma nth_fmap_seq {A : Type} (f : nat → A) (n i : nat) (d : A) :
  i < n → nth i (f <$> seq 0 n) d = f i.
Proof.
  intros Hi. apply nth_lookup_Some.
  by rewrite list_lookup_fmap, lookup_seq_lt.
Qed.

Lemma shape0_tabulate (nr nc : nat) (f : nat → nat → float) :
  shape0 (tabulate nr nc f) = nr.
Proof. unfold shape0, tabulate. simpl. by rewrite length_fmap, length_seq. Qed.

Lemma item_tabulate (nr nc : nat) (f : nat → nat → float) (i j : nat) :
  i < nr → j < nc → item (tabulate nr nc f) i j = f i j.
Proof.
  intros Hi Hj. unfold item, tabulate. simpl.
  rewrite (nth_fmap_seq (λ i, f i <$> seq 0 nc)) by done.
  by apply nth_fmap_seq.
Qed.

Lemma tabulate_ext (nr nc : nat) (f g : nat → nat → float) :
  (∀ i j, i < nr → j < nc → f i j = g i j) →
  tabulate nr nc f = tabulate nr nc g.
Proof.
  intros Hfg. unfold tabulate. f_equal.
  apply list_fmap_ext. intros k i [-> Hi]%lookup_seq.
  apply list_fmap_ext. intros k' j [-> Hj]%lookup_seq.
  by apply Hfg.
Qed.

Lemma replicate_fmap_seq {A : Type} (n : nat) (x : A) :
  replicate n x = (λ _, x) <$> seq 0 n.
Proof.
  apply list_eq. intros i. rewrite list_lookup_fmap.
  destruct (decide (i < n)) as [Hi|Hi].
  - by rewrite lookup_replicate_2, lookup_seq_lt.
  - rewrite lookup_seq_ge by lia. simpl.
    apply lookup_replicate_None. lia.
Qed.

Lemma zeros_tabulate (nr nc : nat) :
  zeros nr nc = tabulate nr nc (λ _ _, 0%float).
Proof.
  unfold zeros, tabulate. f_equal.
  by rewrite <- !replicate_fmap_seq.
Qed.

Lemma set_item_tabulate (nr nc : nat) (f : nat → nat → float)
    (i j : nat) (v : float) :
  i < nr → j < nc →
  set_item (tabulate nr nc f) i j v
  = Ok (tabulate nr nc (λ a b, if (a =? i) && (b =? j) then v else f a b)).
Proof.
  intros Hi Hj. unfold set_item. rewrite shape0_tabulate.
  unfold shape1. simpl.
  rewrite (proj2 (Nat.ltb_lt i nr) Hi), (proj2 (Nat.ltb_lt j nc) Hj). simpl.
  f_equal. unfold tabulate. f_equal. apply list_eq. intros a.
  rewrite list_lookup_alter, !list_lookup_fmap.
  destruct (decide (i = a)) as [<-|Hne].
  - rewrite lookup_seq_lt by done. simpl. f_equal.
    apply list_eq. intros b.
    rewrite list_lookup_insert, !list_lookup_fmap, length_fmap, length_seq.
    destruct (decide (j = b ∧ j < nc)) as [[<- _]|Hn].
    + rewrite lookup_seq_lt by done. simpl. by rewrite !Nat.eqb_refl.
    + destruct (seq 0 nc !! b) as [b'|] eqn:Hb; [|done].
      apply lookup_seq in Hb as [-> Hb]. simpl. rewrite Nat.eqb_refl. simpl.
      destruct (Nat.eqb_spec b j) as [->|]; [|done]. by destruct Hn.
  - destruct (seq 0 nr !! a) as [a'|] eqn:Ha; [|done].
    apply lookup_seq in Ha as [-> Ha]. simpl. f_equal.
    apply list_fmap_ext. intros k b _.
    destruct (Nat.eqb_spec a i) as [->|]; done.
Qed.

Lemma set_row_tabulate (nr nc : nat) (f : nat → nat → float)
    (i : nat) (v : list float) :
  i < nr → length v = nc →
  set_row (tabulate nr nc f) i v
  = Ok (tabulate nr nc (λ a b, if a =? i then nth b v 0%float else f a b)).
Proof.
  intros Hi Hv. unfold set_row. rewrite shape0_tabulate.
  unfold shape1. simpl.
  rewrite (proj2 (Nat.ltb_lt i nr) Hi), Hv, Nat.eqb_refl. simpl.
  f_equal. unfold tabulate. f_equal. apply list_eq. intros a.
  rewrite list_lookup_insert, !list_lookup_fmap, length_fmap, length_seq.
  destruct (decide (i = a ∧ i < nr)) as [[<- _]|Hn].
  - rewrite lookup_seq_lt by done. simpl. f_equal.
    apply list_eq. intros b. rewrite list_lookup_fmap.
    destruct (decide (b < nc)) as [Hb|Hb].
    + rewrite lookup_seq_lt by done. simpl. rewrite Nat.eqb_refl.
      destruct (nth_lookup_or_length v b 0%float) as [->|]; [done|lia].
    + rewrite lookup_seq_ge by lia. simpl. apply lookup_ge_None. lia.
  - destruct (seq 0 nr !! a) as [a'|] eqn:Ha; [|done].
    apply lookup_seq in Ha as [-> Ha]. simpl. f_equal.
    apply list_fmap_ext. intros k b _.
    destruct (Nat.eqb_spec a i) as [->|]; [|done]. by destruct Hn.
Qed.

Lemma seq_fmap_add (j n : nat) : seq j n = Nat.add j <$> seq 0 n.
Proof. by rewrite fmap_add_seq, Nat.add_0_r. Qed.

Lemma slice2_tabulate (nr nc : nat) (f : nat → nat → float)
    (r0 r1 c0 c1 : nat) :
  slice2 (tabulate nr nc f) r0 r1 c0 c1
  = tabulate (Nat.min (r1 - r0) (nr - r0)) (Nat.min (c1 - c0) (nc - c0))
      (λ i j, f (r0 + i) (c0 + j)).
Proof.
  unfold slice2, tabulate. simpl. f_equal.
  rewrite <- fmap_drop, <- fmap_take, drop_seq, take_seq, <- list_fmap_compose.
  change (0 + r0) with r0.
  rewrite (seq_fmap_add r0 (Nat.min (r1 - r0) (nr - r0))), <- list_fmap_compose.
  apply list_fmap_ext. intros k i _. simpl.
  rewrite <- fmap_drop, <- fmap_take, drop_seq, take_seq.
  change (0 + c0) with c0.
  by rewrite (seq_fmap_add c0 (Nat.min (c1 - c0) (nc - c0))),
    <- list_fmap_compose.
Qed.

Lemma broadcast2_same_shape (op : float → float → float) (a b : ndarray) :
  shape0 a = shape0 b → shape1 a = shape1 b →
  broadcast2 op a b
  = Ok (tabulate (shape0 a) (shape1 a) (λ i j, op (item a i j) (item b i j))).
Proof.
  intros H0 H1. unfold broadcast2.
  rewrite <- H0, <- H1, !broadcast_dim_same. simpl. f_equal.
  apply tabulate_ext. intros i j Hi Hj. by rewrite !bidx_lt.
Qed.

Lemma broadcast1_same_length (op : float → float → float) (a b : list float) :
  length a = length b →
  broadcast1 op a b = Ok (zip_with op a b).
Proof.
  intros Hlen. unfold broadcast1. rewrite <- Hlen, broadcast_dim_same. simpl.
  f_equal. apply list_eq. intros i.
  rewrite list_lookup_fmap, lookup_zip_with.
  destruct (decide (i < length a)) as [Hi|Hi].
  - rewrite lookup_seq_lt by done. simpl. rewrite bidx_lt by done.
    destruct (nth_lookup_or_length a i 0%float) as [->|]; [|lia].
    destruct (nth_lookup_or_length b i 0%float) as [->|]; [|lia]. done.
  - rewrite lookup_seq_ge by lia. simpl.
    rewrite (proj2 (lookup_ge_None a i)) by lia. done.
Qed.

(** ** Loops *)

Lemma for_range_from_invariant {St : Type} (I : nat → St → Prop)
    (body : nat → St → outcome St) (n start : nat) (st : St) :
  I start st →
  (∀ i st, start ≤ i < start + n → I i st →
     ∃ st', body i st = Ok st' ∧ I (S i) st') →
  ∃ st', for_range_from start n body st = Ok st' ∧ I (start + n) st'.
Proof.
  revert start st. induction n as [|n IH]; intros start st Hst Hbody.
  - exists st. by rewrite Nat.add_0_r.
  - destruct (Hbody start st) as (st1 & Hb & H1); [lia|done|].
    simpl. rewrite Hb. simpl.
    destruct (IH (S start) st1 H1) as (st' & Hfor & H').
    { intros i st2 Hi. apply Hbody. lia. }
    exists st'. split; [done|]. by replace (start + S n) with (S start + n) by lia.
Qed.

Lemma for_range_from_raises {St : Type} (body : nat → St → outcome St)
    (n start k : nat) (st : St) :
  k < n →
  (∀ st, ∃ e, body (start + k) st = Raise e) →
  ∃ e, for_range_from start n body st = Raise e.
Proof.
  revert start k st. induction n as [|n IH]; intros start k st Hk Hfail; [lia|].
  simpl. destruct (body start st) as [st1|e] eqn:Hb; simpl; [|by exists e].
  destruct k as [|k].
  - destruct (Hfail st) as [e He]. rewrite Nat.add_0_r in He. congruence.
  - apply (IH (S start) k); [lia|].
    intros st2. replace (S start + k) with (start + S k) by lia. apply Hfail.
Qed.

(** ** The residual *)

Section Residual.

Context (fk : FullChainCalcBlock → option JointState → outcome ndarray)
        (project : RectifiedCamera → ndarray → ndarray → outcome ndarray)
        (matmul : ndarray → ndarray → outcome ndarray)
        (mat_inv : ndarray → outcome ndarray).

Local Abbreviation expected := (compute_expected fk project matmul mat_inv).
Local Abbreviation residual := (compute_residual fk project matmul mat_inv).

Lemma get_measurement_nonempty (self : CameraChainSensor) :
  image_points (_M_cam self) ≠ [] →
  shape0 (get_measurement self) = length (image_points (_M_cam self))
  ∧ shape1 (get_measurement self) = 2
  ∧ ∀ k pt, image_points (_M_cam self) !! k = Some pt →
      item (get_measurement self) k 0 = pt_x pt
      ∧ item (get_measurement self) k 1 = pt_y pt.
Proof.
  unfold get_measurement.
  generalize (image_points (_M_cam self)). intros [|p ps] Hne; [done|].
  unfold shape0, shape1, item. simpl. rewrite length_fmap.
  split; [done|]. split; [done|].
  intros k pt Hk.
  assert (Hrow : nth k ((λ pt0, [pt_x pt0; pt_y pt0]) <$> p :: ps) []
                 = [pt_x pt; pt_y pt]).
  { apply nth_lookup_Some. by rewrite list_lookup_fmap, Hk. }
  simpl in Hrow. by rewrite Hrow.
Qed.

(** The residual of a sensor with at least one image point, when the
    expected pixels form a matrix with one row per image point. *)
Lemma compute_residual_matching (self : CameraChainSensor)
    (target_pts h_mat : ndarray) :
  expected self target_pts = Ok h_mat →
  image_points (_M_cam self) ≠ [] →
  shape0 h_mat = length (image_points (_M_cam self)) →
  shape1 h_mat = 2 →
  residual self target_pts
  = Ok (concat (imap (λ k pt, [(item h_mat k 0 - pt_x pt)%float;
                               (item h_mat k 1 - pt_y pt)%float])
                  (image_points (_M_cam self)))).
Proof.
  intros Hh Hne Hrows Hcols.
  destruct (get_measurement_nonempty self Hne) as (Hz0 & Hz1 & Hz).
  unfold compute_residual. rewrite Hh.
  set (z_mat := get_measurement self) in *.
  cbn [mbind outcome_bind]. rewrite Hz1, Hcols, Nat.eqb_refl.
  cbn [py_assert Nat.eqb mbind outcome_bind].
  unfold broadcast2. rewrite Hrows, Hz0, Hcols, Hz1, !broadcast_dim_same.
  cbn [mbind outcome_bind mret outcome_ret].
  f_equal. unfold flatten, tabulate. cbn [rows]. f_equal.
  apply list_eq. intros k.
  rewrite list_lookup_fmap, list_lookup_imap.
  destruct (image_points (_M_cam self) !! k) as [pt|] eqn:Hk.
  - assert (Hlt : k < length (image_points (_M_cam self)))
      by (apply lookup_lt_is_Some; by eexists).
    rewrite lookup_seq_lt by done. simpl.
    rewrite bidx_lt by done. change (bidx 2 0) with 0. change (bidx 2 1) with 1.
    destruct (Hz k pt Hk) as [-> ->]. done.
  - apply lookup_ge_None in Hk. by rewrite lookup_seq_ge.
Qed.

Lemma concat_imap_pairs_length {A : Type} (f : nat → A → list float)
    (l : list A) :
  (∀ k a, length (f k a) = 2) → length (concat (imap f l)) = 2 * length l.
Proof.
  revert f. induction l as [|a l IH]; intros f Hf; [done|].
  rewrite imap_cons. simpl. rewrite length_app, Hf, IH; [lia|].
  intros k a'. apply Hf.
Qed.

Lemma concat_replicate_pairs {A : Type} (l : list A) (x : float) :
  concat ((λ _, [x; x]) <$> l) = replicate (2 * length l) x.
Proof.
  induction l as [|a l IH]; [done|].
  rewrite fmap_cons. cbn [concat]. rewrite IH.
  replace (2 * length (a :: l)) with (S (S (2 * length l))) by (simpl; lia).
  done.
Qed.

(** C6 (as amended).  For a sensor whose camera reading has N ≥ 1 image
    points, and a target for which the expected pixels form an N×2
    matrix, the residual is the vector of length 2N obtained by
    flattening expected − observed in the order u1, v1, …, uN, vN; and
    when expected equals observed exactly and every observed coordinate
    is finite, the residual is the all-zero vector of length 2N. *)
Theorem residual_is_flattened_difference (self : CameraChainSensor)
    (target_pts h_mat : ndarray) :
  expected self target_pts = Ok h_mat →
  image_points (_M_cam self) ≠ [] →
  shape0 h_mat = length (image_points (_M_cam self)) →
  shape1 h_mat = 2 →
  ∃ r, residual self target_pts = Ok r
    ∧ r = concat (imap (λ k pt, [(item h_mat k 0 - pt_x pt)%float;
                                 (item h_mat k 1 - pt_y pt)%float])
                    (image_points (_M_cam self)))
    ∧ length r = 2 * length (image_points (_M_cam self))
    ∧ (h_mat = get_measurement self →
       Forall (λ pt, finite_point pt = true) (image_points (_M_cam self)) →
       r = replicate (2 * length (image_points (_M_cam self))) 0%float).
Proof.
  intros Hh Hne Hrows Hcols.
  eexists. split; [by apply compute_residual_matching|].
  split; [done|]. split; [by apply concat_imap_pairs_length|].
  intros -> Hfin.
  destruct (get_measurement_nonempty self Hne) as (_ & _ & Hz).
  rewrite <- concat_replicate_pairs, <- imap_const. f_equal.
  apply imap_ext. intros k pt Hk.
  destruct (Hz k pt Hk) as [-> ->].
  rewrite Forall_forall in Hfin.
  assert (Hpt : finite_point pt = true)
    by (apply Hfin; by eapply list_elem_of_lookup_2).
  apply andb_true_iff in Hpt as [Hx Hy].
  by rewrite !sub_diag_finite.
Qed.

End Residual.

Lemma residual_is_flattened_difference_witness :
  ∃ r, compute_residual stub_fk stub_project stub_matmul stub_inv
         sensor_one_point target_one_point = Ok r
    ∧ r = concat (imap (λ k pt,
              [(item (get_measurement sensor_one_point) k 0 - pt_x pt)%float;
               (item (get_measurement sensor_one_point) k 1 - pt_y pt)%float])
            (image_points (_M_cam sensor_one_point)))
    ∧ length r = 2 * length (image_points (_M_cam sensor_one_point))
    ∧ (get_measurement sensor_one_point = get_measurement sensor_one_point →
       Forall (λ pt, finite_point pt = true)
         (image_points (_M_cam sensor_one_point)) →
       r = replicate (2 * length (image_points (_M_cam sensor_one_point)))
             0%float).
Proof.
  apply (residual_is_flattened_difference stub_fk stub_project stub_matmul
           stub_inv sensor_one_point target_one_point
           (get_measurement sensor_one_point)).
  - vm_compute. reflexivity.
  - vm_compute. discriminate.
  - vm_compute. reflexivity.
  - vm_compute. reflexivity.
Defined.

(** Counts agree and expected equals observed, yet the residual is not
    what the claim says: with no image point (and no target point) the
    shape assertion on the measurement fails, and at an infinite pixel
    coordinate the difference is a NaN. *)
Lemma residual_is_flattened_difference_counterexample :
  (image_points (_M_cam sensor_no_points) = []
   ∧ shape1 target_no_points = 0
   ∧ compute_residual stub_fk stub_project stub_matmul stub_inv
       sensor_no_points target_no_points = Raise AssertionError)
  ∧ (compute_expected stub_fk stub_project stub_matmul stub_inv
       sensor_infinite_point target_depth_zero
     = Ok (get_measurement sensor_infinite_point)
     ∧ compute_residual stub_fk stub_project stub_matmul stub_inv
         sensor_infinite_point target_depth_zero = Ok [nan; nan]
     ∧ compute_residual stub_fk stub_project stub_matmul stub_inv
         sensor_infinite_point target_depth_zero
       ≠ Ok (replicate 2 0%float)).
Proof.
  assert (H : compute_residual stub_fk stub_project stub_matmul stub_inv
                sensor_infinite_point target_depth_zero = Ok [nan; nan])
    by (vm_compute; reflexivity).
  split; [split; [|split]|split; [|split]].
  - reflexivity.
  - reflexivity.
  - vm_compute. reflexivity.
  - vm_compute. reflexivity.
  - exact H.
  - rewrite H. discriminate.
Qed.

(** C2.  The count check of [compute_residual] compares the measurement
    with itself, so a target of one point against a reading of two image
    points passes it, and the subtraction broadcasts the single expected
    row: the residual is returned, nothing is raised. *)
Theorem residual_count_mismatch_accepted :
  shape1 target_one_point = 1
  ∧ length (image_points (_M_cam sensor_two_points)) = 2
  ∧ compute_residual stub_fk stub_project stub_matmul stub_inv
      sensor_two_points target_one_point
    = Ok [(-0.5)%float; (-0.25)%float; 318.5%float; 237.75%float].
Proof.
  split; [reflexivity|]. split; [reflexivity|].
  vm_compute. reflexivity.
Qed.

(** ** The sparsity dictionary *)

Lemma sparsity_transforms_lookup (names : list string) (name : string) :
  sparsity_transforms names !! name
  = if decide (name ∈ names) then Some [1; 1; 1; 1; 1; 1]%Z else None.
Proof.
  unfold sparsity_transforms.
  assert (H : ∀ d : gmap string (list Z),
    foldl (λ d n, <[n := [1; 1; 1; 1; 1; 1]%Z]> d) d names !! name
    = if decide (name ∈ names) then Some [1; 1; 1; 1; 1; 1]%Z
      else d !! name).
  { induction names as [|n names IH]; intros d; simpl.
    - destruct (decide (name ∈ [])) as [Hin|]; [|done].
      by apply elem_of_nil in Hin.
    - rewrite IH.
      destruct (decide (name ∈ names)) as [Hin|Hnin].
      + rewrite decide_True; [done|]. by apply elem_of_cons; right.
      + rewrite lookup_insert.
        destruct (decide (n = name)) as [->|Hne].
        * rewrite decide_True; [done|]. by apply elem_of_cons; left.
        * rewrite decide_False; [done|].
          intros [->|Hin]%elem_of_cons; done. }
  rewrite H. destruct (decide (name ∈ names)); [done|]. apply lookup_empty.
Qed.

Lemma param_flags_lookup (names : list string) (p : string) :
  (list_to_map ((λ x, (x, 1%Z)) <$> names) : gmap string Z) !! p
  = if decide (p ∈ names) then Some 1%Z else None.
Proof.
  induction names as [|n names IH].
  - simpl. rewrite lookup_empty.
    destruct (decide (p ∈ [])) as [Hin|]; [|done].
    by apply elem_of_nil in Hin.
  - rewrite fmap_cons, list_to_map_cons, lookup_insert, IH.
    destruct (decide (n = p)) as [->|Hne].
    + rewrite decide_True; [done|]. by apply elem_of_cons; left.
    + destruct (decide (p ∈ names)) as [Hin|Hnin].
      * rewrite decide_True; [done|]. by apply elem_of_cons; right.
      * rewrite decide_False; [done|].
        intros [->|Hin]%elem_of_cons; done.
Qed.

(** [build_sparsity_dict] reads the parameters only through the link
    count of the chain and the parameter names of the camera. *)
Lemma build_sparsity_dict_shape (self : CameraChainSensor) :
  build_sparsity_dict self
  = (sp_c ← match _M_chain self with
            | Some m_chain =>
                n ← getattr (bound_link_count self);
                py_assert (n =? length (position (chain_state m_chain)));;
                mret {[ cfg_chain_id (cfg_chain (_config_dict self))
                        := chain_sparsity n ]}
            | None => mret ∅
            end;
     names ← getattr (get_param_names <$> _camera self);
     mret {| sp_transforms :=
               sparsity_transforms
                 (before_chain (cfg_chain (_config_dict self))
                  ++ after_chain (cfg_chain (_config_dict self)));
             sp_dh_chains := sp_c;
             sp_rectified_cams :=
               {[ sensor_id self := list_to_map ((λ x, (x, 1%Z)) <$> names) ]}
          |}).
Proof.
  unfold build_sparsity_dict, bound_link_count.
  destruct (_M_chain self) as [m_chain|];
    destruct (_camera self) as [cam|]; simpl;
    try destruct (calc_block (_chain self)) as [cb|]; simpl;
    try destruct (cb_chain cb) as [chain|]; simpl;
    try destruct (_M chain =? length (position (chain_state m_chain)));
    done.
Qed.

(** C8.  The sparsity report is a function of the shape of the
    configuration alone: two sensor states of the same shape, whatever
    the values of their parameters, have the same outcome of
    [build_sparsity_dict].  Every report that is returned maps every
    name of the before and after transform lists to six ones; when a
    chain reading is bound, it maps the chain identifier to one row of
    four ones per link and a gearing vector of one 1 per link, and
    otherwise has no chain entry; it maps the camera identifier to the
    flag 1 for each parameter name of the camera.  A report is returned
    by every sensor that holds a camera and, with a chain reading, a
    chain of as many links as the reading has joints. *)
Theorem sparsity_report_of_shape :
  (∀ self self',
     same_shape self self' →
     build_sparsity_dict self' = build_sparsity_dict self)
  ∧ (∀ self sp,
       build_sparsity_dict self = Ok sp →
       (∀ name,
          sp_transforms sp !! name
          = if decide (name ∈ before_chain (cfg_chain (_config_dict self))
                              ++ after_chain (cfg_chain (_config_dict self)))
            then Some [1; 1; 1; 1; 1; 1]%Z else None)
       ∧ match _M_chain self with
         | Some _ =>
             ∃ n, bound_link_count self = Some n
               ∧ sp_dh_chains sp
                 = {[ cfg_chain_id (cfg_chain (_config_dict self))
                      := {| sp_dh := replicate n [1; 1; 1; 1]%Z;
                            sp_gearing := replicate n 1%Z |} ]}
         | None => sp_dh_chains sp = ∅
         end
       ∧ ∃ cam flags,
           _camera self = Some cam
           ∧ sp_rectified_cams sp = {[ sensor_id self := flags ]}
           ∧ ∀ p, flags !! p
                  = if decide (p ∈ get_param_names cam)
                    then Some 1%Z else None)
  ∧ (∀ self,
       is_Some (_camera self) →
       (∀ m_chain, _M_chain self = Some m_chain →
          bound_link_count self
          = Some (length (position (chain_state m_chain)))) →
       ∃ sp, build_sparsity_dict self = Ok sp).
Proof.
  split; [|split].
  - intros self self' (Hcfg & Hid & Hch & Hnames & Hn).
    by rewrite !build_sparsity_dict_shape, Hcfg, Hid, Hch, Hnames, Hn.
  - intros self sp. rewrite build_sparsity_dict_shape.
    intros (sp_c & Hc & (names & Hnames%getattr_Ok & [= <-])%bind_Ok)%bind_Ok.
    simpl. split; [intros name; apply sparsity_transforms_lookup|]. split.
    + destruct (_M_chain self) as [m_chain|]; [|by injection Hc as <-].
      apply bind_Ok in Hc as (n & Hn%getattr_Ok & Hc).
      destruct (n =? _); [|done]. injection Hc as <-. by exists n.
    + destruct (_camera self) as [cam|]; [|done]. injection Hnames as <-.
      exists cam. eexists. split; [done|]. split; [done|].
      intros p. apply param_flags_lookup.
  - intros self [cam Hcam] Hlinks. rewrite build_sparsity_dict_shape, Hcam.
    destruct (_M_chain self) as [m_chain|]; [|by eexists].
    rewrite (Hlinks m_chain eq_refl). simpl. rewrite Nat.eqb_refl.
    by eexists.
Qed.

(** The report of the sample sensor with a chain of two links. *)
Lemma sparsity_report_of_shape_witness :
  ∃ sp, build_sparsity_dict sensor_two_points = Ok sp
    ∧ (∀ name,
         sp_transforms sp !! name
         = if decide (name ∈ ["base_T"; "mount_T"; "optical_T"])
           then Some [1; 1; 1; 1; 1; 1]%Z else None)
    ∧ sp_dh_chains sp
      = {[ Some "arm" := {| sp_dh := replicate 2 [1; 1; 1; 1]%Z;
                            sp_gearing := replicate 2 1%Z |} ]}
    ∧ ∃ flags,
        sp_rectified_cams sp = {[ "cam_a" := flags ]}
        ∧ ∀ p, flags !! p
               = if decide (p ∈ get_param_names sample_camera)
                 then Some 1%Z else None.
Proof.
  destruct sparsity_report_of_shape as (_ & Hreport & Hreturns).
  destruct (Hreturns sensor_two_points) as [sp Hsp].
  - exists sample_camera. vm_compute. reflexivity.
  - intros m_chain Hm. vm_compute in Hm. injection Hm as <-.
    vm_compute. reflexivity.
  - exists sp. split; [exact Hsp|].
    destruct (Hreport sensor_two_points sp Hsp)
      as (Ht & (n & Hn & Hc) & (cam & flags & Hcam & Hr & Hflags)).
    vm_compute in Hn. injection Hn as <-.
    vm_compute in Hcam. injection Hcam as <-.
    split; [exact Ht|]. split; [exact Hc|].
    exists flags. split; [exact Hr|exact Hflags].
Defined.

(** C10.  For a sensor with a chain reading, building the sparsity
    report asserts that the link count of the chain equals the number of
    joint positions of the chain reading: when they differ the assertion
    fails; when they agree the assertion does not fail, a report is
    returned when a camera is held, and every report returned has one
    geometry row and one gearing entry per link.  With no chain held no
    report is returned at all. *)
Theorem sparsity_link_count_assertion (self : CameraChainSensor)
    (m_chain : ChainMeasurement) :
  _M_chain self = Some m_chain →
  let joints := length (position (chain_state m_chain)) in
  (∀ num_links,
     bound_link_count self = Some num_links → num_links ≠ joints →
     build_sparsity_dict self = Raise AssertionError)
  ∧ (bound_link_count self = None →
     build_sparsity_dict self = Raise AttributeError)
  ∧ (bound_link_count self = Some joints →
     build_sparsity_dict self ≠ Raise AssertionError
     ∧ (is_Some (_camera self) → ∃ sp, build_sparsity_dict self = Ok sp))
  ∧ (∀ sp,
       build_sparsity_dict self = Ok sp →
       bound_link_count self = Some joints
       ∧ ∃ entry,
           sp_dh_chains sp !! cfg_chain_id (cfg_chain (_config_dict self))
           = Some entry
           ∧ length (sp_dh entry) = joints
           ∧ length (sp_gearing entry) = joints
           ∧ Forall (λ row, row = [1; 1; 1; 1]%Z) (sp_dh entry)
           ∧ Forall (λ g, g = 1%Z) (sp_gearing entry)).
Proof.
  intros Hm joints. rewrite build_sparsity_dict_shape, Hm.
  split; [|split; [|split]].
  - intros n -> Hne%Nat.eqb_neq. simpl. fold joints. by rewrite Hne.
  - by intros ->.
  - intros ->. simpl. rewrite Nat.eqb_refl. simpl.
    destruct (_camera self) as [cam|]; simpl.
    + split; [done|]. by eexists.
    + split; [done|]. by intros [? ?].
  - intros sp (sp_c & Hc & (names & _ & [= <-])%bind_Ok)%bind_Ok.
    apply bind_Ok in Hc as (n & Hn%getattr_Ok & Hc). fold joints in Hc.
    destruct (Nat.eqb_spec n joints) as [->|]; [|done].
    injection Hc as <-. split; [done|]. simpl.
    eexists. split; [apply lookup_singleton_eq|].
    simpl. rewrite !length_replicate. split; [done|]. split; [done|].
    split; by apply Forall_replicate.
Qed.

Lemma sparsity_link_count_assertion_witness :
  (∀ num_links,
     bound_link_count sensor_two_points = Some num_links → num_links ≠ 2 →
     build_sparsity_dict sensor_two_points = Raise AssertionError)
  ∧ (bound_link_count sensor_two_points = None →
     build_sparsity_dict sensor_two_points = Raise AttributeError)
  ∧ (bound_link_count sensor_two_points = Some 2 →
     build_sparsity_dict sensor_two_points ≠ Raise AssertionError
     ∧ (is_Some (_camera sensor_two_points) →
        ∃ sp, build_sparsity_dict sensor_two_points = Ok sp))
  ∧ (∀ sp,
       build_sparsity_dict sensor_two_points = Ok sp →
       bound_link_count sensor_two_points = Some 2
       ∧ ∃ entry,
           sp_dh_chains sp
             !! cfg_chain_id (cfg_chain (_config_dict sensor_two_points))
           = Some entry
           ∧ length (sp_dh entry) = 2
           ∧ length (sp_gearing entry) = 2
           ∧ Forall (λ row, row = [1; 1; 1; 1]%Z) (sp_dh entry)
           ∧ Forall (λ g, g = 1%Z) (sp_gearing entry)).
Proof.
  apply (sparsity_link_count_assertion sensor_two_points sample_arm).
  vm_compute. reflexivity.
Defined.

(** A chain of three links against a reading of two joints: the
    assertion fails. *)
Example link_count_mismatch_raises :
  let self :=
    fst (update_config stub_update_config
           (fresh_sensor (Some "arm") [] (Some sample_arm))
           params_three_links) in
  bound_link_count self = Some 3
  ∧ build_sparsity_dict self = Raise AssertionError.
Proof. split; vm_compute; reflexivity. Qed.

(** ** Binding *)

Lemma no_attribute_error_bind {A B : Type} (m : outcome A)
    (f : A → outcome B) :
  no_attribute_error m →
  (∀ a, m = Ok a → no_attribute_error (f a)) →
  no_attribute_error (m ≫= f).
Proof.
  unfold no_attribute_error. intros Hm Hf.
  destruct m as [a|e]; simpl; [by apply Hf|].
  intros [= ->]. by apply Hm.
Qed.

Lemma no_attribute_error_for_range {St : Type} (body : nat → St → outcome St)
    (start n : nat) (st : St) :
  (∀ i st, no_attribute_error (body i st)) →
  no_attribute_error (for_range_from start n body st).
Proof.
  intros Hbody. revert start st.
  induction n as [|n IH]; intros start st; simpl; [done|].
  apply no_attribute_error_bind; [apply Hbody|]. intros st' _. apply IH.
Qed.

Lemma no_attribute_error_assert (b : bool) : no_attribute_error (py_assert b).
Proof. by destruct b. Qed.

Lemma no_attribute_error_broadcast_dim (a b : nat) :
  no_attribute_error (broadcast_dim a b).
Proof.
  unfold broadcast_dim.
  destruct (a =? b); [done|]. destruct (a =? 1); [done|]. by destruct (b =? 1).
Qed.

Lemma no_attribute_error_broadcast2 (op : float → float → float)
    (a b : ndarray) :
  no_attribute_error (broadcast2 op a b).
Proof.
  unfold broadcast2.
  apply no_attribute_error_bind; [apply no_attribute_error_broadcast_dim|].
  intros nr _.
  apply no_attribute_error_bind; [apply no_attribute_error_broadcast_dim|].
  done.
Qed.

Lemma no_attribute_error_broadcast1 (op : float → float → float)
    (a b : list float) :
  no_attribute_error (broadcast1 op a b).
Proof.
  unfold broadcast1.
  apply no_attribute_error_bind; [apply no_attribute_error_broadcast_dim|].
  done.
Qed.

Lemma no_attribute_error_set_row (m : ndarray) (i : nat) (v : list float) :
  no_attribute_error (set_row m i v).
Proof.
  unfold set_row. destruct (negb _); [done|].
  destruct (_ =? _); [done|]. by destruct (_ =? _).
Qed.

Lemma no_attribute_error_set_item (m : ndarray) (i j : nat) (v : float) :
  no_attribute_error (set_item m i j v).
Proof. unfold set_item. by destruct (_ && _). Qed.

Lemma no_attribute_error_set_block (m : ndarray) (r0 r1 c0 c1 : nat)
    (v : ndarray) :
  no_attribute_error (set_block m r0 r1 c0 c1 v).
Proof. unfold set_block. by destruct (_ && _). Qed.

Lemma no_attribute_error_getitem {A : Type} (l : list A) (i : nat) :
  no_attribute_error (py_getitem l i).
Proof. unfold py_getitem. by destruct (l !! i). Qed.

Lemma no_attribute_error_Ok {A : Type} (a : A) : no_attribute_error (Ok a).
Proof. done. Qed.

Lemma no_attribute_error_ret {A : Type} (a : A) :
  no_attribute_error (mret a : outcome A).
Proof. done. Qed.

Create HintDb no_attr.

#[local] Hint Resolve no_attribute_error_Ok no_attribute_error_ret
  no_attribute_error_broadcast_dim
  no_attribute_error_assert no_attribute_error_broadcast2
  no_attribute_error_broadcast1 no_attribute_error_set_row
  no_attribute_error_set_item no_attribute_error_set_block
  no_attribute_error_getitem : no_attr.

Ltac no_attr_step :=
  first [ solve [auto with no_attr]
        | apply no_attribute_error_bind; [|intros ? _]
        | apply no_attribute_error_for_range; intros ? ? ].

Section Binding.

Context (fk : FullChainCalcBlock → option JointState → outcome ndarray)
        (project : RectifiedCamera → ndarray → ndarray → outcome ndarray)
        (full_chain_update_config :
           ChainConfig → RobotParams → outcome FullChainCalcBlock)
        (matmul : ndarray → ndarray → outcome ndarray)
        (mat_inv : ndarray → outcome ndarray)
        (sqrtm : ndarray → outcome cndarray)
        (norm : cndarray → outcome float).

Local Abbreviation rebind := (update_config full_chain_update_config).
Local Abbreviation rebind_all := (update_config_all full_chain_update_config).
Local Abbreviation bindable := (bindable full_chain_update_config).
Local Abbreviation unbound := (never_bound full_chain_update_config).
Local Abbreviation expected_at := (_compute_expected fk project matmul mat_inv).
Local Abbreviation residual := (compute_residual fk project matmul mat_inv).
Local Abbreviation covariance := (compute_cov fk project matmul mat_inv).
Local Abbreviation gamma_sqrt :=
  (compute_marginal_gamma_sqrt fk project matmul mat_inv sqrtm norm).
Local Abbreviation residual_scaled :=
  (compute_residual_scaled fk project matmul mat_inv sqrtm norm).

(** *** Unbound *)

Lemma never_bound_calc_block (self : CameraChainSensor) :
  unbound self → calc_block (_chain self) = None.
Proof.
  induction 1 as [cfg m_cam m_chain|self self' robot_params e _ IH Hup];
    [done|].
  unfold update_config in Hup.
  destruct (rectified_cams robot_params !! _) as [cam|].
  - destruct (full_chain_update_config _ _) as [cb|e']; [done|].
    by injection Hup as <- _.
  - by injection Hup as <- _.
Qed.

Lemma unbound_expected (self : CameraChainSensor)
    (chain_state : option JointState) (target_pts : ndarray) :
  unbound self →
  expected_at self chain_state target_pts = Raise AttributeError.
Proof.
  intros Hcb%never_bound_calc_block. unfold _compute_expected.
  by rewrite Hcb.
Qed.

Lemma unbound_residual (self : CameraChainSensor) (target_pts : ndarray) :
  unbound self → residual self target_pts = Raise AttributeError.
Proof.
  intros Hu. unfold compute_residual, compute_expected.
  destruct (_M_chain self); by rewrite unbound_expected.
Qed.

Lemma unbound_residual_scaled (self : CameraChainSensor)
    (target_pts : ndarray) :
  unbound self → residual_scaled self target_pts = Raise AttributeError.
Proof.
  intros Hu. unfold compute_residual_scaled. by rewrite unbound_residual.
Qed.

Lemma unbound_covariance (self : CameraChainSensor) (target_pts : ndarray) :
  unbound self →
  is_Some (_M_chain self) ∨ _camera self = None →
  covariance self target_pts = Raise AttributeError.
Proof.
  intros Hu Hcase. unfold compute_cov.
  destruct (_M_chain self) as [m_chain|].
  - unfold compute_chain_cov, compute_Jt. by rewrite unbound_expected.
  - destruct Hcase as [[? [=]]|Hcam].
    unfold compute_cam_cov. by rewrite Hcam.
Qed.

(** *** Rebinding *)

Lemma update_config_returns (self self' : CameraChainSensor)
    (robot_params : RobotParams) :
  rebind self robot_params = (self', Ok tt) ↔
  ∃ cam cb,
    rectified_cams robot_params !! cfg_camera_id (_config_dict self) = Some cam
    ∧ full_chain_update_config (fc_config_dict (_chain self)) robot_params
      = Ok cb
    ∧ self' = {| sensor_type := sensor_type self;
                 sensor_id := sensor_id self;
                 _config_dict := _config_dict self;
                 _M_cam := _M_cam self;
                 _M_chain := _M_chain self;
                 _chain := {| fc_config_dict := fc_config_dict (_chain self);
                              calc_block := Some cb |};
                 terms_per_sample := terms_per_sample self;
                 _camera := Some cam |}.
Proof.
  unfold update_config.
  destruct (rectified_cams robot_params !! _) as [cam|].
  - destruct (full_chain_update_config _ _) as [cb|e].
    + split.
      * intros [= <-]. by exists cam, cb.
      * intros (cam' & cb' & [= <-] & [= <-] & ->). done.
    + split; [done|]. intros (cam' & cb' & _ & [=] & _).
  - split; [done|]. intros (cam' & cb' & [=] & _).
Qed.

Lemma update_config_keeps_config (self : CameraChainSensor)
    (robot_params : RobotParams) :
  _config_dict (rebind self robot_params).1 = _config_dict self
  ∧ fc_config_dict (_chain (rebind self robot_params).1)
    = fc_config_dict (_chain self)
  ∧ _M_cam (rebind self robot_params).1 = _M_cam self
  ∧ _M_chain (rebind self robot_params).1 = _M_chain self.
Proof.
  unfold update_config.
  destruct (rectified_cams robot_params !! _) as [cam|]; [|done].
  by destruct (full_chain_update_config _ _).
Qed.

Lemma update_config_bindable (self : CameraChainSensor)
    (robot_params : RobotParams) :
  bindable self robot_params →
  (rebind self robot_params).2 = Ok tt ∧ is_bound (rebind self robot_params).1.
Proof.
  intros [[cam Hcam] [cb Hcb]]. unfold update_config, is_bound.
  rewrite Hcam, Hcb. simpl. by split; [|split; eexists].
Qed.

Lemma update_config_all_bound (cycles : list RobotParams)
    (self : CameraChainSensor) :
  cycles ≠ [] →
  Forall (bindable self) cycles →
  is_bound (rebind_all self cycles).
Proof.
  induction cycles as [|robot_params cycles IH] using rev_ind; [done|].
  intros _ [Hcycles Hlast]%Forall_app. rewrite Forall_singleton in Hlast.
  unfold update_config_all. rewrite foldl_app. simpl.
  apply update_config_bindable.
  assert (Hkeep : ∀ l,
    _config_dict (rebind_all self l) = _config_dict self
    ∧ fc_config_dict (_chain (rebind_all self l))
      = fc_config_dict (_chain self)).
  { intros l. induction l as [|rp l IHl] using rev_ind; [done|].
    unfold update_config_all. rewrite foldl_app. simpl.
    destruct (update_config_keeps_config (rebind_all self l) rp)
      as (Hc & Hf & _).
    unfold update_config_all in Hc, Hf, IHl. rewrite Hc, Hf. apply IHl. }
  destruct (Hkeep cycles) as [Hc Hf].
  unfold update_config_all in Hc, Hf.
  destruct Hlast as [Hl1 Hl2]. split; [by rewrite Hc|by rewrite Hf].
Qed.

(** *** Bound *)

Section Bound.

Hypothesis fk_no_attr : ∀ cb st, no_attribute_error (fk cb st).
Hypothesis project_no_attr : ∀ cam P pts, no_attribute_error (project cam P pts).
Hypothesis matmul_no_attr : ∀ a b, no_attribute_error (matmul a b).
Hypothesis mat_inv_no_attr : ∀ m, no_attribute_error (mat_inv m).
Hypothesis sqrtm_no_attr : ∀ m, no_attribute_error (sqrtm m).
Hypothesis norm_no_attr : ∀ c, no_attribute_error (norm c).

Lemma bound_expected (self : CameraChainSensor)
    (chain_state : option JointState) (target_pts : ndarray) :
  is_bound self →
  no_attribute_error (expected_at self chain_state target_pts).
Proof.
  intros [[cam Hcam] [cb Hcb]]. unfold _compute_expected.
  rewrite Hcam, Hcb. simpl.
  repeat (first [ apply fk_no_attr | apply project_no_attr
                | apply matmul_no_attr | apply mat_inv_no_attr
                | no_attr_step ]).
Qed.

Lemma bound_residual (self : CameraChainSensor) (target_pts : ndarray) :
  is_bound self → no_attribute_error (residual self target_pts).
Proof.
  intros Hb. unfold compute_residual, compute_expected.
  apply no_attribute_error_bind.
  { destruct (_M_chain self); by apply bound_expected. }
  intros h_mat _. repeat no_attr_step.
Qed.

Lemma bound_covariance (self : CameraChainSensor) (target_pts : ndarray) :
  is_bound self → chain_resolved self →
  no_attribute_error (covariance self target_pts).
Proof.
  intros Hb Hres.
  assert (Hcam : no_attribute_error (compute_cam_cov self)).
  { destruct Hb as [[cam Hcam] _]. unfold compute_cam_cov.
    rewrite Hcam. simpl. unfold for_range. repeat no_attr_step. }
  unfold compute_cov. destruct (_M_chain self) as [m_chain|] eqn:Hm.
  - apply no_attribute_error_bind.
    2:{ intros chain_cov _. apply no_attribute_error_bind; [done|].
        intros cam_cov _. auto with no_attr. }
    unfold compute_chain_cov. apply no_attribute_error_bind.
    { unfold compute_Jt. apply no_attribute_error_bind;
        [by apply bound_expected|].
      intros e0 _. unfold for_range.
      apply no_attribute_error_for_range. intros i Jt.
      unfold jacobian_step.
      apply no_attribute_error_bind; [by apply bound_expected|].
      intros eT _. repeat no_attr_step. }
    intros Jt _.
    destruct Hres as [n Hn]; [by eexists|].
    unfold bound_link_count in Hn.
    destruct (calc_block (_chain self)) as [cb|]; [|done].
    cbn [getattr mbind outcome_bind option_bind] in Hn |- *.
    destruct (cb_chain cb) as [chain|]; [|done].
    cbn [getattr mbind outcome_bind].
    apply no_attribute_error_bind; [apply matmul_no_attr|].
    intros a _. apply matmul_no_attr.
  - apply no_attribute_error_bind; [done|]. done.
Qed.

Lemma bound_gamma_sqrt (self : CameraChainSensor) (target_pts : ndarray) :
  is_bound self → chain_resolved self →
  no_attribute_error (gamma_sqrt self target_pts).
Proof.
  intros Hb Hres. unfold compute_marginal_gamma_sqrt.
  apply no_attribute_error_bind; [by apply bound_covariance|].
  intros cov _. unfold for_range.
  apply no_attribute_error_for_range. intros k gamma.
  unfold gamma_step, csub_real.
  repeat (first [ apply mat_inv_no_attr | apply sqrtm_no_attr
                | apply norm_no_attr | no_attr_step ]).
Qed.

Lemma bound_residual_scaled (self : CameraChainSensor) (target_pts : ndarray) :
  is_bound self → chain_resolved self →
  no_attribute_error (residual_scaled self target_pts).
Proof.
  intros Hb Hres. unfold compute_residual_scaled.
  apply no_attribute_error_bind; [by apply bound_residual|].
  intros r _.
  apply no_attribute_error_bind; [by apply bound_gamma_sqrt|].
  intros g _.
  apply no_attribute_error_bind; [apply matmul_no_attr|].
  intros rs _. auto with no_attr.
Qed.

End Bound.

(** A call that returns resolves the chain of a sensor whose
    configuration names one. *)
Lemma update_config_resolves_chain (self self' : CameraChainSensor)
    (robot_params : RobotParams) :
  rebind self robot_params = (self', Ok tt) →
  chain_configured self →
  resolves_chain full_chain_update_config →
  chain_resolved self' ∧ chain_configured self'.
Proof.
  intros (cam & cb & _ & Hcb & ->)%update_config_returns Hcfg Hres.
  unfold chain_resolved, chain_configured, bound_link_count in *. simpl.
  split; [|done]. intros Hchain.
  destruct (Hres _ _ _ Hcb (Hcfg Hchain)) as [chain ->]. by eexists.
Qed.

Lemma unbound_not_bound (self : CameraChainSensor) :
  unbound self → ¬ is_bound self.
Proof.
  intros Hcb%never_bound_calc_block [_ [cb Hcb']]. congruence.
Qed.

(** On a Bound sensor the attribute reads of [_compute_expected]
    succeed: what is left is the code outside the module. *)
Lemma bound_expected_external (self : CameraChainSensor)
    (cam : RectifiedCamera) (cb : FullChainCalcBlock)
    (chain_state : option JointState) (target_pts : ndarray) :
  _camera self = Some cam →
  calc_block (_chain self) = Some cb →
  expected_at self chain_state target_pts
  = (camera_pose_root ← fk cb chain_state;
     pose_inv ← mat_inv camera_pose_root;
     cam_frame_pts ← matmul pose_inv target_pts;
     pixel_pts ← project cam (cam_info_P (_M_cam self)) cam_frame_pts;
     mret (transpose pixel_pts)).
Proof.
  intros Hcam Hcb. unfold _compute_expected. by rewrite Hcam, Hcb.
Qed.

End Binding.


(** ** The covariance *)

Lemma shape0_zeros (nr nc : nat) : shape0 (zeros nr nc) = nr.
Proof. unfold shape0, zeros. simpl. apply length_replicate. Qed.

Lemma compute_cam_cov_closed (self : CameraChainSensor)
    (cam : RectifiedCamera) :
  _camera self = Some cam →
  compute_cam_cov self
  = Ok (cam_noise_cov (length (image_points (_M_cam self)))
          (cov_dict_u cam * cov_dict_u cam)%float
          (cov_dict_v cam * cov_dict_v cam)%float).
Proof.
  intros Hcam. unfold compute_cam_cov, get_residual_length, for_range.
  rewrite Hcam. cbn [getattr mbind outcome_bind].
  set (n := length (image_points (_M_cam self))).
  set (var_u := (cov_dict_u cam * cov_dict_u cam)%float).
  set (var_v := (cov_dict_v cam * cov_dict_v cam)%float).
  rewrite shape0_zeros, Nat.div_mul by done.
  destruct (for_range_from_invariant
    (λ k m, m = tabulate (n * 2) (n * 2) (λ i j,
       if (i =? j) && (i <? 2 * k)
       then (if Nat.even i then var_u else var_v) else 0%float))
    (λ k cam_cov,
       cam_cov ← set_item cam_cov (2 * k) (2 * k) var_u;
       set_item cam_cov (2 * k + 1) (2 * k + 1) var_v)
    n 0 (zeros (n * 2) (n * 2))) as (m & Hm & ->).
  - rewrite zeros_tabulate. apply tabulate_ext. intros i j _ _.
    by rewrite andb_false_r.
  - intros k m Hk ->.
    rewrite set_item_tabulate by lia. cbn [mbind outcome_bind].
    rewrite set_item_tabulate by lia.
    eexists. split; [done|].
    apply tabulate_ext. intros i j Hi Hj.
    destruct (Nat.eqb_spec i j) as [<-|Hij]; cbn [andb].
    + destruct (Nat.eqb_spec i (2 * k + 1)) as [->|Hi1]; cbn [andb].
      * rewrite (proj2 (Nat.ltb_lt _ _)) by lia. by rewrite Nat.even_odd.
      * destruct (Nat.eqb_spec i (2 * k)) as [->|Hi0]; cbn [andb].
        -- rewrite (proj2 (Nat.ltb_lt _ _)) by lia. by rewrite Nat.even_even.
        -- destruct (Nat.ltb_spec i (2 * k)), (Nat.ltb_spec i (2 * S k));
             try done; lia.
    + destruct (Nat.eqb_spec i (2 * k + 1)) as [->|Hi1]; cbn [andb].
      * destruct (Nat.eqb_spec j (2 * k + 1)); [lia|].
        destruct (Nat.eqb_spec (2 * k + 1) (2 * k)); [lia|]. done.
      * destruct (Nat.eqb_spec i (2 * k)) as [->|Hi0]; cbn [andb]; [|done].
        by destruct (Nat.eqb_spec j (2 * k)); [lia|].
  - rewrite Hm. f_equal. unfold cam_noise_cov.
    rewrite (Nat.mul_comm n 2). apply tabulate_ext. intros i j Hi Hj.
    by rewrite (proj2 (Nat.ltb_lt i (2 * (0 + n)))), andb_true_r by lia.
Qed.

Lemma fmap_nth_seq (l : list float) :
  (λ b, nth b l 0%float) <$> seq 0 (length l) = l.
Proof.
  apply list_eq. intros b. rewrite list_lookup_fmap.
  destruct (decide (b < length l)) as [Hb|Hb].
  - rewrite lookup_seq_lt by done. simpl.
    by destruct (nth_lookup_or_length l b 0%float) as [->|]; [|lia].
  - rewrite lookup_seq_ge by lia. simpl. symmetry. apply lookup_ge_None. lia.
Qed.

Lemma rows_tabulate_lookup (nr nc : nat) (f : nat → nat → float) (i : nat) :
  i < nr → rows (tabulate nr nc f) !! i = Some (f i <$> seq 0 nc).
Proof.
  intros Hi. unfold tabulate. simpl.
  by rewrite list_lookup_fmap, lookup_seq_lt.
Qed.

Lemma perturbed_position (m_chain : ChainMeasurement) (i j : nat) :
  position (perturbed m_chain i) !! j
  = if decide (i = j)
    then (λ p, (p + epsilon)%float) <$> position (chain_state m_chain) !! j
    else position (chain_state m_chain) !! j.
Proof.
  unfold perturbed. simpl. rewrite list_lookup_alter.
  by destruct (decide (i = j)) as [->|].
Qed.

Section Covariance.

Context (fk : FullChainCalcBlock → option JointState → outcome ndarray)
        (project : RectifiedCamera → ndarray → ndarray → outcome ndarray)
        (matmul : ndarray → ndarray → outcome ndarray)
        (mat_inv : ndarray → outcome ndarray).

Local Abbreviation expected_at := (_compute_expected fk project matmul mat_inv).
Local Abbreviation jacobian := (compute_Jt fk project matmul mat_inv).
Local Abbreviation covariance := (compute_cov fk project matmul mat_inv).

(** C5.  For a sensor with a chain reading of M joints, the sensitivity
    matrix has one row per joint: row i is (perturbed − base) / ε of the
    flattened expected pixels, where the perturbed joint state has ε
    added to joint i and every other joint as measured, and the base
    value is the one expected computed from the measured joint state. *)
Theorem jacobian_is_forward_difference (self : CameraChainSensor)
    (m_chain : ChainMeasurement) (target_pts e0 : ndarray)
    (e : nat → ndarray) :
  expected_at self (Some {| position := position (chain_state m_chain) |})
    target_pts = Ok e0 →
  length (flatten e0) = get_residual_length self →
  (∀ i, i < length (position (chain_state m_chain)) →
     expected_at self (Some (perturbed m_chain i)) target_pts = Ok (e i)
     ∧ length (flatten (e i)) = get_residual_length self) →
  ∃ Jt, jacobian self m_chain target_pts = Ok Jt
    ∧ shape0 Jt = length (position (chain_state m_chain))
    ∧ shape1 Jt = get_residual_length self
    ∧ (∀ i, i < length (position (chain_state m_chain)) →
         rows Jt !! i
         = Some ((λ d, (d / epsilon)%float)
                   <$> zip_with PrimFloat.sub (flatten (e i)) (flatten e0)))
    ∧ (∀ i j,
         position (perturbed m_chain i) !! j
         = if decide (i = j)
           then (λ p, (p + epsilon)%float)
                  <$> position (chain_state m_chain) !! j
           else position (chain_state m_chain) !! j).
Proof.
  intros He0 Hlen0 He.
  set (M := length (position (chain_state m_chain))) in *.
  set (n2 := get_residual_length self) in *.
  set (row := λ i, (λ d, (d / epsilon)%float)
                     <$> zip_with PrimFloat.sub (flatten (e i)) (flatten e0)).
  assert (Hrow : ∀ i, i < M → length (row i) = n2).
  { intros i Hi. unfold row. destruct (He i Hi) as [_ Hl].
    rewrite length_fmap, length_zip_with. lia. }
  unfold compute_Jt. rewrite He0. cbn [mbind outcome_bind].
  fold M. fold n2. unfold for_range.
  destruct (for_range_from_invariant
    (λ k m, m = tabulate M n2 (λ a b,
       if a <? k then nth b (row a) 0%float else 0%float))
    (jacobian_step fk project matmul mat_inv self m_chain target_pts
       (flatten e0))
    M 0 (zeros M n2)) as (Jt & HJt & ->).
  - rewrite zeros_tabulate. by apply tabulate_ext.
  - intros i m Hi ->. unfold jacobian_step.
    destruct (He i) as [Hei Hli]; [lia|]. rewrite Hei.
    cbn [mbind outcome_bind].
    rewrite broadcast1_same_length by lia. cbn [mbind outcome_bind].
    fold (row i). rewrite set_row_tabulate by (try apply Hrow; lia).
    eexists. split; [done|].
    apply tabulate_ext. intros a b Ha Hb.
    destruct (Nat.eqb_spec a i) as [->|Hne].
    + by rewrite (proj2 (Nat.ltb_lt i (S i))) by lia.
    + destruct (Nat.ltb_spec a i), (Nat.ltb_spec a (S i)); try done; lia.
  - eexists. split; [done|]. rewrite shape0_tabulate.
    split; [done|]. split; [done|]. split; [|apply perturbed_position].
    intros i Hi. rewrite rows_tabulate_lookup by done. f_equal.
    fold (row i).
    transitivity ((λ b, nth b (row i) 0%float) <$> seq 0 n2).
    + apply list_fmap_ext. intros k b _.
      by rewrite (proj2 (Nat.ltb_lt i (0 + M))) by lia.
    + rewrite <- (Hrow i Hi). apply fmap_nth_seq.
Qed.

(** C3.  The covariance of a sensor bound to camera [cam] is the
    camera-noise covariance alone when there is no chain reading, and
    chain_cov + cam_cov when there is one, where chain_cov is
    Jt^T · diag(joint variances) · Jt, each joint variance being the
    square of the configured standard deviation of the joint, and
    cam_cov is the 2N×2N diagonal matrix whose diagonal alternates
    var_u, var_v, the squares of the noise deviations of the camera;
    and every covariance returned for a chain reading is such a sum. *)
Theorem covariance_is_chain_plus_camera (self : CameraChainSensor)
    (target_pts : ndarray) (cam : RectifiedCamera) :
  _camera self = Some cam →
  let n := length (image_points (_M_cam self)) in
  let var_u := (cov_dict_u cam * cov_dict_u cam)%float in
  let var_v := (cov_dict_v cam * cov_dict_v cam)%float in
  let cam_cov := cam_noise_cov n var_u var_v in
  shape0 cam_cov = 2 * n ∧ shape1 cam_cov = 2 * n
  ∧ (∀ i j, i < 2 * n → j < 2 * n →
       item cam_cov i j
       = if i =? j then (if Nat.even i then var_u else var_v) else 0%float)
  ∧ match _M_chain self with
    | None => covariance self target_pts = Ok cam_cov
    | Some m_chain =>
        ∀ Jt cb chain JtT_D chain_cov,
          jacobian self m_chain target_pts = Ok Jt →
          calc_block (_chain self) = Some cb →
          cb_chain cb = Some chain →
          matmul (transpose Jt)
            (diag ((λ x, (x * x)%float) <$> cov_dict_joint_angles chain))
          = Ok JtT_D →
          matmul JtT_D Jt = Ok chain_cov →
          shape0 chain_cov = 2 * n → shape1 chain_cov = 2 * n →
          covariance self target_pts
          = Ok (tabulate (2 * n) (2 * n) (λ i j,
                  (item chain_cov i j + item cam_cov i j)%float))
    end
  ∧ match _M_chain self with
    | None => True
    | Some m_chain =>
        ∀ cov,
          covariance self target_pts = Ok cov →
          ∃ Jt cb chain JtT_D chain_cov,
            jacobian self m_chain target_pts = Ok Jt
            ∧ calc_block (_chain self) = Some cb
            ∧ cb_chain cb = Some chain
            ∧ matmul (transpose Jt)
                (diag ((λ x, (x * x)%float) <$> cov_dict_joint_angles chain))
              = Ok JtT_D
            ∧ matmul JtT_D Jt = Ok chain_cov
            ∧ broadcast2 PrimFloat.add chain_cov cam_cov = Ok cov
    end.
Proof.
  intros Hcam n var_u var_v cam_cov.
  split; [apply shape0_tabulate|]. split; [done|].
  split; [intros i j Hi Hj; by apply item_tabulate|].
  unfold compute_cov.
  destruct (_M_chain self) as [m_chain|]; [split|split; [|done]].
  2:{ intros cov (chain_cov & Hcc & Hsum)%bind_Ok.
      rewrite (compute_cam_cov_closed self cam Hcam) in Hsum.
      unfold compute_chain_cov in Hcc.
      apply bind_Ok in Hcc as (Jt & HJt & Hcc).
      apply bind_Ok in Hcc as (cb & Hcb%getattr_Ok & Hcc).
      apply bind_Ok in Hcc as (chain & Hchain%getattr_Ok & Hcc).
      apply bind_Ok in Hcc as (JtT_D & HD & Hcc).
      by exists Jt, cb, chain, JtT_D, chain_cov. }
  - intros Jt cb chain JtT_D chain_cov HJt Hcb Hchain HD Hcc H0 H1.
    unfold compute_chain_cov. rewrite HJt. cbn [mbind outcome_bind].
    rewrite Hcb. cbn [getattr mbind outcome_bind].
    rewrite Hchain. cbn [getattr mbind outcome_bind].
    rewrite HD. cbn [mbind outcome_bind]. rewrite Hcc.
    cbn [mbind outcome_bind].
    rewrite (compute_cam_cov_closed self cam Hcam). cbn [mbind outcome_bind].
    fold n var_u var_v cam_cov.
    rewrite broadcast2_same_shape; [by rewrite H0, H1| |].
    + rewrite H0. symmetry. apply shape0_tabulate.
    + rewrite H1. reflexivity.
  - by rewrite (compute_cam_cov_closed self cam Hcam).
Qed.

Lemma tabulate_item (nr nc : nat) (f : nat → nat → float) :
  tabulate nr nc f
  = tabulate (shape0 (tabulate nr nc f)) (shape1 (tabulate nr nc f))
      (item (tabulate nr nc f)).
Proof.
  rewrite shape0_tabulate. change (shape1 (tabulate nr nc f)) with nc.
  apply tabulate_ext. intros i j Hi Hj. by rewrite item_tabulate.
Qed.

(** A covariance returned by [compute_cov] is a full matrix. *)
Lemma covariance_tabulated (self : CameraChainSensor)
    (target_pts cov : ndarray) :
  covariance self target_pts = Ok cov →
  cov = tabulate (shape0 cov) (shape1 cov) (item cov).
Proof.
  unfold compute_cov.
  assert (Hcam : ∀ m, compute_cam_cov self = Ok m →
                      m = tabulate (shape0 m) (shape1 m) (item m)).
  { intros m Hm. destruct (_camera self) as [cam|] eqn:Hc.
    - rewrite (compute_cam_cov_closed self cam Hc) in Hm.
      injection Hm as <-. apply tabulate_item.
    - unfold compute_cam_cov in Hm. by rewrite Hc in Hm. }
  destruct (_M_chain self) as [m_chain|].
  - intros (chain_cov & _ & (cam_cov & _ & Hb)%bind_Ok)%bind_Ok.
    unfold broadcast2 in Hb.
    apply bind_Ok in Hb as (nr & _ & (nc & _ & [= <-])%bind_Ok).
    apply tabulate_item.
  - intros (cam_cov & Hm & [= <-])%bind_Ok. by apply Hcam.
Qed.

End Covariance.

Lemma jacobian_is_forward_difference_witness :
  ∃ Jt, compute_Jt stub_fk stub_project stub_matmul stub_inv
          sensor_two_points sample_arm target_two_points = Ok Jt
    ∧ shape0 Jt = length (position (chain_state sample_arm))
    ∧ shape1 Jt = get_residual_length sensor_two_points
    ∧ (∀ i, i < length (position (chain_state sample_arm)) →
         rows Jt !! i
         = Some ((λ d, (d / epsilon)%float)
                   <$> zip_with PrimFloat.sub
                         (flatten (sample_expected_at (perturbed sample_arm i)))
                         (flatten (sample_expected_at
                                     (chain_state sample_arm)))))
    ∧ (∀ i j,
         position (perturbed sample_arm i) !! j
         = if decide (i = j)
           then (λ p, (p + epsilon)%float)
                  <$> position (chain_state sample_arm) !! j
           else position (chain_state sample_arm) !! j).
Proof.
  apply (jacobian_is_forward_difference stub_fk stub_project stub_matmul
           stub_inv sensor_two_points sample_arm target_two_points
           (sample_expected_at (chain_state sample_arm))
           (λ i, sample_expected_at (perturbed sample_arm i))).
  - vm_compute. reflexivity.
  - vm_compute. reflexivity.
  - intros i Hi. change (i < 2) in Hi.
    destruct i as [|[|i]]; [| |lia]; split; vm_compute; reflexivity.
Defined.

Lemma covariance_is_chain_plus_camera_witness :
  compute_cov stub_fk stub_project stub_matmul stub_inv
    sensor_two_points target_two_points
  = Ok (tabulate 4 4 (λ i j,
          (item sample_chain_cov i j
           + item (cam_noise_cov 2 0.25%float 0.25%float) i j)%float)).
Proof.
  destruct (covariance_is_chain_plus_camera stub_fk stub_project stub_matmul
              stub_inv sensor_two_points target_two_points sample_camera
              eq_refl) as (_ & _ & _ & H & _).
  apply (H sample_Jt
           {| before_chain_Ts := [zero_transform];
              cb_chain := Some sample_chain;
              cb_dh_link_num := 2;
              after_chain_Ts := [zero_transform; zero_transform] |}
           sample_chain sample_JtT_D sample_chain_cov);
    vm_compute; reflexivity.
Defined.

(** Scenario B: a chain with two joints of deviations 1/8 and 1/4 and a
    camera of noise deviation 1/2 on both axes. *)
Example covariance_two_joints :
  compute_Jt stub_fk stub_project stub_matmul stub_inv
    sensor_two_points sample_arm target_two_points = Ok sample_Jt
  ∧ stub_matmul (transpose sample_Jt)
      (diag [(0.125 * 0.125)%float; (0.25 * 0.25)%float]) = Ok sample_JtT_D
  ∧ stub_matmul sample_JtT_D sample_Jt = Ok sample_chain_cov
  ∧ compute_cov stub_fk stub_project stub_matmul stub_inv
      sensor_two_points target_two_points
    = broadcast2 PrimFloat.add sample_chain_cov
        (numpy_matrix [[0.25%float; 0%float; 0%float; 0%float];
                       [0%float; 0.25%float; 0%float; 0%float];
                       [0%float; 0%float; 0.25%float; 0%float];
                       [0%float; 0%float; 0%float; 0.25%float]]).
Proof. repeat split; vm_compute; reflexivity. Qed.

(** ** The Unbound and the Bound state *)

Section BoundState.

Context (fk : FullChainCalcBlock → option JointState → outcome ndarray)
        (project : RectifiedCamera → ndarray → ndarray → outcome ndarray)
        (full_chain_update_config :
           ChainConfig → RobotParams → outcome FullChainCalcBlock)
        (matmul : ndarray → ndarray → outcome ndarray)
        (mat_inv : ndarray → outcome ndarray)
        (sqrtm : ndarray → outcome cndarray)
        (norm : cndarray → outcome float).

Local Abbreviation rebind := (update_config full_chain_update_config).
Local Abbreviation rebind_all := (update_config_all full_chain_update_config).
Local Abbreviation bindable := (bindable full_chain_update_config).
Local Abbreviation unbound := (never_bound full_chain_update_config).
Local Abbreviation expected_at := (_compute_expected fk project matmul mat_inv).
Local Abbreviation residual := (compute_residual fk project matmul mat_inv).
Local Abbreviation covariance := (compute_cov fk project matmul mat_inv).
Local Abbreviation residual_scaled :=
  (compute_residual_scaled fk project matmul mat_inv sqrtm norm).

(** C7 (as amended).  Unbound: on a sensor on which [update_config] has
    never returned, which is not Bound, residual and residual_scaled
    fail with the exception of a missing attribute (the NotBound
    failure), and so does covariance when the sensor has a chain reading
    or no camera has been stored; on a freshly constructed sensor all
    three fail.  Rebinding: a call of [update_config] that returns
    leaves the sensor Bound, from any state, and so does any non-empty
    sequence of such calls; it resolves a chain for a sensor with a
    chain reading when the configuration of the sensor names a chain and
    the update of the chain resolves the chain it is given.  Bound: the
    attribute reads succeed, so that the expected pixels are what the
    kinematics, the inverse, the product and the projection return; the
    covariance of a sensor without chain reading is returned; residual
    does not fail with the exception of a missing attribute, and neither
    do residual_scaled and covariance when a chain has been resolved for
    the chain reading, unless the code outside this module raises that
    exception. *)
Theorem evaluation_needs_binding :
  (∀ self target_pts,
     unbound self →
     ¬ is_bound self
     ∧ residual self target_pts = Raise AttributeError
     ∧ residual_scaled self target_pts = Raise AttributeError
     ∧ (is_Some (_M_chain self) ∨ _camera self = None →
        covariance self target_pts = Raise AttributeError))
  ∧ (∀ cfg m_cam m_chain target_pts,
       residual (CameraChainSensor_init cfg m_cam m_chain) target_pts
       = Raise AttributeError
       ∧ residual_scaled (CameraChainSensor_init cfg m_cam m_chain) target_pts
         = Raise AttributeError
       ∧ covariance (CameraChainSensor_init cfg m_cam m_chain) target_pts
         = Raise AttributeError)
  ∧ (∀ self robot_params self',
       rebind self robot_params = (self', Ok tt) → is_bound self')
  ∧ (∀ self robot_params,
       bindable self robot_params →
       ∃ self', rebind self robot_params = (self', Ok tt))
  ∧ (∀ self cycles,
       cycles ≠ [] → Forall (bindable self) cycles →
       is_bound (rebind_all self cycles))
  ∧ (∀ self robot_params self',
       rebind self robot_params = (self', Ok tt) →
       chain_configured self →
       resolves_chain full_chain_update_config →
       chain_resolved self' ∧ chain_configured self')
  ∧ (∀ self target_pts,
       is_bound self →
       (∃ cam cb,
          _camera self = Some cam
          ∧ calc_block (_chain self) = Some cb
          ∧ ∀ chain_state,
              expected_at self chain_state target_pts
              = (camera_pose_root ← fk cb chain_state;
                 pose_inv ← mat_inv camera_pose_root;
                 cam_frame_pts ← matmul pose_inv target_pts;
                 pixel_pts ← project cam (cam_info_P (_M_cam self))
                               cam_frame_pts;
                 mret (transpose pixel_pts)))
       ∧ (_M_chain self = None →
          ∃ cov, covariance self target_pts = Ok cov)
       ∧ (external_no_attribute_error fk project matmul mat_inv sqrtm norm →
          no_attribute_error (residual self target_pts)
          ∧ (chain_resolved self →
             no_attribute_error (residual_scaled self target_pts)
             ∧ no_attribute_error (covariance self target_pts)))).
Proof.
  split; [|split; [|split; [|split; [|split; [|split]]]]].
  - intros self target_pts Hu.
    split; [by eapply unbound_not_bound|].
    split; [by eapply unbound_residual|].
    split; [by eapply unbound_residual_scaled|by eapply unbound_covariance].
  - intros cfg m_cam m_chain target_pts.
    assert (Hu : unbound (CameraChainSensor_init cfg m_cam m_chain))
      by constructor.
    split; [by eapply unbound_residual|].
    split; [by eapply unbound_residual_scaled|].
    eapply unbound_covariance; [done|by right].
  - intros self robot_params self' (cam & cb & _ & _ & ->)%update_config_returns.
    by split; eexists.
  - intros self robot_params Hb.
    destruct (update_config_bindable _ self robot_params Hb) as [Hret _].
    exists (rebind self robot_params).1.
    destruct (rebind self robot_params) as [s o]. simpl in *. by rewrite Hret.
  - intros self cycles. apply update_config_all_bound.
  - intros self robot_params self'. apply update_config_resolves_chain.
  - intros self target_pts Hb. split; [|split].
    + destruct Hb as [[cam Hcam] [cb Hcb]]. exists cam, cb.
      split; [done|]. split; [done|]. intros chain_state.
      by apply bound_expected_external.
    + intros Hnone. destruct Hb as [[cam Hcam] _]. unfold compute_cov.
      rewrite Hnone, (compute_cam_cov_closed self cam Hcam). by eexists.
    + intros (Hfk & Hproject & Hmatmul & Hinv & Hsqrtm & Hnorm).
      split; [by apply bound_residual|]. intros Hres.
      split; [by apply bound_residual_scaled|by apply bound_covariance].
Qed.

End BoundState.

Lemma stub_external_no_attribute_error :
  external_no_attribute_error stub_fk stub_project stub_matmul stub_inv
    stub_sqrtm stub_norm.
Proof.
  split; [|split; [|split; [|split; [|split]]]].
  - intros cb st. unfold stub_fk. discriminate.
  - intros cam P pts. unfold stub_project. discriminate.
  - intros a b. unfold stub_matmul. destruct (_ =? _); discriminate.
  - intros m. unfold stub_inv.
    destruct (_ =? _); [discriminate|]. destruct (forallb _ _); discriminate.
  - intros m. unfold stub_sqrtm. discriminate.
  - intros c. unfold stub_norm. discriminate.
Qed.

Lemma stub_resolves_chain : resolves_chain stub_update_config.
Proof.
  intros cfg robot_params cb Hcb [ch Hch]. unfold stub_update_config in Hcb.
  rewrite Hch in Hcb.
  apply bind_Ok in Hcb as (before & _ & Hcb).
  apply bind_Ok in Hcb as (chain & Hchain & Hcb).
  apply bind_Ok in Hcb as (after & _ & [= <-]). simpl.
  destruct (dh_chains robot_params !! ch) as [c|]; [|done].
  injection Hchain as <-. by eexists.
Qed.

(** The sample sensor with a chain of two joints: it is Unbound when
    constructed, Bound with its chain resolved after [update_config]
    with the sample parameters, and then evaluates without the
    exception of a missing attribute; the covariance of the Bound sensor
    without chain reading is returned. *)
Lemma evaluation_needs_binding_witness :
  let fresh :=
    fresh_sensor (Some "arm")
      [ {| pt_x := 320%float; pt_y := 240%float |};
        {| pt_x := 1%float; pt_y := 2%float |} ]
      (Some sample_arm) in
  (¬ is_bound fresh
   ∧ compute_residual stub_fk stub_project stub_matmul stub_inv
       fresh target_two_points = Raise AttributeError
   ∧ compute_residual_scaled stub_fk stub_project stub_matmul stub_inv
       stub_sqrtm stub_norm fresh target_two_points = Raise AttributeError
   ∧ compute_cov stub_fk stub_project stub_matmul stub_inv
       fresh target_two_points = Raise AttributeError)
  ∧ update_config stub_update_config fresh sample_params
    = (sensor_two_points, Ok tt)
  ∧ is_bound sensor_two_points
  ∧ chain_resolved sensor_two_points
  ∧ no_attribute_error
      (compute_residual stub_fk stub_project stub_matmul stub_inv
         sensor_two_points target_two_points)
  ∧ no_attribute_error
      (compute_residual_scaled stub_fk stub_project stub_matmul stub_inv
         stub_sqrtm stub_norm sensor_two_points target_two_points)
  ∧ no_attribute_error
      (compute_cov stub_fk stub_project stub_matmul stub_inv
         sensor_two_points target_two_points)
  ∧ ∃ cov, compute_cov stub_fk stub_project stub_matmul stub_inv
             sensor_one_point target_one_point = Ok cov.
Proof.
  intros fresh.
  destruct (evaluation_needs_binding stub_fk stub_project stub_update_config
              stub_matmul stub_inv stub_sqrtm stub_norm)
    as (Hunbound & _ & Hbound & _ & _ & Hchain & Hvalid).
  assert (Hup : update_config stub_update_config fresh sample_params
                = (sensor_two_points, Ok tt))
    by (vm_compute; reflexivity).
  assert (Hb : is_bound sensor_two_points) by exact (Hbound _ _ _ Hup).
  assert (Hres : chain_resolved sensor_two_points).
  { apply (Hchain fresh sample_params sensor_two_points Hup).
    - intros _. by eexists.
    - apply stub_resolves_chain. }
  destruct (Hunbound fresh target_two_points) as (H1 & H2 & H3 & H4).
  { apply never_bound_init. }
  destruct (Hvalid sensor_two_points target_two_points Hb)
    as (_ & _ & Hattr).
  destruct (Hattr stub_external_no_attribute_error) as [Hr Hrest].
  destruct (Hrest Hres) as [Hrs Hcov].
  split.
  { split; [exact H1|]. split; [exact H2|]. split; [exact H3|].
    apply H4. left. by eexists. }
  split; [exact Hup|]. split; [exact Hb|]. split; [exact Hres|].
  split; [exact Hr|]. split; [exact Hrs|]. split; [exact Hcov|].
  destruct (Hvalid sensor_one_point target_one_point) as (_ & Hone & _).
  { split; by eexists. }
  apply Hone. reflexivity.
Defined.

(** Two sensors on which the claim as stated fails.  A sensor without
    chain reading is constructed, and [update_config] is called with
    parameters that hold its camera but not the transforms of its
    configuration: the call raises after the camera has been stored,
    and the covariance of the sensor, on which no rebind has succeeded,
    is then returned.  A sensor with a chain reading whose configuration
    names no chain is constructed and bound to the sample parameters:
    the call returns, the sensor is Bound and its residual is returned,
    but no chain has been resolved for it, and its covariance and its
    scaled residual raise the exception of a missing attribute. *)
Lemma evaluation_needs_binding_counterexample :
  (∃ self',
     update_config stub_update_config
       (fresh_sensor None [ {| pt_x := 320%float; pt_y := 240%float |} ] None)
       params_without_transforms
     = (self', Raise KeyError)
     ∧ never_bound stub_update_config self'
     ∧ compute_cov stub_fk stub_project stub_matmul stub_inv
         self' target_one_point
       = Ok {| ncols := 2;
               rows := [[0.25%float; 0%float]; [0%float; 0.25%float]] |})
  ∧ (update_config stub_update_config
       (fresh_sensor None [ {| pt_x := 320%float; pt_y := 240%float |} ]
          (Some sample_arm))
       sample_params
     = (sensor_unmatched_chain, Ok tt)
     ∧ is_bound sensor_unmatched_chain
     ∧ ¬ chain_resolved sensor_unmatched_chain
     ∧ (∃ r, compute_residual stub_fk stub_project stub_matmul stub_inv
               sensor_unmatched_chain target_one_point = Ok r)
     ∧ compute_cov stub_fk stub_project stub_matmul stub_inv
         sensor_unmatched_chain target_one_point = Raise AttributeError
     ∧ compute_residual_scaled stub_fk stub_project stub_matmul stub_inv
         stub_sqrtm stub_norm sensor_unmatched_chain target_one_point
       = Raise AttributeError).
Proof.
  split.
  - eexists. split; [vm_compute; reflexivity|]. split.
    + apply (never_bound_raise _
               (fresh_sensor None
                  [ {| pt_x := 320%float; pt_y := 240%float |} ] None)
               _ params_without_transforms KeyError);
        [apply never_bound_init|].
      vm_compute. reflexivity.
    + vm_compute. reflexivity.
  - split; [vm_compute; reflexivity|]. split; [split; by eexists|].
    split.
    { intros Hres. destruct Hres as [n Hn]; [by eexists|].
      vm_compute in Hn. discriminate. }
    split; [eexists; vm_compute; reflexivity|].
    split; vm_compute; reflexivity.
Qed.

(** Scenario A: a camera-only sensor with one image point, bound to the
    sample parameters, whose expected pixel equals the observed one. *)
Example rebound_sensor_evaluates :
  update_config stub_update_config
    (fresh_sensor None [ {| pt_x := 320%float; pt_y := 240%float |} ] None)
    sample_params
  = (sensor_one_point, Ok tt)
  ∧ compute_residual stub_fk stub_project stub_matmul stub_inv
      sensor_one_point target_one_point = Ok [0%float; 0%float]
  ∧ compute_residual_scaled stub_fk stub_project stub_matmul stub_inv
      stub_sqrtm stub_norm sensor_one_point target_one_point
    = Ok [0%float; 0%float]
  ∧ compute_cov stub_fk stub_project stub_matmul stub_inv
      sensor_one_point target_one_point
    = Ok {| ncols := 2;
            rows := [[0.25%float; 0%float]; [0%float; 0.25%float]] |}.
Proof. repeat split; vm_compute; reflexivity. Qed.

(** The sample sensor with a chain of two joints, bound to the sample
    parameters: the three evaluations return. *)
Example rebound_chain_sensor_evaluates :
  (∃ r, compute_residual stub_fk stub_project stub_matmul stub_inv
          sensor_two_points target_two_points = Ok r)
  ∧ (∃ r, compute_residual_scaled stub_fk stub_project stub_matmul stub_inv
            stub_sqrtm stub_norm sensor_two_points target_two_points = Ok r)
  ∧ (∃ cov, compute_cov stub_fk stub_project stub_matmul stub_inv
              sensor_two_points target_two_points = Ok cov).
Proof. repeat split; eexists; vm_compute; reflexivity. Qed.

(** ** Whitening *)

Lemma for_range_from_app {St : Type} (body : nat → St → outcome St)
    (a b start : nat) (st : St) :
  for_range_from start (a + b) body st
  = for_range_from start a body st ≫= for_range_from (start + a) b body.
Proof.
  revert start st. induction a as [|a IH]; intros start st; simpl.
  - by rewrite Nat.add_0_r.
  - destruct (body start st) as [st1|e]; simpl; [|done].
    rewrite IH. by replace (S start + a) with (start + S a) by lia.
Qed.

Ltac nat_bool_cases :=
  repeat match goal with
    | |- context [?a =? ?b] => destruct (Nat.eqb_spec a b)
    | |- context [?a <=? ?b] => destruct (Nat.leb_spec a b)
    | |- context [?a <? ?b] => destruct (Nat.ltb_spec a b)
    end.

Lemma half_and_rest (i : nat) : i = 2 * (i / 2) + i mod 2 ∧ i mod 2 < 2.
Proof.
  split; [apply Nat.div_mod_eq|]. by apply Nat.mod_upper_bound.
Qed.

Lemma diag_block_tabulate (n k : nat) (f : nat → nat → float) :
  k < n →
  diag_block (tabulate (2 * n) (2 * n) f) k
  = tabulate 2 2 (λ a b, f (2 * k + a) (2 * k + b)).
Proof.
  intros Hk. unfold diag_block. rewrite slice2_tabulate.
  by replace (Nat.min (2 * k + 2 - 2 * k) (2 * n - 2 * k)) with 2 by lia.
Qed.

Lemma set_block_tabulate (nr nc : nat) (f : nat → nat → float)
    (r0 c0 : nat) (v : ndarray) :
  r0 + 2 ≤ nr → c0 + 2 ≤ nc → shape0 v = 2 → shape1 v = 2 →
  set_block (tabulate nr nc f) r0 (r0 + 2) c0 (c0 + 2) v
  = Ok (tabulate nr nc (λ i j,
          if (r0 <=? i) && (i <? r0 + 2) && (c0 <=? j) && (j <? c0 + 2)
          then item v (i - r0) (j - c0) else f i j)).
Proof.
  intros Hr Hc Hv0 Hv1. unfold set_block.
  rewrite shape0_tabulate. change (shape1 (tabulate nr nc f)) with nc.
  replace (Nat.min (r0 + 2 - r0) (nr - r0)) with 2 by lia.
  replace (Nat.min (c0 + 2 - c0) (nc - c0)) with 2 by lia.
  rewrite Hv0, Hv1. cbn [Nat.eqb orb andb]. f_equal.
  apply tabulate_ext. intros i j Hi Hj.
  by rewrite item_tabulate by done.
Qed.

Section Whitening.

Context (fk : FullChainCalcBlock → option JointState → outcome ndarray)
        (project : RectifiedCamera → ndarray → ndarray → outcome ndarray)
        (matmul : ndarray → ndarray → outcome ndarray)
        (mat_inv : ndarray → outcome ndarray)
        (sqrtm : ndarray → outcome cndarray)
        (norm : cndarray → outcome float).

Local Abbreviation covariance := (compute_cov fk project matmul mat_inv).
Local Abbreviation gamma_sqrt :=
  (compute_marginal_gamma_sqrt fk project matmul mat_inv sqrtm norm).
Local Abbreviation step := (gamma_step mat_inv sqrtm norm).
Local Abbreviation passes := (block_passes mat_inv sqrtm norm).
Local Abbreviation fails := (block_fails mat_inv sqrtm norm).

Lemma gamma_step_passes (cov gamma s : ndarray) (k : nat) :
  passes cov k s →
  step cov k gamma
  = set_block gamma (2 * k) (2 * k + 2) (2 * k) (2 * k + 2) s.
Proof.
  intros (sub_gamma & full & d & n & Hinv & Hsqrt & -> & Hd & Hn & Hlt).
  unfold gamma_step. fold (diag_block cov k).
  rewrite Hinv. cbn [mbind outcome_bind]. rewrite Hsqrt.
  cbn [mbind outcome_bind]. rewrite Hd. cbn [mbind outcome_bind].
  rewrite Hn. cbn [mbind outcome_bind]. by rewrite Hlt.
Qed.

Lemma gamma_step_fails (cov gamma : ndarray) (k : nat) :
  fails cov k → step cov k gamma = Raise AssertionError.
Proof.
  intros (sub_gamma & full & d & n & Hinv & Hsqrt & Hd & Hn & Hlt).
  unfold gamma_step. fold (diag_block cov k).
  rewrite Hinv. cbn [mbind outcome_bind]. rewrite Hsqrt.
  cbn [mbind outcome_bind]. rewrite Hd. cbn [mbind outcome_bind].
  rewrite Hn. cbn [mbind outcome_bind]. by rewrite Hlt.
Qed.

(** The state of the loop after [k] blocks have passed. *)
Lemma gamma_loop_prefix (cov : ndarray) (s : nat → ndarray) (n k : nat) :
  k ≤ n →
  (∀ k', k' < k → passes cov k' (s k')
                  ∧ shape0 (s k') = 2 ∧ shape1 (s k') = 2) →
  for_range_from 0 k (step cov) (zeros (2 * n) (2 * n))
  = Ok (tabulate (2 * n) (2 * n) (λ i j,
          if (i / 2 =? j / 2) && (i / 2 <? k)
          then item (s (i / 2)) (i mod 2) (j mod 2) else 0%float)).
Proof.
  intros Hk Hpass.
  destruct (for_range_from_invariant
    (λ k m, m = tabulate (2 * n) (2 * n) (λ i j,
       if (i / 2 =? j / 2) && (i / 2 <? k)
       then item (s (i / 2)) (i mod 2) (j mod 2) else 0%float))
    (step cov) k 0 (zeros (2 * n) (2 * n))) as (m & Hm & ->); [| |done].
  - rewrite zeros_tabulate. apply tabulate_ext. intros i j _ _.
    by rewrite andb_false_r.
  - intros q m Hq ->.
    destruct (Hpass q) as (Hp & Hs0 & Hs1); [lia|].
    rewrite (gamma_step_passes _ _ _ _ Hp).
    rewrite set_block_tabulate by (done || lia).
    eexists. split; [done|].
    apply tabulate_ext. intros i j Hi Hj.
    destruct (half_and_rest i) as [Hi2 Hir], (half_and_rest j) as [Hj2 Hjr].
    nat_bool_cases; cbn [andb]; try done; try lia.
    f_equal; [f_equal|..]; lia.
Qed.

(** C4.  The whitening operator of a sensor with N image points, whose
    covariance is a 2N×2N matrix, is assembled from one 2×2 block per
    point.  Block k is read off the diagonal of the covariance; when for
    every block the inverse and its square root are computed and the
    norm of what [real] discards of the square root is below 1e-6, the
    result is the block-diagonal matrix of the real parts of these
    square roots.  When for some block that norm is not below 1e-6, the
    computation raises, and it raises the assertion error when all
    blocks before that one pass. *)
Theorem whitening_is_block_diagonal (self : CameraChainSensor)
    (target_pts cov : ndarray) (s : nat → ndarray) :
  covariance self target_pts = Ok cov →
  shape0 cov = 2 * length (image_points (_M_cam self)) →
  shape1 cov = 2 * length (image_points (_M_cam self)) →
  (∀ k, k < length (image_points (_M_cam self)) →
     diag_block cov k
     = tabulate 2 2 (λ a b, item cov (2 * k + a) (2 * k + b)))
  ∧ ((∀ k, k < length (image_points (_M_cam self)) →
        passes cov k (s k) ∧ shape0 (s k) = 2 ∧ shape1 (s k) = 2) →
     gamma_sqrt self target_pts
     = Ok (block_diag2 (length (image_points (_M_cam self))) s))
  ∧ (∀ k, k < length (image_points (_M_cam self)) → fails cov k →
       ∃ e, gamma_sqrt self target_pts = Raise e)
  ∧ (∀ k, k < length (image_points (_M_cam self)) →
       (∀ k', k' < k →
          passes cov k' (s k') ∧ shape0 (s k') = 2 ∧ shape1 (s k') = 2) →
       fails cov k →
       gamma_sqrt self target_pts = Raise AssertionError).
Proof.
  intros Hcov H0 H1.
  set (n := length (image_points (_M_cam self))) in *.
  assert (Hloop : gamma_sqrt self target_pts
                  = for_range_from 0 n (step cov) (zeros (2 * n) (2 * n))).
  { unfold compute_marginal_gamma_sqrt. rewrite Hcov.
    cbn [mbind outcome_bind]. rewrite H0, H1.
    unfold for_range, get_residual_length. fold n.
    by rewrite Nat.div_mul. }
  split; [|split; [|split]].
  - intros k Hk. rewrite (covariance_tabulated _ _ _ _ _ _ _ Hcov) at 1.
    rewrite H0, H1. by apply diag_block_tabulate.
  - intros Hpass. rewrite Hloop, (gamma_loop_prefix cov s n n) by done.
    f_equal. apply tabulate_ext. intros i j Hi Hj.
    destruct (half_and_rest i) as [Hi2 Hir].
    by rewrite (proj2 (Nat.ltb_lt (i / 2) n)), andb_true_r by lia.
  - intros k Hk Hfail. rewrite Hloop.
    apply (for_range_from_raises _ n 0 k); [done|].
    intros st. exists AssertionError. by apply gamma_step_fails.
  - intros k Hk Hpass Hfail. rewrite Hloop.
    replace n with (k + S (n - k - 1)) at 1 by lia.
    rewrite for_range_from_app, (gamma_loop_prefix cov s n k) by (done || lia).
    cbn [mbind outcome_bind for_range_from].
    by rewrite gamma_step_fails.
Qed.

End Whitening.

Lemma whitening_is_block_diagonal_witness :
  compute_marginal_gamma_sqrt stub_fk stub_project stub_matmul stub_inv
    stub_sqrtm stub_norm sensor_two_points target_two_points
  = Ok (block_diag2 2 (λ k, re (sample_full k))).
Proof.
  destruct (whitening_is_block_diagonal stub_fk stub_project stub_matmul
              stub_inv stub_sqrtm stub_norm sensor_two_points
              target_two_points sample_cov (λ k, re (sample_full k)))
    as (_ & H & _).
  - vm_compute. reflexivity.
  - reflexivity.
  - reflexivity.
  - apply H. intros k Hk. change (k < 2) in Hk.
    assert (Hcases : k = 0 ∨ k = 1) by lia.
    destruct Hcases as [-> | ->].
    + split; [|split; reflexivity].
      exists (sample_inv 0), (sample_full 0), (sample_discarded 0),
        (sample_norm 0).
      repeat split; vm_compute; reflexivity.
    + split; [|split; reflexivity].
      exists (sample_inv 1), (sample_full 1), (sample_discarded 1),
        (sample_norm 1).
      repeat split; vm_compute; reflexivity.
Defined.

(** Scenario C: the block diag(-1, 1) has the square root of its inverse
    diag(i, 1); the norm of the discarded imaginary part is 1, and the
    loop body raises the assertion error. *)
Example indefinite_block_raises :
  slice2 indefinite_block 0 2 0 2 = indefinite_block
  ∧ gamma_step stub_inv stub_sqrtm stub_norm indefinite_block 0 (zeros 2 2)
    = Raise AssertionError.
Proof. split; vm_compute; reflexivity. Qed.

(** * Further properties *)

(** ** The bundler as a whole *)

Lemma first_with_index {A B : Type} `{EqDecision B} (f : A → B) (v : B)
    (l : list A) :
  py_in v (f <$> l) = true →
  ∃ i a, py_index v (f <$> l) = Ok i ∧ py_getitem l i = Ok a
         ∧ first_with f v l = Some a.
Proof.
  intros Hin%py_in_true. induction l as [|a l IH].
  - by apply elem_of_nil in Hin.
  - rewrite fmap_cons in Hin |- *. cbn [py_index first_with].
    destruct (decide (f a = v)) as [Heq|Hne].
    + by exists 0, a.
    + apply elem_of_cons in Hin as [->|Hin]; [done|].
      destruct (IH Hin) as (i & a' & Hi & Hg & Hf).
      exists (S i), a'. by rewrite Hi.
Qed.

Lemma first_with_absent {A B : Type} `{EqDecision B} (f : A → B) (v : B)
    (l : list A) :
  py_in v (f <$> l) = false → first_with f v l = None.
Proof.
  intros Hin%bool_decide_eq_false. induction l as [|a l IH]; [done|].
  simpl. destruct (decide (f a = v)) as [Heq|Hne].
  - destruct Hin. rewrite fmap_cons, <- Heq. apply elem_of_cons. by left.
  - apply IH. intros Hl. apply Hin. rewrite fmap_cons.
    apply elem_of_cons. by right.
Qed.

Lemma first_with_Some {A B : Type} `{EqDecision B} (f : A → B) (v : B)
    (l : list A) :
  first_with (λ x, Some (f x)) (Some v) l = first_with f v l.
Proof.
  induction l as [|a l IH]; [done|]. simpl.
  destruct (decide (Some (f a) = Some v)) as [[= Heq]|Hne];
    destruct (decide (f a = v)) as [Heq'|Hne']; try done.
  by rewrite Heq' in Hne.
Qed.

Lemma first_with_found {A B : Type} `{EqDecision B} (f : A → B) (v : B)
    (l : list A) (a : A) :
  first_with f v l = Some a →
  ∃ i, l !! i = Some a ∧ f a = v
       ∧ ∀ j a', j < i → l !! j = Some a' → f a' ≠ v.
Proof.
  induction l as [|b l IH]; [done|]. simpl.
  destruct (decide (f b = v)) as [Heq|Hne].
  - intros [= <-]. exists 0. split; [done|]. split; [done|]. lia.
  - intros (i & Hi & Hv & Hfirst)%IH. exists (S i).
    split; [done|]. split; [done|].
    intros [|j] a' Hj; simpl; [by intros [= <-]|].
    apply Hfirst. lia.
Qed.

Lemma not_in_chain_ids_None (l : list ChainMeasurement) :
  py_in None ((λ x, Some (chain_id x)) <$> l) = false.
Proof.
  apply bool_decide_eq_false.
  by intros (x & [=] & _)%list_elem_of_fmap.
Qed.

(** The loop of [build_blocks], in closed form. *)
Lemma build_blocks_loop_closed (valid_configs : list Config)
    (M_robot : RobotMeasurement) (sensors : list CameraChainSensor) :
  build_blocks_loop valid_configs M_robot sensors
  = Ok (sensors
        ++ omap (sensor_of M_robot)
             (configs_before_break valid_configs M_robot)).
Proof.
  revert sensors.
  induction valid_configs as [|c cfgs IH]; intros sensors.
  - simpl. by rewrite app_nil_r.
  - cbn [build_blocks_loop configs_before_break]. unfold breaks.
    destruct (py_in (cfg_camera_id c) _) eqn:Hcam.
    + destruct (first_with_index camera_id _ _ Hcam)
        as (i & m_cam & Hi & Hg & Hfirst).
      rewrite Hi. cbn [mbind outcome_bind]. rewrite Hg.
      cbn [mbind outcome_bind].
      destruct (py_in (cfg_chain_id (cfg_chain c)) _) eqn:Hch.
      * destruct (cfg_chain_id (cfg_chain c)) as [ch|] eqn:Hid;
          [|by rewrite not_in_chain_ids_None in Hch].
        destruct (first_with_index (λ x, Some (chain_id x)) _ _ Hch)
          as (j & m_chain & Hj & Hgj & Hfirstj).
        rewrite Hj. cbn [mbind outcome_bind]. rewrite Hgj.
        cbn [mbind outcome_bind].
        rewrite first_with_Some in Hfirstj.
        assert (Hsn : sensor_of M_robot c
                      = Some (CameraChainSensor_init c m_cam (Some m_chain))).
        { unfold sensor_of. rewrite Hfirst, Hid. simpl. by rewrite Hfirstj. }
        cbn [andb negb omap list_omap]. rewrite Hsn, IH.
        by rewrite <- app_assoc.
      * destruct (cfg_chain_id (cfg_chain c)) as [ch|] eqn:Hid.
        -- rewrite bool_decide_eq_false_2 by done. cbn [andb negb].
           by rewrite app_nil_r.
        -- rewrite bool_decide_eq_true_2 by done.
           assert (Hsn : sensor_of M_robot c
                         = Some (CameraChainSensor_init c m_cam None)).
           { unfold sensor_of. by rewrite Hfirst, Hid. }
           cbn [andb negb omap list_omap]. rewrite Hsn, IH.
           by rewrite <- app_assoc.
    + assert (Hsn : sensor_of M_robot c = None).
      { unfold sensor_of. by rewrite (first_with_absent camera_id _ _ Hcam). }
      cbn [andb negb omap list_omap]. rewrite Hsn. apply IH.
Qed.

Lemma configs_before_break_sub (valid_configs : list Config)
    (M_robot : RobotMeasurement) :
  configs_before_break valid_configs M_robot ⊆ valid_configs
  ∧ length (configs_before_break valid_configs M_robot)
    ≤ length valid_configs.
Proof.
  induction valid_configs as [|c cfgs [IH1 IH2]]; [done|]. simpl.
  destruct (breaks c M_robot).
  - split; [apply list_subseteq_nil|simpl; lia].
  - split; [|simpl; lia].
    intros x [->|Hx]%elem_of_cons; apply elem_of_cons; [by left|].
    right. by apply IH1.
Qed.

Lemma configs_before_break_app (l1 l2 : list Config)
    (M_robot : RobotMeasurement) :
  (∀ c, c ∈ l1 → breaks c M_robot = false) →
  configs_before_break (l1 ++ l2) M_robot
  = l1 ++ configs_before_break l2 M_robot.
Proof.
  induction l1 as [|c l1 IH]; intros Hnb; [done|]. simpl.
  rewrite (Hnb c) by (apply elem_of_cons; by left).
  rewrite IH; [done|]. intros c' Hc'. apply Hnb. apply elem_of_cons. by right.
Qed.

Lemma omap_length_le {A B : Type} (f : A → option B) (l : list A) :
  length (omap f l) ≤ length l.
Proof.
  induction l as [|a l IH]; [done|].
  cbn [omap list_omap]. destruct (f a); simpl in *; lia.
Qed.

Lemma sensor_of_Some (M_robot : RobotMeasurement) (c : Config)
    (sn : CameraChainSensor) :
  sensor_of M_robot c = Some sn →
  ∃ m_cam,
    first_with camera_id (cfg_camera_id c) (M_cam M_robot) = Some m_cam
    ∧ match cfg_chain_id (cfg_chain c) with
      | None => sn = CameraChainSensor_init c m_cam None
      | Some ch =>
          ∃ m_chain,
            first_with chain_id ch (M_chain M_robot) = Some m_chain
            ∧ sn = CameraChainSensor_init c m_cam (Some m_chain)
      end.
Proof.
  unfold sensor_of.
  destruct (first_with camera_id _ _) as [m_cam|]; simpl; [|done].
  intros Hsn. exists m_cam. split; [done|].
  destruct (cfg_chain_id (cfg_chain c)) as [ch|]; [|by injection Hsn as <-].
  destruct (first_with chain_id ch _) as [m_chain|]; simpl in *; [|done].
  injection Hsn as <-. by exists m_chain.
Qed.

(** X1.  [build_blocks] never raises: the lookups by [index] are guarded by
    the membership tests.  It returns at most one sensor per
    configuration, each built from one of the configurations, for a
    camera of the sample. *)
Theorem build_blocks_never_raises (valid_configs : list Config)
    (M_robot : RobotMeasurement) :
  ∃ sensors,
    build_blocks valid_configs M_robot = Ok sensors
    ∧ length sensors ≤ length valid_configs
    ∧ ∀ sn, sn ∈ sensors →
        _config_dict sn ∈ valid_configs
        ∧ sensor_id sn ∈ camera_id <$> M_cam M_robot.
Proof.
  eexists. split; [apply build_blocks_loop_closed|]. simpl.
  destruct (configs_before_break_sub valid_configs M_robot) as [Hsub Hlen].
  split.
  - etransitivity; [apply omap_length_le|done].
  - intros sn (c & Hc & Hsn)%list_elem_of_omap.
    apply sensor_of_Some in Hsn as (m_cam & Hcam & Hsn).
    apply first_with_found in Hcam as (i & Hi & Hid & _).
    assert (Hcfg : _config_dict sn = c ∧ sensor_id sn = cfg_camera_id c).
    { destruct (cfg_chain_id (cfg_chain c));
        [destruct Hsn as (m_chain & _ & ->)|subst sn]; done. }
    destruct Hcfg as [-> ->]. split; [by apply Hsub|].
    rewrite <- Hid. apply list_elem_of_fmap. exists m_cam.
    split; [done|]. by eapply list_elem_of_lookup_2.
Qed.

(** X2.  A sensor returned by [build_blocks] is a freshly constructed one,
    whose readings carry the identifiers of its configuration: its
    camera reading is the first of the sample with the camera
    identifier of the configuration, and its chain reading is the first
    with the chain identifier, or [None] when the configuration has
    none. *)
Theorem build_blocks_pairs_readings (valid_configs : list Config)
    (M_robot : RobotMeasurement) (sensors : list CameraChainSensor)
    (sn : CameraChainSensor) :
  build_blocks valid_configs M_robot = Ok sensors →
  sn ∈ sensors →
  sn = CameraChainSensor_init (_config_dict sn) (_M_cam sn) (_M_chain sn)
  ∧ camera_id (_M_cam sn) = cfg_camera_id (_config_dict sn)
  ∧ chain_id <$> _M_chain sn = cfg_chain_id (cfg_chain (_config_dict sn))
  ∧ first_with camera_id (cfg_camera_id (_config_dict sn)) (M_cam M_robot)
    = Some (_M_cam sn)
  ∧ match cfg_chain_id (cfg_chain (_config_dict sn)) with
    | Some ch => first_with chain_id ch (M_chain M_robot) = _M_chain sn
                 ∧ is_Some (_M_chain sn)
    | None => _M_chain sn = None
    end.
Proof.
  unfold build_blocks. rewrite build_blocks_loop_closed. intros [= <-].
  simpl. intros (c & Hc & Hsn)%list_elem_of_omap.
  apply sensor_of_Some in Hsn as (m_cam & Hcam & Hsn).
  destruct (first_with_found _ _ _ _ Hcam) as (i & _ & Hid & _).
  destruct (cfg_chain_id (cfg_chain c)) as [ch|] eqn:Hch.
  - destruct Hsn as (m_chain & Hchain & ->). simpl. rewrite Hch.
    destruct (first_with_found _ _ _ _ Hchain) as (j & _ & Hidj & _).
    rewrite Hidj. by repeat split.
  - subst sn. simpl. by rewrite Hch.
Qed.

Lemma build_blocks_pairs_readings_witness :
  let sn := CameraChainSensor_init config_arm (sample_cam "cam_b")
              (Some sample_arm) in
  sn = CameraChainSensor_init (_config_dict sn) (_M_cam sn) (_M_chain sn)
  ∧ camera_id (_M_cam sn) = cfg_camera_id (_config_dict sn)
  ∧ chain_id <$> _M_chain sn = cfg_chain_id (cfg_chain (_config_dict sn))
  ∧ first_with camera_id (cfg_camera_id (_config_dict sn))
      (M_cam sample_robot)
    = Some (_M_cam sn)
  ∧ match cfg_chain_id (cfg_chain (_config_dict sn)) with
    | Some ch => first_with chain_id ch (M_chain sample_robot) = _M_chain sn
                 ∧ is_Some (_M_chain sn)
    | None => _M_chain sn = None
    end.
Proof.
  apply (build_blocks_pairs_readings [config_camera_only; config_arm]
           sample_robot
           [CameraChainSensor_init config_camera_only (sample_cam "cam_a") None;
            CameraChainSensor_init config_arm (sample_cam "cam_b")
              (Some sample_arm)]).
  - vm_compute. reflexivity.
  - apply list_elem_of_lookup. exists 1. reflexivity.
Defined.

(** X3.  [build_blocks] in closed form: the configurations before the first
    one on which the loop is left are turned, in order, into the sensor
    of their first readings, and those whose camera the sample lacks are
    passed over. *)
Theorem build_blocks_closed_form (valid_configs : list Config)
    (M_robot : RobotMeasurement) :
  build_blocks valid_configs M_robot
  = Ok (omap (sensor_of M_robot)
          (configs_before_break valid_configs M_robot)).
Proof.
  unfold build_blocks. rewrite build_blocks_loop_closed. by rewrite app_nil_l.
Qed.

(** X4.  Bundling distributes over the concatenation of configuration lists
    as long as the loop is not left in the first list. *)
Theorem build_blocks_app (l1 l2 : list Config) (M_robot : RobotMeasurement) :
  (∀ c, c ∈ l1 → breaks c M_robot = false) →
  ∃ s1 s2,
    build_blocks l1 M_robot = Ok s1
    ∧ build_blocks l2 M_robot = Ok s2
    ∧ build_blocks (l1 ++ l2) M_robot = Ok (s1 ++ s2).
Proof.
  intros Hnb. unfold build_blocks. rewrite !build_blocks_loop_closed.
  do 2 eexists. split; [done|]. split; [done|]. simpl.
  pose proof (configs_before_break_app l1 [] M_robot Hnb) as H1.
  simpl in H1. rewrite !app_nil_r in H1.
  by rewrite configs_before_break_app, omap_app, H1.
Qed.

Lemma build_blocks_app_witness :
  ∃ s1 s2,
    build_blocks [config_camera_only] sample_robot = Ok s1
    ∧ build_blocks [config_arm; config_unknown_chain] sample_robot = Ok s2
    ∧ build_blocks ([config_camera_only]
                    ++ [config_arm; config_unknown_chain]) sample_robot
      = Ok (s1 ++ s2).
Proof.
  apply (build_blocks_app [config_camera_only]
           [config_arm; config_unknown_chain] sample_robot).
  intros c Hc. apply list_elem_of_singleton in Hc as ->.
  vm_compute. reflexivity.
Defined.

(** ** Rebinding keeps the readings *)

Section Rebinding.

Context (full_chain_update_config :
           ChainConfig → RobotParams → outcome FullChainCalcBlock).

Local Abbreviation rebind := (update_config full_chain_update_config).
Local Abbreviation rebind_all := (update_config_all full_chain_update_config).

Lemma update_config_all_snoc (self : CameraChainSensor)
    (cycles : list RobotParams) (robot_params : RobotParams) :
  rebind_all self (cycles ++ [robot_params])
  = (rebind (rebind_all self cycles) robot_params).1.
Proof. unfold update_config_all. by rewrite foldl_app. Qed.

Lemma update_config_all_app (self : CameraChainSensor)
    (l1 l2 : list RobotParams) :
  rebind_all self (l1 ++ l2) = rebind_all (rebind_all self l1) l2.
Proof. unfold update_config_all. by rewrite foldl_app. Qed.

Lemma update_config_keeps_fields (self : CameraChainSensor)
    (robot_params : RobotParams) :
  let self' := (rebind self robot_params).1 in
  sensor_type self' = sensor_type self
  ∧ sensor_id self' = sensor_id self
  ∧ _config_dict self' = _config_dict self
  ∧ _M_cam self' = _M_cam self
  ∧ _M_chain self' = _M_chain self
  ∧ terms_per_sample self' = terms_per_sample self
  ∧ fc_config_dict (_chain self') = fc_config_dict (_chain self).
Proof.
  unfold update_config.
  destruct (rectified_cams robot_params !! _) as [cam|]; [|done].
  by destruct (full_chain_update_config _ _).
Qed.

Lemma update_config_all_cons (self : CameraChainSensor)
    (robot_params : RobotParams) (cycles : list RobotParams) :
  rebind_all self (robot_params :: cycles)
  = rebind_all (rebind self robot_params).1 cycles.
Proof. done. Qed.

Lemma update_config_all_keeps_fields (self : CameraChainSensor)
    (cycles : list RobotParams) :
  let self' := rebind_all self cycles in
  sensor_type self' = sensor_type self
  ∧ sensor_id self' = sensor_id self
  ∧ _config_dict self' = _config_dict self
  ∧ _M_cam self' = _M_cam self
  ∧ _M_chain self' = _M_chain self
  ∧ terms_per_sample self' = terms_per_sample self
  ∧ fc_config_dict (_chain self') = fc_config_dict (_chain self).
Proof.
  induction cycles as [|robot_params cycles IH] using rev_ind; [done|].
  rewrite update_config_all_snoc.
  destruct (update_config_keeps_fields (rebind_all self cycles) robot_params)
    as (H1 & H2 & H3 & H4 & H5 & H6 & H7).
  destruct IH as (I1 & I2 & I3 & I4 & I5 & I6 & I7).
  cbv zeta.
  rewrite H1, H2, H3, H4, H5, H6, H7, I1, I2, I3, I4, I5, I6, I7. done.
Qed.

(** X5.  Whatever the parameter sets of a sequence of optimisation cycles,
    and whether the calls of [update_config] return or raise, the sensor
    keeps its type, identifier, configuration and readings: the observed
    pixels and the residual length never change. *)
Theorem update_config_all_keeps_readings (self : CameraChainSensor)
    (cycles : list RobotParams) :
  let self' := rebind_all self cycles in
  sensor_type self' = sensor_type self
  ∧ sensor_id self' = sensor_id self
  ∧ _config_dict self' = _config_dict self
  ∧ _M_cam self' = _M_cam self
  ∧ _M_chain self' = _M_chain self
  ∧ terms_per_sample self' = terms_per_sample self
  ∧ get_measurement self' = get_measurement self
  ∧ get_residual_length self' = get_residual_length self.
Proof.
  destruct (update_config_all_keeps_fields self cycles)
    as (H1 & H2 & H3 & H4 & H5 & H6 & _).
  cbv zeta. unfold get_measurement, get_residual_length.
  rewrite H4. by repeat split.
Qed.

(** X6.  When the parameters do not hold the camera of the sensor,
    [update_config] raises [KeyError] before it reaches the chain, and
    leaves the sensor as it was: a binding made earlier stays in place,
    and in a sequence of cycles such a parameter set changes nothing. *)
Theorem update_config_missing_camera (self : CameraChainSensor)
    (robot_params : RobotParams) (before after : list RobotParams) :
  rectified_cams robot_params !! cfg_camera_id (_config_dict self) = None →
  rebind self robot_params = (self, Raise KeyError)
  ∧ rebind_all self (before ++ robot_params :: after)
    = rebind_all self (before ++ after).
Proof.
  intros Hcam.
  assert (Hnone : ∀ s, _config_dict s = _config_dict self →
                       rebind s robot_params = (s, Raise KeyError)).
  { intros s Hs. unfold update_config. by rewrite Hs, Hcam. }
  split; [by apply Hnone|].
  rewrite !update_config_all_app, update_config_all_cons. rewrite Hnone; [done|].
  apply (update_config_all_keeps_fields self before).
Qed.

End Rebinding.

Lemma update_config_missing_camera_witness :
  update_config stub_update_config sensor_one_point params_without_camera
  = (sensor_one_point, Raise KeyError)
  ∧ update_config_all stub_update_config sensor_one_point
      ([sample_params] ++ params_without_camera :: [sample_params])
    = update_config_all stub_update_config sensor_one_point
        ([sample_params] ++ [sample_params]).
Proof.
  apply (update_config_missing_camera stub_update_config sensor_one_point
           params_without_camera [sample_params] [sample_params]).
  vm_compute. reflexivity.
Defined.

(** ** Shapes, empty readings and inversion of the evaluations *)

Lemma py_assert_Ok (b : bool) (u : unit) : py_assert b = Ok u ↔ b = true.
Proof. destruct b, u; simpl; split; congruence. Qed.

Lemma broadcast_dim_Ok (a b n : nat) :
  broadcast_dim a b = Ok n
  ↔ (a = b ∨ a = 1 ∨ b = 1) ∧ n = (if a =? 1 then b else a).
Proof.
  unfold broadcast_dim.
  destruct (Nat.eqb_spec a b) as [->|Hab].
  - destruct (Nat.eqb_spec b 1); split.
    + intros [= <-]. split; [by left|done].
    + by intros [_ ->].
    + intros [= <-]. split; [by left|done].
    + by intros [_ ->].
  - destruct (Nat.eqb_spec a 1) as [->|Ha].
    + split; [intros [= <-]; split; [by right; left|done]|by intros [_ ->]].
    + destruct (Nat.eqb_spec b 1) as [->|Hb].
      * split; [intros [= <-]; split; [by right; right|done]|by intros [_ ->]].
      * split; [done|]. intros [[?|[?|?]] _]; done.
Qed.

Lemma flatten_tabulate_length (nr nc : nat) (f : nat → nat → float) :
  length (flatten (tabulate nr nc f)) = nr * nc.
Proof.
  unfold flatten, tabulate. cbn [rows].
  generalize 0 at 2. induction nr as [|nr IH]; intros s; [done|].
  simpl. rewrite length_app, length_fmap, length_seq, IH. done.
Qed.

Lemma item_tabulate_outside (nr nc : nat) (f : nat → nat → float)
    (i j : nat) :
  ¬ (i < nr ∧ j < nc) → item (tabulate nr nc f) i j = 0%float.
Proof.
  intros Hout. unfold item, tabulate. cbn [rows].
  destruct (decide (i < nr)) as [Hi|Hi].
  - rewrite (nth_fmap_seq (λ i, f i <$> seq 0 nc)) by done.
    apply nth_overflow. rewrite length_fmap, length_seq. lia.
  - rewrite (nth_overflow _ []); [by destruct j|].
    rewrite length_fmap, length_seq. lia.
Qed.

Lemma for_range_from_Ok_invariant {St : Type} (I : St → Prop)
    (body : nat → St → outcome St) (n start : nat) (st st' : St) :
  I st →
  (∀ i s s', start ≤ i < start + n → I s → body i s = Ok s' → I s') →
  for_range_from start n body st = Ok st' →
  I st'.
Proof.
  revert start st. induction n as [|n IH]; intros start st Hst Hbody.
  - by intros [= <-].
  - simpl. intros (st1 & Hb & Hfor)%bind_Ok.
    apply (IH (S start) st1); [|intros i s s' Hi; apply Hbody; lia|done].
    apply (Hbody start st st1); [lia|done..].
Qed.

Lemma get_measurement_cases (self : CameraChainSensor) :
  let N := length (image_points (_M_cam self)) in
  let z_mat := get_measurement self in
  (N ≠ 0 →
     shape0 z_mat = N ∧ shape1 z_mat = 2
     ∧ length (flatten z_mat) = get_residual_length self
     ∧ ∀ k pt, image_points (_M_cam self) !! k = Some pt →
         rows z_mat !! k = Some [pt_x pt; pt_y pt])
  ∧ (N = 0 →
     shape0 z_mat = 1 ∧ shape1 z_mat = 0 ∧ flatten z_mat = []
     ∧ get_residual_length self = 0).
Proof.
  unfold get_measurement, get_residual_length.
  generalize (image_points (_M_cam self)). intros [|p ps]; cbv zeta.
  - split; [done|]. intros _. done.
  - split; [|done]. intros _. unfold shape0, shape1, flatten.
    cbn [numpy_matrix fmap list_fmap rows ncols length].
    split; [by rewrite length_fmap|]. split; [done|]. split.
    + change (length (concat ((λ pt, [pt_x pt; pt_y pt]) <$> p :: ps))
              = length (p :: ps) * 2).
      generalize (p :: ps). intros l. induction l as [|a l IH]; [done|].
      rewrite fmap_cons. simpl. simpl in IH. by rewrite IH.
    + intros k pt Hk.
      change (((λ pt0, [pt_x pt0; pt_y pt0]) <$> p :: ps) !! k
              = Some [pt_x pt; pt_y pt]).
      by rewrite list_lookup_fmap, Hk.
Qed.

(** X7.  The observed pixels of N ≥ 1 image points form an N×2 matrix, row k
    holding the coordinates of point k, and flatten to as many entries
    as the residual length; those of no image point form a matrix of
    shape (1, 0), whose row count is not the number of points. *)
Theorem get_measurement_shape (self : CameraChainSensor) :
  let N := length (image_points (_M_cam self)) in
  let z_mat := get_measurement self in
  (N ≠ 0 →
     shape0 z_mat = N ∧ shape1 z_mat = 2
     ∧ length (flatten z_mat) = get_residual_length self
     ∧ ∀ k pt, image_points (_M_cam self) !! k = Some pt →
         rows z_mat !! k = Some [pt_x pt; pt_y pt])
  ∧ (N = 0 →
     shape0 z_mat = 1 ∧ shape1 z_mat = 0 ∧ flatten z_mat = []
     ∧ get_residual_length self = 0).
Proof.
  destruct (get_measurement_cases self) as [Hpos Hzero].
  split; [exact Hpos|exact Hzero].
Qed.

Section Evaluations.

Context (fk : FullChainCalcBlock → option JointState → outcome ndarray)
        (project : RectifiedCamera → ndarray → ndarray → outcome ndarray)
        (full_chain_update_config :
           ChainConfig → RobotParams → outcome FullChainCalcBlock)
        (matmul : ndarray → ndarray → outcome ndarray)
        (mat_inv : ndarray → outcome ndarray)
        (sqrtm : ndarray → outcome cndarray)
        (norm : cndarray → outcome float).

Local Abbreviation expected := (compute_expected fk project matmul mat_inv).
Local Abbreviation residual := (compute_residual fk project matmul mat_inv).
Local Abbreviation covariance := (compute_cov fk project matmul mat_inv).
Local Abbreviation gamma_sqrt :=
  (compute_marginal_gamma_sqrt fk project matmul mat_inv sqrtm norm).
Local Abbreviation residual_scaled :=
  (compute_residual_scaled fk project matmul mat_inv sqrtm norm).

Lemma compute_residual_inv (self : CameraChainSensor)
    (target_pts : ndarray) (r : list float) :
  residual self target_pts = Ok r ↔
  ∃ h_mat,
    expected self target_pts = Ok h_mat
    ∧ shape1 (get_measurement self) = 2
    ∧ shape1 h_mat = 2
    ∧ ∃ d, broadcast2 PrimFloat.sub h_mat (get_measurement self) = Ok d
           ∧ r = flatten d.
Proof.
  unfold compute_residual. rewrite bind_Ok. 
  split.
  - intros (h_mat & Hh & Hrest). exists h_mat. split; [done|].
    apply bind_Ok in Hrest as (u1 & H1%py_assert_Ok & Hrest).
    apply bind_Ok in Hrest as (u2 & H2%py_assert_Ok & Hrest).
    apply bind_Ok in Hrest as (u3 & _ & Hrest).
    apply bind_Ok in Hrest as (d & Hd & [= <-]).
    apply Nat.eqb_eq in H1, H2. split; [done|]. split; [done|]. by exists d.
  - intros (h_mat & Hh & H1 & H2 & d & Hd & ->). exists h_mat.
    split; [done|]. rewrite H1, H2, Nat.eqb_refl. simpl.
    by rewrite Hd.
Qed.

(** X8.  [compute_residual] returns exactly when the expected pixels are
    computed and form a matrix of two columns whose row count is the
    number N ≥ 1 of image points, or is 1, or when N is 1: rows that
    differ in number are broadcast, not rejected.  The residual then has
    two entries per row of the broadcast difference. *)
Theorem compute_residual_returns_iff (self : CameraChainSensor)
    (target_pts : ndarray) (r : list float) :
  let N := length (image_points (_M_cam self)) in
  residual self target_pts = Ok r ↔
  ∃ h_mat,
    expected self target_pts = Ok h_mat
    ∧ N ≠ 0
    ∧ shape1 h_mat = 2
    ∧ (shape0 h_mat = N ∨ shape0 h_mat = 1 ∨ N = 1)
    ∧ r = flatten
            (tabulate (if shape0 h_mat =? 1 then N else shape0 h_mat) 2
               (λ i j,
                  (item h_mat (bidx (shape0 h_mat) i) j
                   - item (get_measurement self) (bidx N i) j)%float))
    ∧ length r = 2 * (if shape0 h_mat =? 1 then N else shape0 h_mat).
Proof.
  cbv zeta. rewrite compute_residual_inv.
  destruct (get_measurement_cases self) as [Hpos Hzero].
  cbv zeta in Hpos, Hzero.
  split.
  - intros (h_mat & Hh & Hz1 & Hh1 & d & Hd & ->). exists h_mat.
    split; [done|].
    assert (HN : length (image_points (_M_cam self)) ≠ 0).
    { intros HN. destruct (Hzero HN) as (_ & Hz & _). congruence. }
    destruct (Hpos HN) as (Hz0 & _).
    unfold broadcast2 in Hd. rewrite Hz0, Hz1, Hh1 in Hd.
    apply bind_Ok in Hd as (nr & [Hcase ->]%broadcast_dim_Ok & Hd).
    rewrite broadcast_dim_same in Hd. simpl in Hd. injection Hd as <-.
    split; [done|]. split; [done|]. split; [done|].
    split; [done|]. rewrite flatten_tabulate_length. lia.
  - intros (h_mat & Hh & HN & Hh1 & Hcase & -> & _). exists h_mat.
    destruct (Hpos HN) as (Hz0 & Hz1 & _).
    split; [done|]. split; [done|]. split; [done|].
    eexists. split; [|done].
    unfold broadcast2. rewrite Hz0, Hz1, Hh1.
    rewrite (proj2 (broadcast_dim_Ok _ _ _) (conj Hcase eq_refl)).
    by rewrite broadcast_dim_same.
Qed.

(** X9.  A sensor whose camera reading has no image point never returns a
    residual: whenever the expected pixels are computed, the assertion
    on the observed matrix, of shape (1, 0), fails.  Its covariance and
    its whitening matrix, when it holds a camera and has no chain
    reading, are the empty matrix all the same. *)
Theorem empty_reading_never_evaluates (self : CameraChainSensor)
    (target_pts : ndarray) :
  image_points (_M_cam self) = [] →
  (∀ r, residual self target_pts ≠ Ok r)
  ∧ (∀ h_mat, expected self target_pts = Ok h_mat →
       residual self target_pts = Raise AssertionError)
  ∧ (∀ r, residual_scaled self target_pts ≠ Ok r)
  ∧ (_M_chain self = None → is_Some (_camera self) →
     covariance self target_pts = Ok (zeros 0 0)
     ∧ gamma_sqrt self target_pts = Ok (zeros 0 0)).
Proof.
  intros Hempty.
  assert (Hres : ∀ r, residual self target_pts ≠ Ok r).
  { intros r (h_mat & _ & Hz & _)%compute_residual_inv.
    unfold get_measurement in Hz. by rewrite Hempty in Hz. }
  split; [done|]. split; [|split].
  - intros h_mat Hh. unfold compute_residual, get_measurement.
    by rewrite Hh, Hempty.
  - intros r (r0 & Hr & _)%bind_Ok. by apply (Hres r0).
  - intros Hchain [cam Hcam].
    assert (Hcov : covariance self target_pts = Ok (zeros 0 0)).
    { unfold compute_cov, compute_cam_cov, get_residual_length.
      by rewrite Hchain, Hcam, Hempty. }
    split; [done|]. unfold compute_marginal_gamma_sqrt, get_residual_length.
    by rewrite Hcov, Hempty.
Qed.

Lemma transpose_vector_shape (r : list float) :
  shape0 (transpose (matrix_of_vector r)) = length r
  ∧ shape1 (transpose (matrix_of_vector r)) = 1
  ∧ ∀ i, i < length r →
      item (transpose (matrix_of_vector r)) i 0 = nth i r 0%float.
Proof.
  unfold transpose. rewrite shape0_tabulate. split; [done|]. split; [done|].
  intros i Hi. unfold shape0, shape1. simpl. by rewrite item_tabulate by lia.
Qed.

(** X10.  [compute_residual_scaled] returns exactly when the residual and the
    whitening matrix are computed and their product, gamma_sqrt times
    the residual as a column vector, has at least one column: the result
    is the first column of that product.  The residual is computed
    first, so that its exception is the one raised when both fail. *)
Theorem residual_scaled_is_whitened_residual (self : CameraChainSensor)
    (target_pts : ndarray) :
  (∀ v, residual_scaled self target_pts = Ok v ↔
     ∃ r gamma r_scaled,
       residual self target_pts = Ok r
       ∧ gamma_sqrt self target_pts = Ok gamma
       ∧ matmul gamma (transpose (matrix_of_vector r)) = Ok r_scaled
       ∧ 0 < shape1 r_scaled
       ∧ v = (λ i, item r_scaled i 0) <$> seq 0 (shape0 r_scaled))
  ∧ (∀ r, shape0 (transpose (matrix_of_vector r)) = length r
          ∧ shape1 (transpose (matrix_of_vector r)) = 1
          ∧ ∀ i, i < length r →
              item (transpose (matrix_of_vector r)) i 0 = nth i r 0%float)
  ∧ (∀ e, residual self target_pts = Raise e →
          residual_scaled self target_pts = Raise e).
Proof.
  split; [|split; [apply transpose_vector_shape|]].
  - intros v. unfold compute_residual_scaled.
    assert (Hrow : ∀ p, py_getitem (rows (transpose p)) 0 = Ok v
                        ↔ 0 < shape1 p
                          ∧ v = (λ i, item p i 0) <$> seq 0 (shape0 p)).
    { intros p. unfold py_getitem, transpose, tabulate. cbn [rows].
      rewrite list_lookup_fmap.
      destruct (shape1 p) as [|n].
      - simpl. split; [done|]. intros [? _]. lia.
      - simpl. split; [intros [= <-]; split; [lia|done]|by intros [_ ->]]. }
    split.
    + intros (r & Hr & (gamma & Hg & (p & Hp & Hv%Hrow)%bind_Ok)%bind_Ok)%bind_Ok.
      destruct Hv as [Hpos ->]. by exists r, gamma, p.
    + intros (r & gamma & p & Hr & Hg & Hp & Hv).
      rewrite Hr. simpl. rewrite Hg. simpl. rewrite Hp. simpl.
      by apply Hrow.
  - intros e He. unfold compute_residual_scaled. by rewrite He.
Qed.

(** X11.  Whenever [compute_marginal_gamma_sqrt] returns, the covariance has
    been computed, the whitening matrix has its shape, and every entry
    outside the 2×2 blocks of the diagonal is zero: the covariance
    between the coordinates of different points never enters it. *)
Theorem gamma_sqrt_support (self : CameraChainSensor)
    (target_pts gamma : ndarray) :
  gamma_sqrt self target_pts = Ok gamma →
  ∃ cov,
    covariance self target_pts = Ok cov
    ∧ shape0 gamma = shape0 cov
    ∧ shape1 gamma = shape1 cov
    ∧ ∀ i j, i / 2 ≠ j / 2 → item gamma i j = 0%float.
Proof.
  unfold compute_marginal_gamma_sqrt.
  intros (cov & Hcov & Hloop)%bind_Ok. exists cov. split; [done|].
  unfold for_range in Hloop.
  apply (for_range_from_Ok_invariant
           (λ g, shape0 g = shape0 cov ∧ shape1 g = shape1 cov
                 ∧ ∀ i j, i / 2 ≠ j / 2 → item g i j = 0%float))
    in Hloop; [done| |].
  - rewrite zeros_tabulate, shape0_tabulate. split; [done|]. split; [done|].
    intros i j _.
    destruct (decide (i < shape0 cov ∧ j < shape1 cov)) as [[Hi Hj]|Hout].
    + by rewrite item_tabulate.
    + by rewrite item_tabulate_outside.
  - intros k g g' _ (Hg0 & Hg1 & Hzero) Hstep. unfold gamma_step in Hstep.
    apply bind_Ok in Hstep as (sub_gamma & _ & Hstep).
    apply bind_Ok in Hstep as (full & _ & Hstep).
    apply bind_Ok in Hstep as (d & _ & Hstep).
    apply bind_Ok in Hstep as (n & _ & Hstep).
    apply bind_Ok in Hstep as (u & _ & Hstep).
    unfold set_block in Hstep.
    destruct (_ && _) in Hstep; [|done]. injection Hstep as <-.
    rewrite shape0_tabulate. split; [done|]. split; [done|].
    intros i j Hij.
    destruct (decide (i < shape0 g ∧ j < shape1 g)) as [[Hi Hj]|Hout];
      [|by rewrite item_tabulate_outside].
    rewrite item_tabulate by done.
    destruct (half_and_rest i) as [Hi2 Hi3].
    destruct (half_and_rest j) as [Hj2 Hj3].
    nat_bool_cases; cbn [andb]; try (by apply Hzero); lia.
Qed.

End Evaluations.

Lemma empty_reading_never_evaluates_witness :
  (∀ r, compute_residual stub_fk stub_project stub_matmul stub_inv
          sensor_no_points target_no_points ≠ Ok r)
  ∧ (∀ h_mat,
       compute_expected stub_fk stub_project stub_matmul stub_inv
         sensor_no_points target_no_points = Ok h_mat →
       compute_residual stub_fk stub_project stub_matmul stub_inv
         sensor_no_points target_no_points = Raise AssertionError)
  ∧ (∀ r, compute_residual_scaled stub_fk stub_project stub_matmul stub_inv
            stub_sqrtm stub_norm sensor_no_points target_no_points ≠ Ok r)
  ∧ (_M_chain sensor_no_points = None → is_Some (_camera sensor_no_points) →
     compute_cov stub_fk stub_project stub_matmul stub_inv
       sensor_no_points target_no_points = Ok (zeros 0 0)
     ∧ compute_marginal_gamma_sqrt stub_fk stub_project stub_matmul stub_inv
         stub_sqrtm stub_norm sensor_no_points target_no_points
       = Ok (zeros 0 0)).
Proof.
  apply (empty_reading_never_evaluates stub_fk stub_project stub_matmul
           stub_inv stub_sqrtm stub_norm sensor_no_points target_no_points).
  vm_compute. reflexivity.
Defined.

Lemma gamma_sqrt_support_witness :
  ∃ cov,
    compute_cov stub_fk stub_project stub_matmul stub_inv
      sensor_two_points target_two_points = Ok cov
    ∧ shape0 (block_diag2 2 (λ k, re (sample_full k))) = shape0 cov
    ∧ shape1 (block_diag2 2 (λ k, re (sample_full k))) = shape1 cov
    ∧ ∀ i j, i / 2 ≠ j / 2 →
        item (block_diag2 2 (λ k, re (sample_full k))) i j = 0%float.
Proof.
  apply (gamma_sqrt_support stub_fk stub_project stub_matmul stub_inv
           stub_sqrtm stub_norm sensor_two_points target_two_points).
  vm_compute. reflexivity.
Defined.

(** ** The Jacobian with respect to the target points *)

Lemma third_and_rest (i : nat) : i = 3 * (i / 3) + i mod 3 ∧ i mod 3 < 3.
Proof.
  split; [apply Nat.div_mod_eq|]. by apply Nat.mod_upper_bound.
Qed.

Lemma shape1_tabulate (nr nc : nat) (f : nat → nat → float) :
  shape1 (tabulate nr nc f) = nc.
Proof. done. Qed.

Lemma item_zeros_any (nr nc i j : nat) : item (zeros nr nc) i j = 0%float.
Proof.
  rewrite zeros_tabulate.
  destruct (decide (i < nr ∧ j < nc)) as [[Hi Hj]|Hout].
  - by rewrite item_tabulate.
  - by rewrite item_tabulate_outside.
Qed.

Lemma set_block_tabulate_3x2 (nr nc : nat) (f : nat → nat → float)
    (r0 c0 : nat) (v : ndarray) :
  r0 + 3 ≤ nr → c0 + 2 ≤ nc → shape0 v = 3 → shape1 v = 2 →
  set_block (tabulate nr nc f) r0 (r0 + 3) c0 (c0 + 2) v
  = Ok (tabulate nr nc (λ i j,
          if (r0 <=? i) && (i <? r0 + 3) && (c0 <=? j) && (j <? c0 + 2)
          then item v (i - r0) (j - c0) else f i j)).
Proof.
  intros Hr Hc Hv0 Hv1. unfold set_block.
  rewrite shape0_tabulate, shape1_tabulate.
  replace (Nat.min (r0 + 3 - r0) (nr - r0)) with 3 by lia.
  replace (Nat.min (c0 + 2 - c0) (nc - c0)) with 2 by lia.
  rewrite Hv0, Hv1. cbn [Nat.eqb orb andb]. f_equal.
  apply tabulate_ext. intros i j Hi Hj.
  by rewrite item_tabulate by done.
Qed.

Lemma restored_upto_0 (m : ndarray) (k : nat) :
  restored_upto (column_of m k) 0 = column_of m k.
Proof.
  unfold restored_upto, column_of. rewrite shape0_tabulate.
  apply tabulate_ext. intros a b Ha Hb.
  replace b with 0 by lia. by rewrite item_tabulate by lia.
Qed.

Section ExpectedJ.

Context (fk : FullChainCalcBlock → option JointState → outcome ndarray)
        (project : RectifiedCamera → ndarray → ndarray → outcome ndarray)
        (full_chain_update_config :
           ChainConfig → RobotParams → outcome FullChainCalcBlock)
        (matmul : ndarray → ndarray → outcome ndarray)
        (mat_inv : ndarray → outcome ndarray).

Local Abbreviation expected := (compute_expected fk project matmul mat_inv).
Local Abbreviation expected_J :=
  (compute_expected_J fk project matmul mat_inv).
Local Abbreviation J_point := (expected_J_point fk project matmul mat_inv).
Local Abbreviation J_coord := (expected_J_coord fk project matmul mat_inv).
Local Abbreviation unbound := (never_bound full_chain_update_config).

(** X12.  Whenever [compute_expected_J] returns for a sensor of N image
    points, the result has shape 2N×3N, and every entry outside the 2×3
    blocks of its diagonal is zero: the pixel of one point is taken to
    depend on the coordinates of that point alone. *)
Theorem expected_J_shape_support (self : CameraChainSensor)
    (target_pts J : ndarray) :
  expected_J self target_pts = Ok J →
  shape0 J = length (image_points (_M_cam self)) * 2
  ∧ shape1 J = length (image_points (_M_cam self)) * 3
  ∧ ∀ r c, r / 2 ≠ c / 3 → item J r c = 0%float.
Proof.
  unfold compute_expected_J. intros (Jt & Hloop & [= <-])%bind_Ok.
  set (N := length (image_points (_M_cam self))) in *.
  unfold for_range in Hloop.
  apply (for_range_from_Ok_invariant
           (λ m, shape0 m = N * 3 ∧ shape1 m = N * 2
                 ∧ ∀ a b, a / 3 ≠ b / 2 → item m a b = 0%float))
    in Hloop.
  - destruct Hloop as (H0 & H1 & Hzero). unfold transpose.
    rewrite shape0_tabulate, shape1_tabulate, H0, H1.
    split; [done|]. split; [done|]. intros r c Hrc.
    destruct (decide (r < N * 2 ∧ c < N * 3)) as [[Hr Hc]|Hout].
    + rewrite item_tabulate by done. apply Hzero. congruence.
    + by rewrite item_tabulate_outside.
  - unfold zeros at 1 2. unfold shape0, shape1. cbn [rows ncols].
    rewrite length_replicate. split; [done|]. split; [done|].
    intros a b _. apply item_zeros_any.
  - intros k m m' _ (H0 & H1 & Hzero) Hstep.
    unfold expected_J_point in Hstep.
    apply bind_Ok in Hstep as (x & _ & Hstep).
    apply bind_Ok in Hstep as (f0 & _ & Hstep).
    apply bind_Ok in Hstep as (st & _ & Hstep).
    unfold set_block in Hstep.
    destruct (_ && _) in Hstep; [|done]. injection Hstep as <-.
    rewrite shape0_tabulate, shape1_tabulate.
    split; [done|]. split; [done|]. intros a b Hab.
    destruct (decide (a < shape0 m ∧ b < shape1 m)) as [[Ha Hb]|Hout];
      [|by rewrite item_tabulate_outside].
    rewrite item_tabulate by done.
    destruct (third_and_rest a) as [Ha3 Har].
    destruct (half_and_rest b) as [Hb2 Hbr].
    nat_bool_cases; cbn [andb]; try (by apply Hzero); lia.
Qed.

(** X13.  A target with fewer columns than the sensor has image points makes
    [compute_expected_J] raise: it never returns, and with no column at
    all it raises [IndexError] before anything is evaluated. *)
Theorem expected_J_needs_columns (self : CameraChainSensor)
    (target_pts : ndarray) :
  shape1 target_pts < length (image_points (_M_cam self)) →
  (∀ J, expected_J self target_pts ≠ Ok J)
  ∧ (shape1 target_pts = 0 →
     expected_J self target_pts = Raise IndexError).
Proof.
  intros Hlt.
  assert (Hk : ∀ k Jt, shape1 target_pts ≤ k →
                       J_point self target_pts k Jt = Raise IndexError).
  { intros k Jt Hle. unfold expected_J_point, column.
    by rewrite (proj2 (Nat.ltb_ge _ _) Hle). }
  unfold compute_expected_J, for_range. split.
  - intros J.
    destruct (for_range_from_raises (J_point self target_pts)
                (length (image_points (_M_cam self))) 0 (shape1 target_pts)
                (zeros (length (image_points (_M_cam self)) * 3)
                   (length (image_points (_M_cam self)) * 2)))
      as [e He]; [done| |by rewrite He].
    intros st. exists IndexError. by apply Hk.
  - intros H0.
    destruct (length (image_points (_M_cam self))) as [|n]; [lia|].
    cbn [for_range_from]. rewrite Hk by lia. done.
Qed.

(** X14.  On a sensor without image points [compute_expected_J] returns the
    empty matrix, whatever the target and whether the sensor is bound or
    not: nothing is evaluated.  On a sensor that has an image point and
    on which [update_config] has never returned, it raises the exception
    of a missing attribute as soon as the target has a column. *)
Theorem expected_J_before_binding (self : CameraChainSensor)
    (target_pts : ndarray) :
  (image_points (_M_cam self) = [] →
   expected_J self target_pts = Ok (zeros 0 0))
  ∧ (unbound self → image_points (_M_cam self) ≠ [] →
     0 < shape1 target_pts →
     expected_J self target_pts = Raise AttributeError).
Proof.
  unfold compute_expected_J, for_range. split.
  - by intros ->.
  - intros Hcb%never_bound_calc_block Hne Hcol.
    assert (H0 : ∀ Jt, J_point self target_pts 0 Jt = Raise AttributeError).
    { intros Jt. unfold expected_J_point, column.
      rewrite (proj2 (Nat.ltb_lt _ _) Hcol). cbn [mbind outcome_bind].
      unfold compute_expected, _compute_expected. rewrite Hcb.
      by destruct (_M_chain self). }
    destruct (image_points (_M_cam self)) as [|p ps]; [done|].
    cbn [length for_range_from]. by rewrite H0.
Qed.

Lemma J_coord_step (self : CameraChainSensor) (x0 f0 ei : ndarray)
    (g : nat → nat → float) (i : nat) :
  i < shape0 x0 → i < 3 →
  expected self (perturbed_point x0 i) = Ok ei →
  shape0 ei = 1 → shape1 ei = 2 → shape0 f0 = 1 → shape1 f0 = 2 →
  J_coord self f0 i (restored_upto x0 i, tabulate 3 2 g)
  = Ok (restored_upto x0 (S i),
        tabulate 3 2 (λ a b,
          if a =? i then ((item ei 0 b - item f0 0 b) / epsilon)%float
          else g a b)).
Proof.
  intros Hi Hi3 He He0 He1 Hf0 Hf1. unfold expected_J_coord. cbn [fst snd].
  assert (Hp : set_item (restored_upto x0 i) i 0
                 (item (restored_upto x0 i) i 0 + epsilon)%float
               = Ok (perturbed_point x0 i)).
  { unfold restored_upto, perturbed_point.
    rewrite item_tabulate by lia. rewrite Nat.ltb_irrefl.
    rewrite set_item_tabulate by lia. f_equal.
    apply tabulate_ext. intros a b Ha Hb. replace b with 0 by lia.
    nat_bool_cases; cbn [andb]; try done; try lia. by subst. }
  rewrite Hp. cbn [mbind outcome_bind]. rewrite He. cbn [mbind outcome_bind].
  rewrite broadcast2_same_shape by congruence. cbn [mbind outcome_bind].
  rewrite He0, He1.
  assert (Hrow : set_row_2d (tabulate 3 2 g) i
                   (div_scalar
                      (tabulate 1 2 (λ a b, (item ei a b - item f0 a b)%float))
                      epsilon)
                 = Ok (tabulate 3 2 (λ a b,
                         if a =? i
                         then ((item ei 0 b - item f0 0 b) / epsilon)%float
                         else g a b))).
  { unfold set_row_2d, div_scalar.
    rewrite !shape0_tabulate, shape1_tabulate. cbn [Nat.eqb].
    cbn [tabulate rows seq fmap list_fmap nth].
    rewrite set_row_tabulate by done. reflexivity. }
  rewrite Hrow. cbn [mbind outcome_bind].
  assert (Hq : set_item (perturbed_point x0 i) i 0
                 (item (perturbed_point x0 i) i 0 - epsilon)%float
               = Ok (restored_upto x0 (S i))).
  { unfold restored_upto, perturbed_point.
    rewrite item_tabulate by lia. rewrite Nat.ltb_irrefl, Nat.eqb_refl.
    rewrite set_item_tabulate by lia. f_equal.
    apply tabulate_ext. intros a b Ha Hb. replace b with 0 by lia.
    unfold restored.
    nat_bool_cases; cbn [andb]; try done; try lia. by subst. }
  by rewrite Hq.
Qed.

Lemma J_inner_loop (self : CameraChainSensor) (x0 f0 : ndarray)
    (e : nat → ndarray) :
  restored_upto x0 0 = x0 →
  3 ≤ shape0 x0 →
  shape0 f0 = 1 → shape1 f0 = 2 →
  (∀ i, i < 3 →
     expected self (perturbed_point x0 i) = Ok (e i)
     ∧ shape0 (e i) = 1 ∧ shape1 (e i) = 2) →
  ∃ x3,
    for_range 3 (J_coord self f0) (x0, zeros 3 2)
    = Ok (x3, tabulate 3 2 (λ a b,
                ((item (e a) 0 b - item f0 0 b) / epsilon)%float)).
Proof.
  intros Hx0 Hrows Hf0 Hf1 He. unfold for_range.
  destruct (for_range_from_invariant
    (λ i st, st = (restored_upto x0 i,
                   tabulate 3 2 (λ a b,
                     if a <? i
                     then ((item (e a) 0 b - item f0 0 b) / epsilon)%float
                     else 0%float)))
    (J_coord self f0) 3 0 (x0, zeros 3 2)) as (st & Hst & ->).
  - rewrite Hx0. reflexivity.
  - intros i st Hi ->. destruct (He i) as (Hei & H0 & H1); [lia|].
    rewrite (J_coord_step self x0 f0 (e i)) by (done || lia).
    eexists. split; [done|]. apply (f_equal (pair _)).
    apply tabulate_ext. intros a b Ha Hb.
    nat_bool_cases; try done; try lia. by subst.
  - eexists. rewrite Hst. reflexivity.
Qed.

Lemma J_point_closed (self : CameraChainSensor) (target_pts f0 : ndarray)
    (e : nat → ndarray) (n k : nat) (F : nat → nat → float) :
  k < n → k < shape1 target_pts → 3 ≤ shape0 target_pts →
  expected self (column_of target_pts k) = Ok f0 →
  shape0 f0 = 1 → shape1 f0 = 2 →
  (∀ i, i < 3 →
     expected self (perturbed_point (column_of target_pts k) i) = Ok (e i)
     ∧ shape0 (e i) = 1 ∧ shape1 (e i) = 2) →
  J_point self target_pts k (tabulate (n * 3) (n * 2) F)
  = Ok (tabulate (n * 3) (n * 2) (λ a b,
          if (k * 3 <=? a) && (a <? k * 3 + 3)
             && (k * 2 <=? b) && (b <? k * 2 + 2)
          then ((item (e (a - k * 3)%nat) 0 (b - k * 2)%nat
                 - item f0 0 (b - k * 2)%nat) / epsilon)%float
          else F a b)).
Proof.
  intros Hk Hcol Hrows Hf Hf0 Hf1 He. unfold expected_J_point, column.
  rewrite (proj2 (Nat.ltb_lt _ _) Hcol). cbn [mbind outcome_bind].
  rewrite Hf. cbn [mbind outcome_bind].
  destruct (J_inner_loop self (column_of target_pts k) f0 e)
    as [x3 Hloop];
    [apply restored_upto_0
    |unfold column_of; by rewrite shape0_tabulate
    |done|done|done|].
  rewrite Hloop. cbn [mbind outcome_bind snd].
  replace ((k + 1) * 3) with (k * 3 + 3) by lia.
  replace ((k + 1) * 2) with (k * 2 + 2) by lia.
  rewrite set_block_tabulate_3x2 by (rewrite ?shape0_tabulate; done || lia).
  f_equal. apply tabulate_ext. intros a b Ha Hb.
  nat_bool_cases; cbn [andb]; try done.
  by rewrite item_tabulate by lia.
Qed.

(** X15.  For a sensor of N image points and a target of at least N columns
    and three rows, on which every evaluation returns one pixel,
    [compute_expected_J] returns the 2N×3N matrix whose block k holds
    the forward differences (perturbed − base) / ε of the pixel of
    column k.  The perturbation of coordinate i is evaluated at the
    point whose coordinate i has ε added and whose coordinates before i
    are (x + ε) − ε, which need not be the x they were. *)
Theorem expected_J_is_forward_difference (self : CameraChainSensor)
    (target_pts : ndarray) (f0 : nat → ndarray) (e : nat → nat → ndarray) :
  length (image_points (_M_cam self)) ≤ shape1 target_pts →
  3 ≤ shape0 target_pts →
  (∀ k, k < length (image_points (_M_cam self)) →
     expected self (column_of target_pts k) = Ok (f0 k)
     ∧ shape0 (f0 k) = 1 ∧ shape1 (f0 k) = 2) →
  (∀ k i, k < length (image_points (_M_cam self)) → i < 3 →
     expected self (perturbed_point (column_of target_pts k) i) = Ok (e k i)
     ∧ shape0 (e k i) = 1 ∧ shape1 (e k i) = 2) →
  expected_J self target_pts
  = Ok (tabulate (length (image_points (_M_cam self)) * 2)
          (length (image_points (_M_cam self)) * 3)
          (λ r c,
             if r / 2 =? c / 3
             then ((item (e (c / 3)%nat (c mod 3)) 0 (r mod 2)
                    - item (f0 (c / 3)%nat) 0 (r mod 2)) / epsilon)%float
             else 0%float)).
Proof.
  intros Hcols Hrows Hf He. unfold compute_expected_J.
  set (N := length (image_points (_M_cam self))) in *.
  unfold for_range.
  destruct (for_range_from_invariant
    (λ k m, m = tabulate (N * 3) (N * 2) (λ a b,
       if (a / 3 =? b / 2) && (a / 3 <? k)
       then ((item (e (a / 3)%nat (a mod 3)) 0 (b mod 2)
              - item (f0 (a / 3)%nat) 0 (b mod 2)) / epsilon)%float
       else 0%float))
    (J_point self target_pts) N 0 (zeros (N * 3) (N * 2)))
    as (Jt & HJt & ->).
  - rewrite zeros_tabulate. apply tabulate_ext. intros a b _ _.
    by rewrite andb_false_r.
  - intros k m Hk ->.
    destruct (Hf k) as (Hfk & Hf0 & Hf1); [lia|].
    rewrite (J_point_closed self target_pts (f0 k) (e k) N k)
      by (done || lia || (intros i Hi; apply He; lia)).
    eexists. split; [done|].
    apply tabulate_ext. intros a b Ha Hb.
    destruct (third_and_rest a) as [Ha3 Har].
    destruct (half_and_rest b) as [Hb2 Hbr].
    nat_bool_cases; cbn [andb]; try done; try lia.
    assert (Hak : a / 3 = k) by lia. rewrite Hak.
    replace (a - k * 3) with (a mod 3) by lia.
    by replace (b - k * 2) with (b mod 2) by lia.
  - rewrite HJt. cbn [mbind outcome_bind mret outcome_ret]. f_equal.
    unfold transpose. rewrite shape0_tabulate, shape1_tabulate.
    apply tabulate_ext. intros r c Hr Hc.
    rewrite item_tabulate by done.
    destruct (third_and_rest c) as [Hc3 Hcr].
    nat_bool_cases; cbn [andb]; try done; lia.
Qed.

End ExpectedJ.

Lemma expected_J_shape_support_witness :
  shape0 sample_expected_J = length (image_points (_M_cam sensor_two_points)) * 2
  ∧ shape1 sample_expected_J
    = length (image_points (_M_cam sensor_two_points)) * 3
  ∧ ∀ r c, r / 2 ≠ c / 3 → item sample_expected_J r c = 0%float.
Proof.
  apply (expected_J_shape_support stub_fk stub_project stub_matmul stub_inv
           sensor_two_points target_two_points sample_expected_J).
  vm_compute. reflexivity.
Defined.

Lemma expected_J_needs_columns_witness :
  (∀ J, compute_expected_J stub_fk stub_project stub_matmul stub_inv
          sensor_two_points target_one_point ≠ Ok J)
  ∧ (shape1 target_one_point = 0 →
     compute_expected_J stub_fk stub_project stub_matmul stub_inv
       sensor_two_points target_one_point = Raise IndexError).
Proof.
  apply (expected_J_needs_columns stub_fk stub_project stub_matmul stub_inv
           sensor_two_points target_one_point).
  vm_compute. lia.
Defined.

Lemma expected_J_before_binding_witness :
  compute_expected_J stub_fk stub_project stub_matmul stub_inv
    (fresh_sensor None [] None) target_one_point = Ok (zeros 0 0)
  ∧ compute_expected_J stub_fk stub_project stub_matmul stub_inv
      (fresh_sensor None [ {| pt_x := 320%float; pt_y := 240%float |} ] None)
      target_one_point = Raise AttributeError.
Proof.
  split.
  - apply (expected_J_before_binding stub_fk stub_project stub_update_config
             stub_matmul stub_inv (fresh_sensor None [] None)
             target_one_point).
    reflexivity.
  - apply (expected_J_before_binding stub_fk stub_project stub_update_config
             stub_matmul stub_inv
             (fresh_sensor None
                [ {| pt_x := 320%float; pt_y := 240%float |} ] None)
             target_one_point).
    + apply never_bound_init.
    + discriminate.
    + vm_compute. lia.
Defined.

Lemma expected_J_is_forward_difference_witness :
  compute_expected_J stub_fk stub_project stub_matmul stub_inv
    sensor_two_points target_two_points
  = Ok (tabulate (length (image_points (_M_cam sensor_two_points)) * 2)
          (length (image_points (_M_cam sensor_two_points)) * 3)
          (λ r c,
             if r / 2 =? c / 3
             then ((item (sample_point_perturbed (c / 3)%nat (c mod 3)) 0
                      (r mod 2)
                    - item (sample_point_expected (c / 3)%nat) 0 (r mod 2))
                   / epsilon)%float
             else 0%float)).
Proof.
  apply (expected_J_is_forward_difference stub_fk stub_project stub_matmul
           stub_inv sensor_two_points target_two_points
           sample_point_expected sample_point_perturbed).
  - vm_compute. lia.
  - vm_compute. lia.
  - intros k Hk. change (k < 2) in Hk.
    destruct k as [|[|k]]; [| |lia]; repeat split; vm_compute; reflexivity.
  - intros k i Hk Hi. change (k < 2) in Hk.
    destruct k as [|[|k]]; [| |lia];
      (destruct i as [|[|[|i]]]; [| | |lia]);
      repeat split; vm_compute; reflexivity.
Defined.

(** Adding ε to the coordinate 1 and subtracting it again gives the
    float below 1: when the second coordinate of the point (1, 1, 2, 1)
    is perturbed, its first coordinate is no longer the one at which the
    base value was computed. *)
Example restoring_is_inexact :
  restored 1 = 0x1.fffffffffffffp-1%float
  ∧ item (column_of target_unit_point 0) 0 0 = 1%float
  ∧ item (perturbed_point (column_of target_unit_point 0) 1) 0 0
    = 0x1.fffffffffffffp-1%float
  ∧ item (perturbed_point (column_of target_unit_point 0) 1) 1 0
    = (1 + epsilon)%float.
Proof. repeat split; vm_compute; reflexivity. Qed.

(** ** From the bundler to the sparsity dictionary *)

(** The configuration of a sensor returned by [build_blocks] names a
    chain whenever the sensor has a chain reading. *)
Lemma bundled_sensor_chain_configured (valid_configs : list Config)
    (M_robot : RobotMeasurement) (sensors : list CameraChainSensor)
    (sn : CameraChainSensor) :
  build_blocks valid_configs M_robot = Ok sensors →
  sn ∈ sensors →
  chain_configured sn.
Proof.
  unfold build_blocks. rewrite build_blocks_loop_closed. intros [= <-].
  simpl. intros (c & _ & Hsn)%list_elem_of_omap.
  apply sensor_of_Some in Hsn as (m_cam & _ & Hsn).
  unfold chain_configured.
  destruct (cfg_chain_id (cfg_chain c)) as [ch|] eqn:Hch.
  - destruct Hsn as (m_chain & _ & ->). simpl. rewrite Hch. by eexists.
  - subst sn. simpl. by intros [? ?].
Qed.

Section Bundled.

Context (full_chain_update_config :
           ChainConfig → RobotParams → outcome FullChainCalcBlock).

Local Abbreviation rebind_all := (update_config_all full_chain_update_config).

(** X16.  For a sensor returned by [build_blocks], after any sequence of
    [update_config] calls, every sparsity dictionary that is built holds
    the camera flags under the identifier of the camera reading of the
    sensor, and, when the sensor has a chain reading, one chain entry
    under the identifier of that reading, with one row and one gearing
    flag per measured joint; without a chain reading it holds no chain
    entry. *)
Theorem bundled_sensor_sparsity (valid_configs : list Config)
    (M_robot : RobotMeasurement) (sensors : list CameraChainSensor)
    (sn : CameraChainSensor) (cycles : list RobotParams) (sp : Sparsity) :
  build_blocks valid_configs M_robot = Ok sensors →
  sn ∈ sensors →
  build_sparsity_dict (rebind_all sn cycles) = Ok sp →
  (∃ flags, sp_rectified_cams sp = {[ camera_id (_M_cam sn) := flags ]})
  ∧ sp_dh_chains sp
    = match _M_chain sn with
      | Some m_chain =>
          {[ Some (chain_id m_chain)
             := {| sp_dh := replicate (length (position (chain_state m_chain)))
                              [1; 1; 1; 1]%Z;
                   sp_gearing := replicate
                                   (length (position (chain_state m_chain)))
                                   1%Z |} ]}
      | None => ∅
      end.
Proof.
  unfold build_blocks. rewrite build_blocks_loop_closed. intros [= <-].
  simpl. intros (c & _ & Hsn)%list_elem_of_omap.
  apply sensor_of_Some in Hsn as (m_cam & Hcam & Hsn).
  destruct (first_with_found _ _ _ _ Hcam) as (i & _ & Hid & _).
  destruct (update_config_all_keeps_fields full_chain_update_config sn cycles)
    as (_ & Hsid & Hcfg & _ & Hch & _).
  rewrite build_sparsity_dict_shape, Hsid, Hcfg, Hch.
  intros (sp_c & Hc & (names & _ & [= <-])%bind_Ok)%bind_Ok. simpl.
  destruct (cfg_chain_id (cfg_chain c)) as [ch|] eqn:Hcid.
  - destruct Hsn as (m_chain & Hchain & ->). simpl in *.
    destruct (first_with_found _ _ _ _ Hchain) as (j & _ & Hidj & _).
    rewrite Hid. split; [by eexists|].
    apply bind_Ok in Hc as (n & _ & Hc).
    destruct (n =? length (position (chain_state m_chain))) eqn:Hn; [|done].
    apply Nat.eqb_eq in Hn as ->.
    injection Hc as <-. by rewrite Hcid, Hidj.
  - subst sn. simpl in *. rewrite Hid. split; [by eexists|].
    by injection Hc as <-.
Qed.

(** X17.  A sensor returned by [build_blocks] keeps, through any sequence of
    [update_config] calls, the attributes set at its construction: it is
    a camera sensor of two terms per sample, named after the camera of
    its reading and of its configuration, whose residual length is
    terms_per_sample times the number of its image points, and whose
    chain parameters carry the chain entry of its configuration. *)
Theorem bundled_sensor_invariants (valid_configs : list Config)
    (M_robot : RobotMeasurement) (sensors : list CameraChainSensor)
    (sn : CameraChainSensor) (cycles : list RobotParams) :
  build_blocks valid_configs M_robot = Ok sensors →
  sn ∈ sensors →
  let self := rebind_all sn cycles in
  sensor_type self = "camera"
  ∧ terms_per_sample self = 2
  ∧ sensor_id self = camera_id (_M_cam self)
  ∧ sensor_id self = cfg_camera_id (_config_dict self)
  ∧ get_residual_length self
    = terms_per_sample self * length (image_points (_M_cam self))
  ∧ fc_config_dict (_chain self) = cfg_chain (_config_dict self).
Proof.
  unfold build_blocks. rewrite build_blocks_loop_closed. intros [= <-].
  simpl. intros (c & _ & Hsn)%list_elem_of_omap.
  apply sensor_of_Some in Hsn as (m_cam & Hcam & Hsn).
  destruct (first_with_found _ _ _ _ Hcam) as (i & _ & Hid & _).
  destruct (update_config_all_keeps_fields full_chain_update_config sn cycles)
    as (Hty & Hsid & Hcfg & Hmc & _ & Hterms & Hfc).
  cbv zeta. unfold get_residual_length.
  rewrite Hty, Hsid, Hcfg, Hmc, Hterms, Hfc.
  assert (Hinit : ∃ m_chain, sn = CameraChainSensor_init c m_cam m_chain).
  { destruct (cfg_chain_id (cfg_chain c));
      [destruct Hsn as (m_chain & _ & ->)|subst sn]; by eexists. }
  destruct Hinit as [m_chain ->]. simpl. rewrite Hid.
  repeat split; lia.
Qed.

End Bundled.

Lemma bundled_sensor_sparsity_witness :
  ∃ sp,
    build_sparsity_dict
      (update_config_all stub_update_config
         (CameraChainSensor_init config_arm (sample_cam "cam_b")
            (Some sample_arm))
         [sample_params]) = Ok sp
    ∧ (∃ flags, sp_rectified_cams sp = {[ "cam_b" := flags ]})
    ∧ sp_dh_chains sp
      = {[ Some "arm" := {| sp_dh := replicate 2 [1; 1; 1; 1]%Z;
                            sp_gearing := replicate 2 1%Z |} ]}.
Proof.
  destruct (build_sparsity_dict
              (update_config_all stub_update_config
                 (CameraChainSensor_init config_arm (sample_cam "cam_b")
                    (Some sample_arm))
                 [sample_params])) as [sp|e] eqn:Hsp.
  - exists sp. split; [reflexivity|].
    apply (bundled_sensor_sparsity stub_update_config
             [config_camera_only; config_arm] sample_robot
             [CameraChainSensor_init config_camera_only (sample_cam "cam_a")
                None;
              CameraChainSensor_init config_arm (sample_cam "cam_b")
                (Some sample_arm)]
             (CameraChainSensor_init config_arm (sample_cam "cam_b")
                (Some sample_arm))
             [sample_params] sp).
    + vm_compute. reflexivity.
    + apply list_elem_of_lookup. exists 1. reflexivity.
    + exact Hsp.
  - vm_compute in Hsp. discriminate.
Defined.

Lemma bundled_sensor_invariants_witness :
  let self :=
    update_config_all stub_update_config
      (CameraChainSensor_init config_arm (sample_cam "cam_b")
         (Some sample_arm))
      [params_without_camera; sample_params] in
  sensor_type self = "camera"
  ∧ terms_per_sample self = 2
  ∧ sensor_id self = camera_id (_M_cam self)
  ∧ sensor_id self = cfg_camera_id (_config_dict self)
  ∧ get_residual_length self
    = terms_per_sample self * length (image_points (_M_cam self))
  ∧ fc_config_dict (_chain self) = cfg_chain (_config_dict self).
Proof.
  apply (bundled_sensor_invariants stub_update_config
           [config_camera_only; config_arm] sample_robot
           [CameraChainSensor_init config_camera_only (sample_cam "cam_a")
              None;
            CameraChainSensor_init config_arm (sample_cam "cam_b")
              (Some sample_arm)]
           (CameraChainSensor_init config_arm (sample_cam "cam_b")
              (Some sample_arm))
           [params_without_camera; sample_params]).
  - vm_compute. reflexivity.
  - apply list_elem_of_lookup. exists 1. reflexivity.
Defined.

